(** * AnimeVault: storage wrapper, Jikan API client and detail page fallbacks

    A shallow embedding of the parts of the AnimeVault browser application
    that its specification makes claims about:

    - [Storage]         (the localStorage wrapper: favorites, search history),
    - [JikanAPI]        (the API client: cache, throttle, [request]),
    - [AnimeDetailPage] (the recommendation fallback chain).

    Conventions of the embedding.

    - JavaScript values that come from JSON are values of [jsval]; numbers
      are rationals (every finite double is one; JSON has no NaN and no
      infinity).
    - JavaScript strings are sequences of UTF-16 code units.  The embedding
      covers the strings whose code units lie in U+0000..U+00FF, one [ascii]
      per code unit; on these [trim], [toLowerCase] and [encodeURIComponent]
      are given exactly as ECMAScript defines them.
    - [Date.now()] readings, timer lateness, network outcomes and the success
      of [localStorage.setItem] belong to the environment and are explicit
      arguments.  A synchronous run of code takes no time.
    - Mutable objects become explicit state passing. *)

From Stdlib Require Import List ZArith QArith Bool Ascii String Lia Arith.
From Stdlib Require Import DecimalString.
From Stdlib Require Import Sorted.
Import ListNotations.

Set Implicit Arguments.
Set Warnings "-register-all,-automation".

Local Open Scope string_scope.
Local Open Scope Z_scope.

(* ===================================================================== *)
(** * JavaScript values and strings *)
(* ===================================================================== *)

Module JS.

(** Values that [JSON.parse] and [response.json()] produce, plus
    [undefined] for absent properties. *)
Inductive jsval : Type :=
| JUndefined
| JNull
| JBool (b : bool)
| JNum (q : Q)
| JStr (s : string)
| JArr (items : list jsval)
| JObj (fields : list (string * jsval)).

(** ToBoolean. *)
Definition truthy (v : jsval) : bool :=
  match v with
  | JUndefined | JNull => false
  | JBool b => b
  | JNum q => negb (Qeq_bool q 0)
  | JStr s => negb (s =? "")%string
  | JArr _ | JObj _ => true
  end.

(** The [===] operator between two values of which at least one was
    freshly produced by a JSON parser or by a literal: primitives compare
    by value, and an object or array is a reference no other value is
    identical to. *)
Definition strict_eq (a b : jsval) : bool :=
  match a, b with
  | JUndefined, JUndefined => true
  | JNull, JNull => true
  | JBool x, JBool y => Bool.eqb x y
  | JNum x, JNum y => Qeq_bool x y
  | JStr x, JStr y => (x =? y)%string
  | _, _ => false
  end.

(** ECMAScript WhiteSpace and LineTerminator code units below U+0100:
    TAB, LF, VT, FF, CR, SPACE, NO-BREAK SPACE. *)
Definition isWhiteSpace (c : ascii) : bool :=
  let n := nat_of_ascii c in
  ((n =? 9) || (n =? 10) || (n =? 11) || (n =? 12) || (n =? 13)
   || (n =? 32) || (n =? 160))%nat.

Fixpoint trimStart (s : string) : string :=
  match s with
  | EmptyString => EmptyString
  | String c r => if isWhiteSpace c then trimStart r else s
  end.

Fixpoint trimEnd (s : string) : string :=
  match s with
  | EmptyString => EmptyString
  | String c r =>
      match trimEnd r with
      | EmptyString => if isWhiteSpace c then EmptyString else String c EmptyString
      | r' => String c r'
      end
  end.

(** [String.prototype.trim]. *)
Definition trim (s : string) : string := trimEnd (trimStart s).

(** Lower-case mapping of one code unit below U+0100: A-Z, and the
    Latin-1 capitals U+00C0..U+00DE except the multiplication sign. *)
Definition lowerChar (c : ascii) : ascii :=
  let n := nat_of_ascii c in
  if ((65 <=? n) && (n <=? 90)
      || (192 <=? n) && (n <=? 222) && negb (n =? 215))%nat
  then ascii_of_nat (n + 32)
  else c.

(** [String.prototype.toLowerCase]. *)
Fixpoint toLowerCase (s : string) : string :=
  match s with
  | EmptyString => EmptyString
  | String c r => String (lowerChar c) (toLowerCase r)
  end.

(** Decimal rendering of an integer inside a template literal. *)
Definition numberToString (z : Z) : string :=
  NilZero.string_of_int (Z.to_int z).

Definition hexDigit (n : nat) : ascii :=
  if (n <? 10)%nat then ascii_of_nat (48 + n) else ascii_of_nat (55 + n).

(** "%XY" for one byte. *)
Definition percentByte (n : nat) : string :=
  String "%" (String (hexDigit (n / 16)) (String (hexDigit (n mod 16)) EmptyString)).

(** Characters [encodeURIComponent] leaves alone: letters, digits and
    [- _ . ! ~ * ' ( )]. *)
Definition isUriUnreserved (c : ascii) : bool :=
  let n := nat_of_ascii c in
  ((65 <=? n) && (n <=? 90) || (97 <=? n) && (n <=? 122)
   || (48 <=? n) && (n <=? 57)
   || (n =? 45) || (n =? 95) || (n =? 46) || (n =? 33) || (n =? 126)
   || (n =? 42) || (n =? 39) || (n =? 40) || (n =? 41))%nat.

(** [encodeURIComponent]: the UTF-8 bytes of every other character,
    percent-escaped (one byte below U+0080, two bytes up to U+00FF). *)
Fixpoint encodeURIComponent (s : string) : string :=
  match s with
  | EmptyString => EmptyString
  | String c r =>
      let n := nat_of_ascii c in
      (if isUriUnreserved c then String c EmptyString
       else if (n <? 128)%nat then percentByte n
       else percentByte (192 + n / 64) ++ percentByte (128 + n mod 64))
      ++ encodeURIComponent r
  end.

End JS.

Import JS.

(** Property access on values, for the property names this program reads
    ([data], [mal_id], [title], [images], ...), none of which a prototype
    defines: an object has the property or it has not, and every other
    value that is not [undefined] or [null] has not. *)
Module JSObject.

Fixpoint lookup (name : string) (fields : list (string * jsval)) : jsval :=
  match fields with
  | [] => JUndefined
  | (k, v) :: rest => if (k =? name)%string then v else lookup name rest
  end.

Definition nullish (v : jsval) : bool :=
  match v with
  | JUndefined | JNull => true
  | _ => false
  end.

(** [v.name]; [None] is the TypeError for reading a property of
    [undefined] or [null]. *)
Definition member (name : string) (v : jsval) : option jsval :=
  match v with
  | JUndefined | JNull => None
  | JObj fields => Some (lookup name fields)
  | _ => Some JUndefined
  end.

(** [v?.name]. *)
Definition optional (name : string) (v : jsval) : jsval :=
  match member name v with
  | Some x => x
  | None => JUndefined
  end.

(** [a || b]. *)
Definition orElse (a b : jsval) : jsval := if truthy a then a else b.

End JSObject.


(* ===================================================================== *)
(** * Records kept in the browser's local storage *)
(* ===================================================================== *)

(** The fields of a catalog record that [addFavorite] reads.  The values
    pass through unchanged. *)
Module Anime.
Record t := {
  mal_id : jsval;
  title : jsval;
  title_english : jsval;
  images : jsval;
  score : jsval;
  year : jsval;
  type : jsval;
  status : jsval;
  episodes : jsval;
  synopsis : jsval;
  genres : jsval
}.
End Anime.

Module Favorite.
Record t := {
  mal_id : jsval;
  title : jsval;
  title_english : jsval;
  images : jsval;
  score : jsval;
  year : jsval;
  type : jsval;
  status : jsval;
  episodes : jsval;
  synopsis : jsval;
  genres : jsval;
  added_date : string
}.
End Favorite.

Module SearchEntry.
Record t := {
  term : string;
  originalTerm : string;
  timestamp : string
}.
End SearchEntry.

(* ===================================================================== *)
(** * Storage: the wrapper over localStorage *)
(* ===================================================================== *)

Module Storage.

(** [this.keys], for the two collections the operations below use. *)
Inductive key : Type := FAVORITES | SEARCH_HISTORY.

(** What [JSON.parse] yields for the item stored under a key. *)
Definition stored (k : key) : Type :=
  match k with
  | FAVORITES => list Favorite.t
  | SEARCH_HISTORY => list SearchEntry.t
  end.

(** [localStorage].  An item is [None] when the key is absent (or when
    what it holds is falsy, which [get(key) || []] treats alike). *)
Record LocalStorage := {
  favoritesItem : option (list Favorite.t);
  searchHistoryItem : option (list SearchEntry.t)
}.

(** [get(key)]: the parsed item, or [null]. *)
Definition get (k : key) (ls : LocalStorage) : option (stored k) :=
  match k with
  | FAVORITES => favoritesItem ls
  | SEARCH_HISTORY => searchHistoryItem ls
  end.

Definition setItem (k : key) : stored k -> LocalStorage -> LocalStorage :=
  match k with
  | FAVORITES => fun v ls =>
      {| favoritesItem := Some v; searchHistoryItem := searchHistoryItem ls |}
  | SEARCH_HISTORY => fun v ls =>
      {| favoritesItem := favoritesItem ls; searchHistoryItem := Some v |}
  end.

(** [set(key, value)]: [true] and the item written, or, when
    [localStorage.setItem] throws (quota exceeded: [setItem_ok = false]),
    [false] and nothing written. *)
Definition set (k : key) (value : stored k) (setItem_ok : bool)
    (ls : LocalStorage) : bool * LocalStorage :=
  if setItem_ok then (true, setItem k value ls) else (false, ls).

(** [getFavorites()]: [this.get(this.keys.FAVORITES) || []]. *)
Definition getFavorites (ls : LocalStorage) : list Favorite.t :=
  match get FAVORITES ls with
  | Some favorites => favorites
  | None => []
  end.

(** The object literal [favoriteData]; [now] is
    [new Date().toISOString()]. *)
Definition favoriteData (anime : Anime.t) (now : string) : Favorite.t :=
  {| Favorite.mal_id := Anime.mal_id anime;
     Favorite.title := Anime.title anime;
     Favorite.title_english := Anime.title_english anime;
     Favorite.images := Anime.images anime;
     Favorite.score := Anime.score anime;
     Favorite.year := Anime.year anime;
     Favorite.type := Anime.type anime;
     Favorite.status := Anime.status anime;
     Favorite.episodes := Anime.episodes anime;
     Favorite.synopsis := Anime.synopsis anime;
     Favorite.genres := Anime.genres anime;
     Favorite.added_date := now |}.

(** [addFavorite(anime)]. *)
Definition addFavorite (anime : Anime.t) (now : string) (setItem_ok : bool)
    (ls : LocalStorage) : bool * LocalStorage :=
  let favorites := getFavorites ls in
  match find (fun fav => strict_eq (Favorite.mal_id fav) (Anime.mal_id anime))
             favorites with
  | Some _ => (false, ls)
  | None =>
      let favorites := favoriteData anime now :: favorites in
      let favorites :=
        if (100 <? List.length favorites)%nat then removelast favorites
        else favorites in
      set FAVORITES favorites setItem_ok ls
  end.

(** [removeFavorite(animeId)]. *)
Definition removeFavorite (animeId : jsval) (setItem_ok : bool)
    (ls : LocalStorage) : bool * LocalStorage :=
  let favorites := getFavorites ls in
  let filtered :=
    filter (fun fav => negb (strict_eq (Favorite.mal_id fav) animeId))
           favorites in
  set FAVORITES filtered setItem_ok ls.

(** [getSearchHistory()]. *)
Definition getSearchHistory (ls : LocalStorage) : list SearchEntry.t :=
  match get SEARCH_HISTORY ls with
  | Some history => history
  | None => []
  end.

(** [addSearchTerm(term)].  The result is [None] where the source returns
    without a value. *)
Definition addSearchTerm (term : string) (now : string) (setItem_ok : bool)
    (ls : LocalStorage) : option bool * LocalStorage :=
  if (term =? "")%string || (String.length (trim term) <? 2)%nat
  then (None, ls)
  else
    let history := getSearchHistory ls in
    let cleanTerm := toLowerCase (trim term) in
    let filtered :=
      filter (fun item => negb (SearchEntry.term item =? cleanTerm)%string)
             history in
    let filtered :=
      {| SearchEntry.term := cleanTerm;
         SearchEntry.originalTerm := trim term;
         SearchEntry.timestamp := now |} :: filtered in
    let limited := firstn 20 filtered in
    let (ok, ls') := set SEARCH_HISTORY limited setItem_ok ls in
    (Some ok, ls').


(** [isFavorite(animeId)]. *)
Definition isFavorite (animeId : jsval) (ls : LocalStorage) : bool :=
  let favorites := getFavorites ls in
  existsb (fun fav => strict_eq (Favorite.mal_id fav) animeId) favorites.

(** [getFavoriteCount()]. *)
Definition getFavoriteCount (ls : LocalStorage) : nat :=
  List.length (getFavorites ls).

(** [clearSearchHistory()]. *)
Definition clearSearchHistory (setItem_ok : bool) (ls : LocalStorage)
    : bool * LocalStorage :=
  set SEARCH_HISTORY [] setItem_ok ls.

(** No two favorites have strictly equal identifiers. *)
Fixpoint distinctIds (favorites : list Favorite.t) : bool :=
  match favorites with
  | [] => true
  | fav :: rest =>
      negb (existsb (fun other =>
                       strict_eq (Favorite.mal_id other) (Favorite.mal_id fav))
                    rest)
      && distinctIds rest
  end.

End Storage.

(* ===================================================================== *)
(** * JikanAPI: the API client *)
(* ===================================================================== *)

Module CacheEntry.
Record t := { data : jsval; timestamp : Z }.
End CacheEntry.

(** What [request] and its callers return: an object with [success] and,
    depending on the path, [data], [error] and [endpoint]. *)
Module Result.
Record t := {
  success : bool;
  data : option jsval;
  error : option string;
  endpoint : option string
}.
End Result.

Module JikanAPI.

(** The constants the constructor sets and nothing changes. *)
Definition baseURL : string := "https://api.jikan.moe/v4".
Definition rateLimitDelay : Z := 1000.
Definition cacheTimeout : Z := 300000.

(** [this.cache]: a JavaScript [Map], kept in insertion order. *)
Definition Cache : Type := list (string * CacheEntry.t).

(** [Map.prototype.get]. *)
Fixpoint map_get (key : string) (m : Cache) : option CacheEntry.t :=
  match m with
  | [] => None
  | (k, v) :: rest => if (k =? key)%string then Some v else map_get key rest
  end.

(** [Map.prototype.set]: a key already present keeps its place and takes
    the new value; a new key goes last. *)
Fixpoint map_set (key : string) (value : CacheEntry.t) (m : Cache) : Cache :=
  match m with
  | [] => [(key, value)]
  | (k, v) :: rest =>
      if (k =? key)%string then (k, value) :: rest
      else (k, v) :: map_set key value rest
  end.

(** [Map.prototype.delete]. *)
Definition map_delete (key : string) (m : Cache) : Cache :=
  filter (fun kv => negb (fst kv =? key)%string) m.

(** [this.cache.keys().next().value]. *)
Definition firstKey (m : Cache) : option string :=
  match m with
  | [] => None
  | (k, _) :: _ => Some k
  end.

(** [Array.from(map.keys())]. *)
Definition keys (m : Cache) : list string := map fst m.

(** The mutable fields of the client. *)
Record t := { lastRequestTime : Z; cache : Cache }.

(** What holds of the cache of every client: it is a [Map], so its keys
    are unique, and it has at most 100 entries. *)
Definition cache_ok (a : t) : Prop :=
  NoDup (keys (cache a)) /\ (List.length (cache a) <= 100)%nat.

Definition constructor : t := {| lastRequestTime := 0; cache := [] |}.

(** The client together with the record of [fetch(url)] calls made so
    far, each with the time it was made. *)
Record World := { api : t; fetched : list (Z * string) }.

Definition with_api (a : t) (w : World) : World :=
  {| api := a; fetched := fetched w |}.

(** [getCachedData(key)]; [now] is [Date.now()].  The value returned is
    [cached.data] or [null]. *)
Definition getCachedData (key : string) (now : Z) (a : t) : jsval * t :=
  let evict :=
    (JNull, {| lastRequestTime := lastRequestTime a;
               cache := map_delete key (cache a) |}) in
  match map_get key (cache a) with
  | Some cached =>
      if now - CacheEntry.timestamp cached <? cacheTimeout
      then (CacheEntry.data cached, a)
      else evict
  | None => evict
  end.

(** [setCachedData(key, data)]; [now] is [Date.now()]. *)
Definition setCachedData (key : string) (data : jsval) (now : Z) (a : t) : t :=
  let cache1 :=
    map_set key {| CacheEntry.data := data; CacheEntry.timestamp := now |}
            (cache a) in
  let cache2 :=
    if (100 <? List.length cache1)%nat then
      match firstKey cache1 with
      | Some k => map_delete k cache1
      | None => cache1
      end
    else cache1 in
  {| lastRequestTime := lastRequestTime a; cache := cache2 |}.

(** [clearCache()]. *)
Definition clearCache (a : t) : t :=
  {| lastRequestTime := lastRequestTime a; cache := [] |}.

(** ** The throttle *)

(** First half of [rateLimitedRequest(url)], up to the [await]: [Some ms]
    when the call suspends on [setTimeout(resolve, ms)], [None] when it
    goes straight on. *)
Definition throttle (now : Z) (a : t) : option Z :=
  let timeSinceLastRequest := now - lastRequestTime a in
  if timeSinceLastRequest <? rateLimitDelay
  then Some (rateLimitDelay - timeSinceLastRequest)
  else None.

(** Second half: [this.lastRequestTime = Date.now(); return fetch(url)]. *)
Definition dispatch (now : Z) (url : string) (w : World) : World :=
  {| api := {| lastRequestTime := now; cache := cache (api w) |};
     fetched := fetched w ++ [(now, url)] |}.

(** What [setTimeout] makes of its second argument.  The browser takes
    the delay as a 32-bit signed integer: the number wraps modulo 2^32,
    and a negative delay counts as 0. *)
Definition toInt32 (n : Z) : Z :=
  (n + 2147483648) mod 4294967296 - 2147483648.

Definition timeoutDelay (ms : Z) : Z := Z.max 0 (toInt32 ms).

(** When a call made at [now] gets past the [await]: a timer set with
    [setTimeout(resolve, ms)] resumes the call [timeoutDelay ms + jitter]
    milliseconds later. *)
Definition resumedAt (now : Z) (jitter : N) (a : t) : Z :=
  match throttle now a with
  | Some ms => now + timeoutDelay ms + Z.of_N jitter
  | None => now
  end.

(** [rateLimitedRequest(url)] run with no other call in between.
    Returns the time of the [fetch]. *)
Definition rateLimitedRequest (url : string) (now : Z) (jitter : N)
    (w : World) : Z * World :=
  let resumed := resumedAt now jitter (api w) in
  (resumed, dispatch resumed url w).

(** ** The event loop around the throttle

    Calls that overlap: each call runs its first half when it is made and
    its second half when its timer fires. *)

Record Loop := {
  world : World;
  clock : Z;                      (* the latest [Date.now()] reading *)
  timers : list (Z * string)      (* suspended calls: due time, url *)
}.

Inductive Event : Type :=
| Invoke (t : Z) (url : string)   (* [rateLimitedRequest(url)] called at [t] *)
| Fire (t : Z) (i : nat).         (* the [i]-th suspended call resumes at [t] *)

Fixpoint remove_nth {A : Type} (i : nat) (l : list A) : list A :=
  match i, l with
  | _, [] => []
  | O, _ :: rest => rest
  | S j, x :: rest => x :: remove_nth j rest
  end.

(** One event; [None] for an event that cannot happen (time running
    backwards, no such timer, a timer firing early). *)
Definition step (l : Loop) (e : Event) : option Loop :=
  match e with
  | Invoke t url =>
      if t <? clock l then None
      else
        match throttle t (api (world l)) with
        | Some ms =>
            Some {| world := world l; clock := t;
                    timers := timers l ++ [(t + timeoutDelay ms, url)] |}
        | None =>
            Some {| world := dispatch t url (world l); clock := t;
                    timers := timers l |}
        end
  | Fire t i =>
      if t <? clock l then None
      else
        match nth_error (timers l) i with
        | Some (due, url) =>
            if t <? due then None
            else
              Some {| world := dispatch t url (world l); clock := t;
                      timers := remove_nth i (timers l) |}
        | None => None
        end
  end.

Fixpoint run (l : Loop) (events : list Event) : option Loop :=
  match events with
  | [] => Some l
  | e :: rest =>
      match step l e with
      | Some l' => run l' rest
      | None => None
      end
  end.

(** A freshly constructed client, no call made yet; the clock reads [t0]. *)
Definition boot (t0 : Z) : Loop :=
  {| world := {| api := constructor; fetched := [] |};
     clock := t0; timers := [] |}.

(** The calls do not overlap: a call is made only while no other call
    is suspended. *)
Fixpoint sequential (l : Loop) (events : list Event) : bool :=
  match events with
  | [] => true
  | e :: rest =>
      match e, timers l with
      | Invoke _ _, _ :: _ => false
      | _, _ =>
          match step l e with
          | Some l' => sequential l' rest
          | None => true
          end
      end
  end.

(** Every two consecutive fetches are at least [rateLimitDelay] apart. *)
Fixpoint spaced (log : list (Z * string)) : bool :=
  match log with
  | [] => true
  | (t1, _) :: rest =>
      match rest with
      | [] => true
      | (t2, _) :: _ => (rateLimitDelay <=? t2 - t1) && spaced rest
      end
  end.

(** What holds while calls do not overlap: the fetches so far are spaced,
    none is later than [lastRequestTime], and there is at most one
    suspended call; once a fetch has been made, [lastRequestTime] is a
    reading of the clock, and the suspended call is due a full interval
    after it. *)
Definition throttled (l : Loop) : Prop :=
  spaced (fetched (world l)) = true /\
  (forall e, In e (fetched (world l)) ->
             fst e <= lastRequestTime (api (world l))) /\
  (List.length (timers l) <= 1)%nat /\
  (fetched (world l) <> [] ->
   lastRequestTime (api (world l)) <= clock l /\
   forall due url, In (due, url) (timers l) ->
                   lastRequestTime (api (world l)) + rateLimitDelay <= due).

(** ** request *)

(** How a [fetch] ends. *)
Inductive Body : Type :=
| BadJson (message : string)      (* [response.json()] rejects *)
| Json (data : jsval).

Inductive FetchOutcome : Type :=
| NetworkError (message : string) (* [fetch] rejects *)
| Response (status : Z) (statusText : string) (body : Body).

(** [response.ok]. *)
Definition ok (status : Z) : bool := (200 <=? status) && (status <=? 299).

(** What the environment contributes to one call of [request]. *)
Record Env := {
  now : Z;                 (* time of the call *)
  jitter : N;              (* lateness of the throttle's timer *)
  latency : N;             (* from [fetch] to the parsed body *)
  outcome : FetchOutcome
}.

(** When the parsed body of a fetch made by a call under [env] is
    there. *)
Definition completedAt (env : Env) (a : t) : Z :=
  resumedAt (now env) (jitter env) a + Z.of_N (latency env).

(** Completion of the [try] block. *)
Inductive Completion : Type :=
| Return (r : Result.t)
| Throw (message : string).     (* an [Error] with this [message] *)

Definition succeeded (data : jsval) : Result.t :=
  {| Result.success := true; Result.data := Some data;
     Result.error := None; Result.endpoint := None |}.

Definition failed (message : string) (endpoint : option string) : Result.t :=
  {| Result.success := false; Result.data := None;
     Result.error := Some message; Result.endpoint := endpoint |}.

(** The [try] block of [request]. *)
Definition request_try (endpoint : string) (useCache : bool) (env : Env)
    (w : World) : Completion * World :=
  let url := baseURL ++ endpoint in
  let cacheKey := endpoint in
  let network (w : World) : Completion * World :=
    let (sent, w) := rateLimitedRequest url (now env) (jitter env) w in
    match outcome env with
    | NetworkError message => (Throw message, w)
    | Response status statusText body =>
        if negb (ok status) then
          (Throw ("HTTP " ++ numberToString status ++ ": " ++ statusText), w)
        else
          match body with
          | BadJson message => (Throw message, w)
          | Json data =>
              let w :=
                if useCache && truthy data then
                  with_api (setCachedData cacheKey data
                              (sent + Z.of_N (latency env)) (api w)) w
                else w in
              (Return (succeeded data), w)
          end
    end in
  if useCache then
    let (cachedData, a) := getCachedData cacheKey (now env) (api w) in
    if truthy cachedData then (Return (succeeded cachedData), with_api a w)
    else network (with_api a w)
  else network w.

(** [request(endpoint, useCache)]. *)
Definition request (endpoint : string) (useCache : bool) (env : Env)
    (w : World) : Result.t * World :=
  match request_try endpoint useCache env w with
  | (Return r, w') => (r, w')
  | (Throw message, w') => (failed message (Some endpoint), w')
  end.

(** What the [try]/[catch] of [request] makes of the way a fetch for
    [endpoint] ended. *)
Definition networkResult (endpoint : string) (o : FetchOutcome) : Result.t :=
  match o with
  | NetworkError message => failed message (Some endpoint)
  | Response status statusText body =>
      if ok status then
        match body with
        | Json data => succeeded data
        | BadJson message => failed message (Some endpoint)
        end
      else
        failed ("HTTP " ++ numberToString status ++ ": " ++ statusText)
               (Some endpoint)
  end.

(** [searchAnime(query, page, limit)]. *)
Definition searchAnime (query : string) (page limit : Z) (env : Env)
    (w : World) : Result.t * World :=
  if (query =? "")%string || (String.length (trim query) =? 0)%nat then
    (failed "Search query is required" None, w)
  else
    let endpoint :=
      "/anime?q=" ++ encodeURIComponent (trim query)
      ++ "&page=" ++ numberToString page
      ++ "&limit=" ++ numberToString limit
      ++ "&order_by=score&sort=desc" in
    request endpoint false env w.

(** [getRandomAnime()]. *)
Definition getRandomAnime (env : Env) (w : World) : Result.t * World :=
  let endpoint := "/random/anime" in
  request endpoint false env w.

(** [getGenres()], one of the cached operations. *)
Definition getGenres (env : Env) (w : World) : Result.t * World :=
  let endpoint := "/genres/anime" in
  request endpoint true env w.


(** ** The endpoints that take an identifier *)

(** An [id] argument as the callers pass it: a number (an identifier from
    a payload), a string (the [id] parameter of the page's URL), or
    nothing ([undefined] or [null]). *)
Inductive Id : Type :=
| IdNumber (n : Z)
| IdString (s : string)
| IdMissing.

(** ToBoolean of an [id]. *)
Definition idTruthy (id : Id) : bool :=
  match id with
  | IdNumber n => negb (n =? 0)
  | IdString s => negb (s =? "")%string
  | IdMissing => false
  end.

(** An [id] inside a template literal. *)
Definition idToString (id : Id) : string :=
  match id with
  | IdNumber n => numberToString n
  | IdString s => s
  | IdMissing => "undefined"
  end.

(** [getAnimeById(id)]. *)
Definition getAnimeById (id : Id) (env : Env) (w : World) : Result.t * World :=
  if negb (idTruthy id) then (failed "Anime ID is required" None, w)
  else
    let endpoint := "/anime/" ++ idToString id in
    request endpoint true env w.

(** [getAnimeFullById(id)]. *)
Definition getAnimeFullById (id : Id) (env : Env) (w : World)
    : Result.t * World :=
  if negb (idTruthy id) then (failed "Anime ID is required" None, w)
  else
    let endpoint := "/anime/" ++ idToString id ++ "/full" in
    request endpoint true env w.

(** [getAnimeCharacters(id)]. *)
Definition getAnimeCharacters (id : Id) (env : Env) (w : World)
    : Result.t * World :=
  if negb (idTruthy id) then (failed "Anime ID is required" None, w)
  else
    let endpoint := "/anime/" ++ idToString id ++ "/characters" in
    request endpoint true env w.

(** [getAnimeRecommendations(id)]. *)
Definition getAnimeRecommendations (id : Id) (env : Env) (w : World)
    : Result.t * World :=
  if negb (idTruthy id) then (failed "Anime ID is required" None, w)
  else
    let endpoint := "/anime/" ++ idToString id ++ "/recommendations" in
    request endpoint true env w.

(** [getAnimeRelations(id)]. *)
Definition getAnimeRelations (id : Id) (env : Env) (w : World)
    : Result.t * World :=
  if negb (idTruthy id) then (failed "Anime ID is required" None, w)
  else
    let endpoint := "/anime/" ++ idToString id ++ "/relations" in
    request endpoint true env w.

(** [getAnimeStats(id)]. *)
Definition getAnimeStats (id : Id) (env : Env) (w : World)
    : Result.t * World :=
  if negb (idTruthy id) then (failed "Anime ID is required" None, w)
  else
    let endpoint := "/anime/" ++ idToString id ++ "/statistics" in
    request endpoint true env w.

(** [getAnimeEpisodes(id, page)]. *)
Definition getAnimeEpisodes (id : Id) (page : Z) (env : Env) (w : World)
    : Result.t * World :=
  if negb (idTruthy id) then (failed "Anime ID is required" None, w)
  else
    let endpoint :=
      "/anime/" ++ idToString id ++ "/episodes?page=" ++ numberToString page in
    request endpoint true env w.

(** ** The endpoints that take a page *)

(** [getTrendingAnime(page, limit)]. *)
Definition getTrendingAnime (page limit : Z) (env : Env) (w : World)
    : Result.t * World :=
  let endpoint :=
    "/top/anime?filter=airing&page=" ++ numberToString page
    ++ "&limit=" ++ numberToString limit in
  request endpoint true env w.

(** [getPopularAnime(page, limit)]. *)
Definition getPopularAnime (page limit : Z) (env : Env) (w : World)
    : Result.t * World :=
  let endpoint :=
    "/top/anime?filter=bypopularity&page=" ++ numberToString page
    ++ "&limit=" ++ numberToString limit in
  request endpoint true env w.

(** [getCurrentSeasonAnime(page, limit)]. *)
Definition getCurrentSeasonAnime (page limit : Z) (env : Env) (w : World)
    : Result.t * World :=
  let endpoint :=
    "/seasons/now?page=" ++ numberToString page
    ++ "&limit=" ++ numberToString limit in
  request endpoint true env w.

(** [getAnimeByGenre(genreId, page, limit)], for a numeric [genreId]. *)
Definition getAnimeByGenre (genreId page limit : Z) (env : Env) (w : World)
    : Result.t * World :=
  let endpoint :=
    "/anime?genres=" ++ numberToString genreId
    ++ "&page=" ++ numberToString page
    ++ "&limit=" ++ numberToString limit
    ++ "&order_by=score&sort=desc" in
  request endpoint true env w.

(** [getCacheStats()]. *)
Definition getCacheStats (a : t) : nat * list string :=
  (List.length (cache a), keys (cache a)).

(** ** getSearchSuggestions *)

(** How a promise settles. *)
Inductive Settled (A : Type) : Type :=
| Resolved (value : A)
| Rejected.                   (* with a TypeError *)
Arguments Rejected {A}.

(** The object the [map] callback builds from one element; [None] when the
    element is [null], whose properties cannot be read. *)
Definition suggestion (anime : jsval) : option jsval :=
  if JSObject.nullish anime then None
  else
    let jpg := JSObject.optional "jpg" (JSObject.optional "images" anime) in
    Some (JObj
      [ ("mal_id", JSObject.optional "mal_id" anime);
        ("title", JSObject.optional "title" anime);
        ("title_english", JSObject.optional "title_english" anime);
        ("image",
         JSObject.orElse (JSObject.optional "small_image_url" jpg)
                         (JSObject.optional "image_url" jpg));
        ("type", JSObject.optional "type" anime);
        ("score", JSObject.optional "score" anime);
        ("year",
         JSObject.optional "year"
           (JSObject.optional "from"
              (JSObject.optional "prop" (JSObject.optional "aired" anime)))) ]).

(** [items.map(anime => ({...}))]; [None] when the callback throws. *)
Fixpoint suggestions (items : list jsval) : option (list jsval) :=
  match items with
  | [] => Some []
  | anime :: rest =>
      match suggestion anime, suggestions rest with
      | Some s, Some more => Some (s :: more)
      | _, _ => None
      end
  end.

(** [getSearchSuggestions(query, limit)]. *)
Definition getSearchSuggestions (query : string) (limit : Z) (env : Env)
    (w : World) : Settled Result.t * World :=
  if (query =? "")%string || (String.length (trim query) <? 2)%nat then
    (Resolved (succeeded (JObj [("data", JArr [])])), w)
  else
    let endpoint :=
      "/anime?q=" ++ encodeURIComponent (trim query)
      ++ "&limit=" ++ numberToString limit
      ++ "&order_by=popularity&sort=asc" in
    let (result, w) := request endpoint false env w in
    if Result.success result then
      match Result.data result with
      | Some data =>
          match JSObject.member "data" data with
          | Some (JArr items) =>
              match suggestions items with
              | Some found =>
                  (Resolved (succeeded (JObj [("data", JArr found)])), w)
              | None => (Rejected, w)
              end
          | _ => (Rejected, w)  (* [map] of a value that is not an array *)
          end
      | None => (Rejected, w)
      end
    else (Resolved result, w).

(** ** Using the client *)

(** One use of the client by a caller that waits for it to finish. *)
Inductive Use : Type :=
| Requested (endpoint : string) (useCache : bool) (env : Env)
| Cleared.                    (* [clearCache()] *)

Definition use (u : Use) (w : World) : World :=
  match u with
  | Requested endpoint useCache env => snd (request endpoint useCache env w)
  | Cleared => with_api (clearCache (api w)) w
  end.

(** Uses one after another, each started when the one before is done. *)
Fixpoint uses (us : list Use) (w : World) : World :=
  match us with
  | [] => w
  | u :: rest => uses rest (use u w)
  end.

(** A page that has just constructed its client. *)
Definition fresh : World := {| api := constructor; fetched := [] |}.

(** The delay a call made at [now] asks of [setTimeout] fits 32 bits: the
    clock it reads is less than 2^31 - 1000 ms (some 24.8 days) behind
    [lastRequestTime]. *)
Definition timely (now : Z) (a : t) : bool :=
  match throttle now a with
  | Some ms => ms <=? 2147483647
  | None => true
  end.

(** Every request of the uses is [timely] when it is made. *)
Fixpoint steady (us : list Use) (w : World) : bool :=
  match us with
  | [] => true
  | u :: rest =>
      match u with
      | Requested _ _ env => timely (now env) (api w)
      | Cleared => true
      end
      && steady rest (use u w)
  end.

(** The fetches so far are spaced and none is later than
    [lastRequestTime]. *)
Definition paced (w : World) : Prop :=
  spaced (fetched w) = true /\
  (forall e, In e (fetched w) -> fst e <= lastRequestTime (api w)).


(** The payload lets [getSearchSuggestions] build its list: [data.data] is
    an array and none of its elements is [null]. *)
Definition listable (data : jsval) : bool :=
  match JSObject.member "data" data with
  | Some (JArr items) =>
      forallb (fun anime => negb (JSObject.nullish anime)) items
  | _ => false
  end.

End JikanAPI.

(* ===================================================================== *)
(** * AnimeDetailPage: the recommendations section *)
(* ===================================================================== *)

Module Genre.
Record t := { mal_id : jsval; name : string }.
End Genre.

(** An element of the recommendations payload; [entry] is [None] when
    [rec.entry] is falsy. *)
Module Recommendation.
Record t := { entry : option Anime.t }.
End Recommendation.

Module AnimeDetailPage.

(** What a call of the API client resolved to, as the page reads it:
    [result.success], [result.data.data] and its [length]. *)
Inductive ApiResult (A : Type) : Type :=
| Failed                     (* [success] is false *)
| NullData                   (* success, [result.data] is null: reading
                                [result.data.data] throws a TypeError *)
| NoList                     (* success, [result.data.data] is falsy *)
| Listed (items : list A).   (* success, [result.data.data] is an array *)
Arguments Failed {A}.
Arguments NullData {A}.
Arguments NoList {A}.

(** [this.animeData], as far as the fallback reads it; [genres] is [None]
    when [animeData.genres] is falsy. *)
Record AnimeData := { genres : option (list Genre.t) }.

(** The fields of the page object; [animeData] is [None] while it is
    [null]. *)
Record Page := { animeId : jsval; animeData : option AnimeData }.

(** The children a container element can get. *)
Inductive Node : Type :=
| Col (card : Anime.t)          (* a column holding [createAnimeCard(card)] *)
| GenreMessage (name : string)  (* "Similar <name> anime" *)
| FallbackMessage               (* "Showing popular anime (...)" *)
| Markup (html : string).       (* whatever the page's HTML put there *)

Inductive ApiCall : Type :=
| GetAnimeRecommendations (id : jsval)
| GetAnimeByGenre (genreId : jsval) (page limit : Z).

(** The container's children and the API calls made so far. *)
Record View := { children : list Node; requests : list ApiCall }.

(** What the API client answers during one page load. *)
Record Env := {
  recommendations : ApiResult Recommendation.t;
  byGenre : ApiResult Anime.t
}.

Definition called (c : ApiCall) (v : View) : View :=
  {| children := children v; requests := requests v ++ [c] |}.

Definition render (nodes : list Node) (v : View) : View :=
  {| children := nodes; requests := requests v |}.

(** One element of the literal [fallbackAnime], turned into the
    [animeData] object the loop builds from it. *)
Definition fallbackEntry (mal_id : Z) (title image_url : string) (score : Q)
    : Anime.t :=
  {| Anime.mal_id := JNum (inject_Z mal_id);
     Anime.title := JStr title;
     Anime.title_english := JUndefined;
     Anime.images := JObj [("jpg", JObj [("image_url", JStr image_url)])];
     Anime.score := JNum score;
     Anime.year := JNull;
     Anime.type := JStr "TV";
     Anime.status := JUndefined;
     Anime.episodes := JUndefined;
     Anime.synopsis := JUndefined;
     Anime.genres := JUndefined |}.

Definition fallbackAnime : list Anime.t :=
  [ fallbackEntry 16498 "Attack on Titan"
      "https://cdn.myanimelist.net/images/anime/10/47347.jpg" (90 # 10);
    fallbackEntry 11757 "Sword Art Online"
      "https://cdn.myanimelist.net/images/anime/11/39717.jpg" (72 # 10);
    fallbackEntry 20 "Naruto"
      "https://cdn.myanimelist.net/images/anime/13/17405.jpg" (83 # 10);
    fallbackEntry 1535 "Death Note"
      "https://cdn.myanimelist.net/images/anime/9/9453.jpg" (90 # 10);
    fallbackEntry 5114 "Fullmetal Alchemist: Brotherhood"
      "https://cdn.myanimelist.net/images/anime/1223/96541.jpg" (91 # 10);
    fallbackEntry 31964 "Boku no Hero Academia"
      "https://cdn.myanimelist.net/images/anime/10/78745.jpg" (79 # 10) ].

(** [showFallbackRecommendations(container)]. *)
Definition showFallbackRecommendations (v : View) : View :=
  let fragment := map Col (firstn 6 fallbackAnime) in
  render (fragment ++ [FallbackMessage]) v.

(** How the [try] block of a method ends. *)
Inductive Exit : Type := Finished | Threw.

(** The [try] block of [loadSimilarAnimeByGenre(container)]. *)
Definition loadSimilarAnimeByGenre_try (p : Page) (env : Env) (v : View)
    : Exit * View :=
  match animeData p with
  | None => (Threw, v)
  | Some data =>
      match genres data with
      | Some (genre :: _) =>
          let genreId := Genre.mal_id genre in
          let v := called (GetAnimeByGenre genreId 1 6) v in
          match byGenre env with
          | NullData => (Threw, v)
          | Listed (first :: more) =>
              let fragment :=
                map Col
                  (filter
                     (fun anime =>
                        negb (strict_eq (Anime.mal_id anime) (animeId p)))
                     (firstn 6 (first :: more))) in
              if (0 <? List.length fragment)%nat then
                (Finished, render (fragment ++ [GenreMessage (Genre.name genre)]) v)
              else (Finished, showFallbackRecommendations v)
          | _ => (Finished, showFallbackRecommendations v)
          end
      | _ => (Finished, showFallbackRecommendations v)
      end
  end.

(** [loadSimilarAnimeByGenre(container)]. *)
Definition loadSimilarAnimeByGenre (p : Page) (env : Env) (v : View) : View :=
  match loadSimilarAnimeByGenre_try p env v with
  | (Finished, v') => v'
  | (Threw, v') => showFallbackRecommendations v'
  end.

(** The columns [loadRecommendations] builds: one per recommendation
    that has an [entry]. *)
Fixpoint entryColumns (recs : list Recommendation.t) : list Node :=
  match recs with
  | [] => []
  | r :: rest =>
      match Recommendation.entry r with
      | Some anime => Col anime :: entryColumns rest
      | None => entryColumns rest
      end
  end.

(** [loadRecommendations()]; [found] tells whether the document has the
    element [recommendationsContainer]. *)
Definition loadRecommendations (p : Page) (env : Env) (found : bool)
    (v : View) : View :=
  if negb found then v
  else
    let v := called (GetAnimeRecommendations (animeId p)) v in
    match recommendations env with
    | Listed (first :: more) =>
        render (entryColumns (firstn 6 (first :: more))) v
    | NullData => (* caught *) loadSimilarAnimeByGenre p env v
    | _ => loadSimilarAnimeByGenre p env v
    end.

(** ** Vocabulary for the properties *)




(** The container after [showFallbackRecommendations]. *)
Definition staticFallback : list Node :=
  (map Col fallbackAnime ++ [FallbackMessage])%list.

End AnimeDetailPage.

(* ===================================================================== *)
(** * Storage: the view history *)
(* ===================================================================== *)

Module ViewEntry.
Record t := {
  mal_id : jsval;
  title : jsval;
  title_english : jsval;
  images : jsval;
  score : jsval;
  type : jsval;
  viewed_date : string
}.
End ViewEntry.

(** The methods of [Storage] that work on the item [VIEW_HISTORY].  They
    read and write that item only, so the state here is that item. *)
Module StorageViewHistory.

(** What [JSON.parse] yields for the item; [None] when the key is absent
    (or holds something falsy, which [get(key) || []] treats alike). *)
Definition Item : Type := option (list ViewEntry.t).

(** [set(this.keys.VIEW_HISTORY, value)]. *)
Definition set (value : list ViewEntry.t) (setItem_ok : bool) (item : Item)
    : bool * Item :=
  if setItem_ok then (true, Some value) else (false, item).

(** [getViewHistory()]. *)
Definition getViewHistory (item : Item) : list ViewEntry.t :=
  match item with
  | Some history => history
  | None => []
  end.

(** The object literal [viewData]; [now] is [new Date().toISOString()]. *)
Definition viewData (anime : Anime.t) (now : string) : ViewEntry.t :=
  {| ViewEntry.mal_id := Anime.mal_id anime;
     ViewEntry.title := Anime.title anime;
     ViewEntry.title_english := Anime.title_english anime;
     ViewEntry.images := Anime.images anime;
     ViewEntry.score := Anime.score anime;
     ViewEntry.type := Anime.type anime;
     ViewEntry.viewed_date := now |}.

(** [addToViewHistory(anime)]. *)
Definition addToViewHistory (anime : Anime.t) (now : string)
    (setItem_ok : bool) (item : Item) : bool * Item :=
  let history := getViewHistory item in
  let filtered :=
    filter (fun entry =>
              negb (strict_eq (ViewEntry.mal_id entry) (Anime.mal_id anime)))
           history in
  let filtered := viewData anime now :: filtered in
  let limited := firstn 50 filtered in
  set limited setItem_ok item.

(** [clearViewHistory()]. *)
Definition clearViewHistory (setItem_ok : bool) (item : Item) : bool * Item :=
  set [] setItem_ok item.

End StorageViewHistory.

(* ===================================================================== *)
(** * UIComponents: loading overlay, favorite toggle, search box, cards *)
(* ===================================================================== *)

Module UIComponents.

(** ** showLoading / hideLoading *)

(** [overlay.style.display]: what the style sheet gives until a script
    sets it, then ['flex'] or ['none']. *)
Inductive Display : Type := FromStyleSheet | Flex | DisplayNone.

(** [this.loadingStates], a [Set] in insertion order, and the element
    [loadingOverlay] ([None] when the document has none). *)
Record Loading := {
  loadingStates : list string;
  overlay : option Display
}.

(** [Set.prototype.add]. *)
Fixpoint set_add (x : string) (s : list string) : list string :=
  match s with
  | [] => [x]
  | y :: rest => if (y =? x)%string then s else y :: set_add x rest
  end.

(** [Set.prototype.delete]. *)
Definition set_delete (x : string) (s : list string) : list string :=
  filter (fun y => negb (y =? x)%string) s.

Definition setDisplay (d : Display) (o : option Display) : option Display :=
  match o with
  | Some _ => Some d
  | None => None
  end.

(** [showLoading(containerId)]. *)
Definition showLoading (containerId : string) (l : Loading) : Loading :=
  {| loadingStates := set_add containerId (loadingStates l);
     overlay := setDisplay Flex (overlay l) |}.

(** [hideLoading(containerId = null)]; [None] is a call without argument
    (or with [null]). *)
Definition hideLoading (containerId : option string) (l : Loading) : Loading :=
  let states :=
    match containerId with
    | Some id =>
        if negb (id =? "")%string then set_delete id (loadingStates l)
        else []
    | None => []
    end in
  {| loadingStates := states;
     overlay :=
       if (List.length states =? 0)%nat then setDisplay DisplayNone (overlay l)
       else overlay l |}.

(** The component right after its constructor. *)
Definition constructed (overlay : option Display) : Loading :=
  {| loadingStates := []; overlay := overlay |}.

Inductive LoadingCall : Type :=
| ShowLoading (containerId : string)
| HideLoading (containerId : option string).

Definition loadingCall (c : LoadingCall) (l : Loading) : Loading :=
  match c with
  | ShowLoading id => showLoading id l
  | HideLoading id => hideLoading id l
  end.

Fixpoint loadingCalls (cs : list LoadingCall) (l : Loading) : Loading :=
  match cs with
  | [] => l
  | c :: rest => loadingCalls rest (loadingCall c l)
  end.

(** What holds of the component after any calls: the document keeps or
    lacks its overlay, and while a loading state remains the overlay is
    displayed. *)
Definition overlaid (present : bool) (l : Loading) : Prop :=
  (overlay l <> None <-> present = true) /\
  (loadingStates l <> [] -> present = true -> overlay l = Some Flex).

(** ** toggleFavorite *)

(** The toast a toggle shows, by its message. *)
Inductive Toast : Type :=
| Removed (title : jsval)     (* Removed "<title>" from favorites *)
| Added (title : jsval)       (* Added "<title>" to favorites *)
| FailedToAdd.                (* Failed to add to favorites *)

(** What a toggle does to the page: the toast, whether the button carries
    the class [active], and the number [updateFavoritesCount()] writes
    into the badge ([None] when it is not called). *)
Record Toggled := {
  toast : option Toast;
  active : bool;
  badge : option nat
}.

(** [toggleFavorite(anime, button)]; [wasActive] is whether the button
    carries the class [active] before. *)
Definition toggleFavorite (anime : Anime.t) (wasActive : bool) (now : string)
    (setItem_ok : bool) (ls : Storage.LocalStorage)
    : Toggled * Storage.LocalStorage :=
  let isFavorite := Storage.isFavorite (Anime.mal_id anime) ls in
  if isFavorite then
    let (removed, ls') :=
      Storage.removeFavorite (Anime.mal_id anime) setItem_ok ls in
    if removed then
      ({| toast := Some (Removed (Anime.title anime)); active := false;
          badge := Some (Storage.getFavoriteCount ls') |}, ls')
    else ({| toast := None; active := wasActive; badge := None |}, ls')
  else
    let (added, ls') := Storage.addFavorite anime now setItem_ok ls in
    if added then
      ({| toast := Some (Added (Anime.title anime)); active := true;
          badge := Some (Storage.getFavoriteCount ls') |}, ls')
    else ({| toast := Some FailedToAdd; active := wasActive; badge := None |}, ls').

(** ** The search box *)

(** [performSearch(query)] of [initSearch]: the [detail.query] of the
    ['search'] event it dispatches, if it dispatches one. *)
Definition performSearch (query : string) (now : string) (setItem_ok : bool)
    (ls : Storage.LocalStorage) : option string * Storage.LocalStorage :=
  if (trim query =? "")%string then (None, ls)
  else
    let (_, ls') := Storage.addSearchTerm query now setItem_ok ls in
    (Some query, ls').

(** ** The synopsis put into a card *)

(** The value of the local variable [synopsis] when [createAnimeCard]
    ([limit] 150) and [createFeaturedCard] ([limit] 200) interpolate it
    into the markup they assign to [innerHTML]; [animeSynopsis] is
    [anime.synopsis], a string, or [None] for [null] and for a record
    without the property.  The string goes into the markup as it is,
    without escaping, so what the card displays is what the HTML parser
    makes of it; the display is outside this model. *)
Definition synopsis (limit : nat) (animeSynopsis : option string) : string :=
  let synopsis :=
    match animeSynopsis with
    | Some s => if (s =? "")%string then "No description available." else s
    | None => "No description available."
    end in
  if (limit <? String.length synopsis)%nat
  then substring 0 limit synopsis ++ "..."
  else synopsis.

End UIComponents.

(* ===================================================================== *)
(** * AnimeDetailPage: the favorite button *)
(* ===================================================================== *)

Module DetailPageFavorite.

(** [toggleFavorite()] of the detail page; [animeData] is [this.animeData],
    [None] while it is [null]. *)
Definition toggleFavorite (animeData : option Anime.t) (now : string)
    (setItem_ok : bool) (ls : Storage.LocalStorage)
    : option UIComponents.Toast * Storage.LocalStorage :=
  match animeData with
  | None => (None, ls)
  | Some anime =>
      let isFavorite := Storage.isFavorite (Anime.mal_id anime) ls in
      if isFavorite then
        let (removed, ls') :=
          Storage.removeFavorite (Anime.mal_id anime) setItem_ok ls in
        if removed then (Some (UIComponents.Removed (Anime.title anime)), ls')
        else (None, ls')
      else
        let (added, ls') := Storage.addFavorite anime now setItem_ok ls in
        if added then (Some (UIComponents.Added (Anime.title anime)), ls')
        else (Some UIComponents.FailedToAdd, ls')
  end.

End DetailPageFavorite.

(* ===================================================================== *)
(** * AnimeVaultApp: the trending grid of the homepage *)
(* ===================================================================== *)

(** An element of a list payload as the homepage reads it: its identifier,
    a non-negative integer, and what the card shows. *)
Module Listing.
Record t := { mal_id : N; title : string }.
End Listing.

Module AnimeVaultApp.

(** [uniqueAnimeMap]: an object whose property keys are identifiers.  Its
    own properties are kept in the order in which [Object.values] lists
    them: the keys that are array indices (below 2^32 - 1) in ascending
    order, then the other keys in the order of their creation. *)
Record ObjectMap := {
  indexed : list (N * Listing.t);
  named : list (N * Listing.t)
}.

Definition emptyObject : ObjectMap := {| indexed := []; named := [] |}.

Definition isArrayIndex (key : N) : bool := (key <? 4294967295)%N.

Fixpoint assignIndexed (key : N) (item : Listing.t)
    (l : list (N * Listing.t)) : list (N * Listing.t) :=
  match l with
  | [] => [(key, item)]
  | (k, v) :: rest =>
      if (key <? k)%N then (key, item) :: l
      else if (key =? k)%N then (k, item) :: rest
      else (k, v) :: assignIndexed key item rest
  end.

Fixpoint assignNamed (key : N) (item : Listing.t)
    (l : list (N * Listing.t)) : list (N * Listing.t) :=
  match l with
  | [] => [(key, item)]
  | (k, v) :: rest =>
      if (key =? k)%N then (k, item) :: rest
      else (k, v) :: assignNamed key item rest
  end.

(** [uniqueAnimeMap[item.mal_id] = item]. *)
Definition assign (m : ObjectMap) (item : Listing.t) : ObjectMap :=
  let key := Listing.mal_id item in
  if isArrayIndex key then
    {| indexed := assignIndexed key item (indexed m); named := named m |}
  else
    {| indexed := indexed m; named := assignNamed key item (named m) |}.

(** [Object.values(uniqueAnimeMap)]. *)
Definition objectValues (m : ObjectMap) : list Listing.t :=
  (map snd (indexed m) ++ map snd (named m))%list.

(** The list [uniqueAnime] that [loadTrendingAnime] makes of the
    concatenated pages. *)
Definition uniqueAnime (anime : list Listing.t) : list Listing.t :=
  let uniqueAnimeMap := fold_left assign anime emptyObject in
  firstn 60 (objectValues uniqueAnimeMap).

(** What holds of [uniqueAnimeMap] at every moment: every property is
    filed under the identifier of its value; the array indices are in
    ascending order; the other keys are pairwise different. *)
Definition wellFormed (m : ObjectMap) : Prop :=
  Forall (fun kv => Listing.mal_id (snd kv) = fst kv /\ isArrayIndex (fst kv) = true)
         (indexed m) /\
  Forall (fun kv => Listing.mal_id (snd kv) = fst kv /\ isArrayIndex (fst kv) = false)
         (named m) /\
  StronglySorted N.lt (map fst (indexed m)) /\
  NoDup (map fst (named m)).

(** The children of the grid. *)
Inductive Tile : Type :=
| Skeleton                     (* [createSkeletonCard()] *)
| Card (item : Listing.t).     (* a column holding [createAnimeCard(item)] *)

(** The fields of the application object that the trending grid uses. *)
Record App := {
  currentPage : Z;
  hasMoreData : bool;
  isLoading : bool
}.

(** The grid, the error toasts shown, and the pages asked of
    [getTrendingAnime] so far. *)
Record Screen := {
  grid : list Tile;
  toasts : list string;
  asked : list Z
}.

(** What [result.success && result.data.data] lets through: the entries to
    concatenate, or [None] when reading [result.data.data] throws. *)
Definition entries (result : AnimeDetailPage.ApiResult Listing.t)
    : option (list Listing.t) :=
  match result with
  | AnimeDetailPage.Failed => Some []
  | AnimeDetailPage.NullData => None
  | AnimeDetailPage.NoList => Some []
  | AnimeDetailPage.Listed items => Some items
  end.

(** [loadTrendingAnime(page, append)]; [found] tells whether the document
    has the element [trendingGrid]; [result1] and [result2] are what the
    two calls of [getTrendingAnime] resolve to. *)
Definition loadTrendingAnime (page : Z) (append : bool) (found : bool)
    (result1 result2 : AnimeDetailPage.ApiResult Listing.t)
    (app : App) (screen : Screen) : App * Screen :=
  if negb found then (app, screen)
  else
    let app :=
      if negb append then
        {| currentPage := currentPage app; hasMoreData := hasMoreData app;
           isLoading := true |}
      else app in
    let screen :=
      if negb append then
        {| grid := repeat Skeleton 12; toasts := toasts screen;
           asked := asked screen |}
      else screen in
    let screen :=
      {| grid := grid screen; toasts := toasts screen;
         asked := asked screen ++ [page; page + 1] |} in
    let failure :=
      ({| currentPage := currentPage app; hasMoreData := hasMoreData app;
          isLoading := false |},
       {| grid := grid screen;
          toasts := toasts screen ++ ["Failed to load trending anime"];
          asked := asked screen |}) in
    match entries result1, entries result2 with
    | Some first, Some second =>
        let anime := (first ++ second)%list in
        let uniqueAnime := uniqueAnime anime in
        if (0 <? List.length uniqueAnime)%nat then
          ({| currentPage := page;
              hasMoreData := (List.length uniqueAnime =? 60)%nat;
              isLoading := false |},
           {| grid :=
                if append then (grid screen ++ map Card uniqueAnime)%list
                else map Card uniqueAnime;
              toasts := toasts screen;
              asked := asked screen |})
        else failure
    | _, _ => failure
    end.

(** [loadMoreTrending()]. *)
Definition loadMoreTrending (found : bool)
    (result1 result2 : AnimeDetailPage.ApiResult Listing.t)
    (app : App) (screen : Screen) : App * Screen :=
  if isLoading app || negb (hasMoreData app) then (app, screen)
  else
    let nextPage := currentPage app + 1 in
    loadTrendingAnime nextPage true found result1 result2 app screen.

(** The number of entries of a result. *)
Definition pageSize (result : AnimeDetailPage.ApiResult Listing.t) : nat :=
  match result with
  | AnimeDetailPage.Listed items => List.length items
  | _ => 0%nat
  end.

(** The entries of a result, none where it has no list. *)
Definition listed (result : AnimeDetailPage.ApiResult Listing.t)
    : list Listing.t :=
  match result with
  | AnimeDetailPage.Listed items => items
  | _ => []
  end.

(** The application object right after its constructor. *)
Definition constructed : App :=
  {| currentPage := 1; hasMoreData := true; isLoading := false |}.

End AnimeVaultApp.

(* ===================================================================== *)
(** * Sample data *)
(* ===================================================================== *)

Module Samples.

Definition catalogRecord (mal_id : Z) (title : string) : Anime.t :=
  {| Anime.mal_id := JNum (inject_Z mal_id);
     Anime.title := JStr title;
     Anime.title_english := JStr title;
     Anime.images := JObj [("jpg", JObj [("image_url", JStr "https://cdn.myanimelist.net/x.jpg")])];
     Anime.score := JNum (83 # 10);
     Anime.year := JNum (inject_Z 2002);
     Anime.type := JStr "TV";
     Anime.status := JStr "Finished Airing";
     Anime.episodes := JNum (inject_Z 220);
     Anime.synopsis := JStr "A young ninja.";
     Anime.genres := JArr [JObj [("mal_id", JNum (inject_Z 1)); ("name", JStr "Action")]] |}.

Definition naruto : Anime.t := catalogRecord 20 "Naruto".
Definition deathNote : Anime.t := catalogRecord 1535 "Death Note".

Definition monday : string := "2024-01-01T10:00:00.000Z".
Definition tuesday : string := "2024-01-02T10:00:00.000Z".

(** Local storage after [init()] on a fresh browser profile. *)
Definition freshStorage : Storage.LocalStorage :=
  {| Storage.favoritesItem := Some []; Storage.searchHistoryItem := Some [] |}.

(** Local storage holding one favorite, Naruto, added on Monday. *)
Definition narutoStored : Storage.LocalStorage :=
  {| Storage.favoritesItem := Some [Storage.favoriteData naruto monday];
     Storage.searchHistoryItem := Some [] |}.

(** Local storage holding a hundred favorites, anime 1 the most recent
    and anime 100 the oldest. *)
Definition hundredFavorites : Storage.LocalStorage :=
  {| Storage.favoritesItem :=
       Some (map (fun n => Storage.favoriteData
                             (catalogRecord (Z.of_nat n) "Some title") monday)
                 (seq 1 100));
     Storage.searchHistoryItem := Some [] |}.

(** A client that last fetched at [last] and has an empty cache. *)
Definition idleClient (last : Z) : JikanAPI.World :=
  {| JikanAPI.api := {| JikanAPI.lastRequestTime := last; JikanAPI.cache := [] |};
     JikanAPI.fetched := [] |}.

(** 2023-11-14T22:13:20Z in milliseconds since the epoch. *)
Definition t0 : Z := 1700000000000.

(** The record of anime [n] as the API sends it. *)
Definition page (n : nat) : jsval :=
  JObj [("data", JObj [("mal_id", JNum (inject_Z (Z.of_nat n)))])].

(** A client that has cached the answers to [/anime/1] ... [/anime/n],
    in this order, one every two seconds from [t0] on. *)
Fixpoint filled (n : nat) : JikanAPI.t :=
  match n with
  | O => JikanAPI.constructor
  | S m =>
      JikanAPI.setCachedData
        ("/anime/" ++ numberToString (Z.of_nat n))
        (page n)
        (t0 + 2000 * Z.of_nat n + 200)
        (filled m)
  end.

(** The environment of a call made at [now] that finds the network in
    the state [outcome]; the timer is 3 ms late, the answer takes 200 ms. *)
Definition callAt (now : Z) (outcome : JikanAPI.FetchOutcome) : JikanAPI.Env :=
  {| JikanAPI.now := now; JikanAPI.jitter := 3%N; JikanAPI.latency := 200%N;
     JikanAPI.outcome := outcome |}.

(** The detail page of anime 20: [loadAnimeDetails] fetches the full
    record; 300 ms later the answer is there and [Promise.all] starts
    [loadCharacters] and [loadRecommendations] in the same turn; both
    timers are due a second after the first fetch and fire on time. *)
Definition detailPageBurst : list JikanAPI.Event :=
  [ JikanAPI.Invoke t0 "https://api.jikan.moe/v4/anime/20/full";
    JikanAPI.Invoke (t0 + 300) "https://api.jikan.moe/v4/anime/20/characters";
    JikanAPI.Invoke (t0 + 300) "https://api.jikan.moe/v4/anime/20/recommendations";
    JikanAPI.Fire (t0 + 1000) 0;
    JikanAPI.Fire (t0 + 1000) 0 ].

Definition action : Genre.t :=
  {| Genre.mal_id := JNum (inject_Z 1); Genre.name := "Action" |}.

(** The detail page of anime 20 once its record is loaded. *)
Definition narutoPage : AnimeDetailPage.Page :=
  {| AnimeDetailPage.animeId := JStr "20";
     AnimeDetailPage.animeData :=
       Some {| AnimeDetailPage.genres := Some [action] |} |}.

(** The recommendations container as the page's HTML has it. *)
Definition spinner : AnimeDetailPage.View :=
  {| AnimeDetailPage.children := [AnimeDetailPage.Markup "<div class=spinner></div>"];
     AnimeDetailPage.requests := [] |}.


(** Only the recommendations endpoint is down. *)
Definition noRecommendationsOnly : AnimeDetailPage.Env :=
  {| AnimeDetailPage.recommendations := AnimeDetailPage.Failed;
     AnimeDetailPage.byGenre := AnimeDetailPage.Listed [deathNote; naruto] |}.

(** The client after the pages of anime 1 to [n] were requested with
    caching, one every two seconds from [t0] on, each answered 200. *)
Fixpoint browsed (n : nat) : JikanAPI.World :=
  match n with
  | O => idleClient 0
  | S m =>
      snd (JikanAPI.request
             ("/anime/" ++ numberToString (Z.of_nat n)) true
             (callAt (t0 + 2000 * Z.of_nat n)
                (JikanAPI.Response 200 "OK" (JikanAPI.Json (page n))))
             (browsed m))
  end.

(** A client whose cache holds, of all things, an entry under the key of
    the random endpoint. *)
Definition staleRandom : JikanAPI.World :=
  {| JikanAPI.api :=
       JikanAPI.setCachedData "/random/anime" (JStr "stale") t0
         JikanAPI.constructor;
     JikanAPI.fetched := [] |}.

Definition genresPayload : jsval :=
  JObj [("data", JArr [JObj [("mal_id", JNum (inject_Z 1)); ("name", JStr "Action")]])].


(** The same three calls, each made when the one before has fetched. *)
Definition detailPageInTurn : list JikanAPI.Event :=
  [ JikanAPI.Invoke t0 "https://api.jikan.moe/v4/anime/20/full";
    JikanAPI.Invoke (t0 + 300) "https://api.jikan.moe/v4/anime/20/characters";
    JikanAPI.Fire (t0 + 1000) 0;
    JikanAPI.Invoke (t0 + 1200) "https://api.jikan.moe/v4/anime/20/recommendations";
    JikanAPI.Fire (t0 + 2004) 0 ].


(** A page of the trending list. *)
Definition trendingPage : AnimeDetailPage.ApiResult Listing.t :=
  AnimeDetailPage.Listed
    [ {| Listing.mal_id := 16498; Listing.title := "Attack on Titan" |};
      {| Listing.mal_id := 20; Listing.title := "Naruto" |};
      {| Listing.mal_id := 1535; Listing.title := "Death Note" |} ].

(** The homepage before its first load. *)
Definition blankScreen : AnimeVaultApp.Screen :=
  {| AnimeVaultApp.grid := []; AnimeVaultApp.toasts := [];
     AnimeVaultApp.asked := [] |}.


(** Local storage of a visitor who made twenty searches: "Season 1" to
    "Season 12" last, "Naruto" before them, and seven older ones. *)
Definition twentySearches : Storage.LocalStorage :=
  let entry (originalTerm : string) :=
    {| SearchEntry.term := toLowerCase originalTerm;
       SearchEntry.originalTerm := originalTerm;
       SearchEntry.timestamp := monday |} in
  {| Storage.favoritesItem := Some [];
     Storage.searchHistoryItem :=
       Some (map entry
               (map (fun n => "Season " ++ numberToString (Z.of_nat n))%string
                    (seq 1 12)
                ++ ["Naruto"; "One Piece"; "Bleach"; "Death Note"; "Mushishi";
                    "Monster"; "Trigun"; "Berserk"])%list) |}.


(** A visit to the detail page of anime 20, each request made when the
    one before has returned: the record; its characters 300 ms after the
    record was asked for; then, the cache emptied and the clock set back
    five seconds, its recommendations. *)
Definition visit : list JikanAPI.Use :=
  [ JikanAPI.Requested "/anime/20/full" true
      (callAt t0 (JikanAPI.Response 200 "OK" (JikanAPI.Json (page 20))));
    JikanAPI.Requested "/anime/20/characters" true
      (callAt (t0 + 300) (JikanAPI.Response 200 "OK" (JikanAPI.Json (page 20))));
    JikanAPI.Cleared;
    JikanAPI.Requested "/anime/20/recommendations" false
      (callAt (t0 + 1003 - 5000)
         (JikanAPI.Response 200 "OK" (JikanAPI.Json (page 20)))) ].

(** Two requests, the clock set back thirty days between them. *)
Definition visitAcrossClockReset : list JikanAPI.Use :=
  [ JikanAPI.Requested "/anime/20/full" true
      (callAt t0 (JikanAPI.Response 200 "OK" (JikanAPI.Json (page 20))));
    JikanAPI.Requested "/anime/20/characters" true
      (callAt (t0 - 2592000000)
         (JikanAPI.Response 200 "OK" (JikanAPI.Json (page 20)))) ].


(** A synopsis longer than a card allows. *)
Definition longSynopsis : string :=
  "Moments prior to Naruto Uzumaki's birth, a huge demon known as the Kyuubi, the Nine-Tailed Fox, attacked Konohagakure, the Hidden Leaf Village, and wreaked havoc. In order to put an end to the Kyuubi's rampage, the leader of the village fought it.".

End Samples.

(* ===================================================================== *)
(** * Properties of the string functions *)
(* ===================================================================== *)

Section Strings.

Example trim_spaces : trim "  Naruto  " = "Naruto".
Proof. reflexivity. Qed.

Example trim_inner : trim (String (ascii_of_nat 9) "a b ") = "a b".
Proof. reflexivity. Qed.

Example toLowerCase_Naruto : toLowerCase "Naruto" = "naruto".
Proof. reflexivity. Qed.

Example numberToString_404 : numberToString 404 = "404".
Proof. reflexivity. Qed.

Example encodeURIComponent_query : encodeURIComponent "a b&c" = "a%20b%26c".
Proof. reflexivity. Qed.

Lemma trimEnd_length (s : string) :
  (String.length (trimEnd s) <= String.length s)%nat.
Proof.
  induction s as [|c r IH]; simpl; [lia|].
  destruct (trimEnd r) eqn:E.
  - destruct (isWhiteSpace c); simpl; lia.
  - simpl in *. lia.
Qed.

Lemma trimStart_length (s : string) :
  (String.length (trimStart s) <= String.length s)%nat.
Proof.
  induction s as [|c r IH]; simpl; [lia|].
  destruct (isWhiteSpace c); simpl; lia.
Qed.

(** Trimming never lengthens a string; so the empty string trims to a
    string shorter than two characters. *)
Lemma trim_length (s : string) :
  (String.length (trim s) <= String.length s)%nat.
Proof.
  unfold trim. pose proof (trimEnd_length (trimStart s)).
  pose proof (trimStart_length s). lia.
Qed.

End Strings.

(* ===================================================================== *)
(** * Properties of Storage *)
(* ===================================================================== *)

Section StorageProperties.

Import Storage.

Lemma getFavorites_setItem (favorites : list Favorite.t) (ls : LocalStorage) :
  getFavorites (setItem FAVORITES favorites ls) = favorites.
Proof. reflexivity. Qed.

Lemma getSearchHistory_setItem (h : list SearchEntry.t) (ls : LocalStorage) :
  getSearchHistory (setItem SEARCH_HISTORY h ls) = h.
Proof. reflexivity. Qed.

Lemma removelast_length_pred {A : Type} (l : list A) :
  List.length (removelast l) = Nat.pred (List.length l).
Proof.
  induction l as [|x l IH]; [reflexivity|].
  destruct l as [|y l]; [reflexivity|].
  change (removelast (x :: y :: l)) with (x :: removelast (y :: l)).
  simpl List.length in *. rewrite IH. reflexivity.
Qed.

Lemma removelast_cons_snoc {A : Type} (x : A) (front : list A) (y : A) :
  removelast (x :: (front ++ [y])%list) = x :: front.
Proof. apply (removelast_last (x :: front) y). Qed.

(** Entries that [filter] lets through a test all fail the opposite
    test, also after [firstn]. *)
Lemma filter_firstn_filter_negb {A : Type} (f : A -> bool) (n : nat)
    (l : list A) :
  filter f (firstn n (filter (fun x => negb (f x)) l)) = [].
Proof.
  revert n. induction l as [|x l IH]; intros n; simpl.
  - destruct n; reflexivity.
  - destruct (f x) eqn:E; simpl; [apply IH|].
    destruct n; simpl; [reflexivity|]. rewrite E. apply IH.
Qed.

End StorageProperties.

(** C4. For every stored favorites list and every anime record whose
    [mal_id] is strictly equal to the [mal_id] of an entry of that list,
    [addFavorite] returns [false] and leaves local storage as it was. *)
Theorem addFavorite_existing_is_noop
    (anime : Anime.t) (now : string) (setItem_ok : bool)
    (ls : Storage.LocalStorage) (fav : Favorite.t) :
  In fav (Storage.getFavorites ls) ->
  strict_eq (Favorite.mal_id fav) (Anime.mal_id anime) = true ->
  Storage.addFavorite anime now setItem_ok ls = (false, ls).
Proof.
  intros Hin Heq. unfold Storage.addFavorite.
  destruct (find _ (Storage.getFavorites ls)) eqn:Hfind; [reflexivity|].
  pose proof (find_none _ _ Hfind fav Hin) as Hno. simpl in Hno.
  congruence.
Qed.

Lemma addFavorite_existing_is_noop_witness :
  In (Storage.favoriteData Samples.naruto Samples.monday)
     (Storage.getFavorites Samples.narutoStored) /\
  Storage.addFavorite Samples.naruto Samples.tuesday true Samples.narutoStored
  = (false, Samples.narutoStored).
Proof.
  split; [left; reflexivity|].
  apply (@addFavorite_existing_is_noop Samples.naruto Samples.tuesday true
           Samples.narutoStored
           (Storage.favoriteData Samples.naruto Samples.monday)).
  - left; reflexivity.
  - reflexivity.
Defined.

(** C5. For every stored favorites list of at most 100 entries, the list
    stored after [addFavorite] has at most 100 entries.  The call adds
    (returns [true]) exactly when the record is not yet a favorite and the
    write goes through; then the new entry comes first, followed by the
    old list, which has lost its last entry -- the oldest -- if it already
    had 100. *)
Theorem addFavorite_capped_most_recent_first
    (anime : Anime.t) (now : string) (setItem_ok : bool)
    (ls : Storage.LocalStorage) :
  (List.length (Storage.getFavorites ls) <= 100)%nat ->
  let favorites := Storage.getFavorites ls in
  let added := fst (Storage.addFavorite anime now setItem_ok ls) in
  let favorites' :=
    Storage.getFavorites (snd (Storage.addFavorite anime now setItem_ok ls)) in
  (List.length favorites' <= 100)%nat /\
  (added = true <->
   Storage.isFavorite (Anime.mal_id anime) ls = false /\ setItem_ok = true) /\
  (Storage.isFavorite (Anime.mal_id anime) ls = false ->
   setItem_ok = true ->
   ((List.length favorites < 100)%nat ->
    favorites' = Storage.favoriteData anime now :: favorites) /\
   (List.length favorites = 100%nat ->
    exists front oldest,
      favorites = (front ++ [oldest])%list /\
      favorites' = Storage.favoriteData anime now :: front)).
Proof.
  intros Hlen favorites added favorites'.
  subst added favorites'. unfold Storage.addFavorite, Storage.isFavorite.
  cbv zeta. fold favorites.
  set (same := fun fav : Favorite.t =>
                 strict_eq (Favorite.mal_id fav) (Anime.mal_id anime)).
  destruct (find same favorites) as [fav|] eqn:Hfind.
  - apply find_some in Hfind as [Hin Heq].
    assert (Hwas : existsb same favorites = true)
      by (apply existsb_exists; exists fav; split; assumption).
    rewrite Hwas. cbn [fst snd].
    split; [exact Hlen|].
    split; [split; [discriminate | intros [H _]; discriminate] | discriminate].
  - assert (Hnot : existsb same favorites = false).
    { destruct (existsb same favorites) eqn:E; [|reflexivity].
      apply existsb_exists in E as [fav [Hin Heq]].
      pose proof (find_none _ _ Hfind fav Hin) as Hno. congruence. }
    rewrite Hnot. unfold Storage.set.
    destruct setItem_ok; cbn [fst snd].
    2:{ split; [exact Hlen|].
        split; [split; [discriminate | intros [_ H]; discriminate]
               | discriminate]. }
    rewrite getFavorites_setItem.
    split; [|split; [split; [intros _; split; reflexivity | reflexivity]|]].
    + destruct (100 <? List.length (Storage.favoriteData anime now :: favorites))%nat
        eqn:Hover.
      * rewrite removelast_length_pred. simpl List.length.
        fold favorites in Hlen. lia.
      * apply Nat.ltb_ge in Hover. exact Hover.
    + intros _ _.
      destruct (100 <? List.length (Storage.favoriteData anime now :: favorites))%nat
        eqn:Hover.
      * apply Nat.ltb_lt in Hover. simpl List.length in Hover.
        assert (Hfull : List.length favorites = 100%nat)
          by (fold favorites in Hlen; lia).
        split; [lia|]. intros _.
        destruct (exists_last (l := favorites)) as [front [oldest Hsplit]].
        { intros E. rewrite E in Hfull. discriminate. }
        exists front, oldest. split; [exact Hsplit|].
        rewrite Hsplit. apply removelast_cons_snoc.
      * apply Nat.ltb_ge in Hover. simpl List.length in Hover.
        split; [reflexivity | lia].
Qed.

(** The hundred-and-first favorite: the call adds it, puts it first and
    drops the last of the hundred stored entries. *)
Lemma addFavorite_capped_most_recent_first_witness :
  (List.length (Storage.getFavorites Samples.hundredFavorites) <= 100)%nat /\
  fst (Storage.addFavorite Samples.deathNote Samples.tuesday true
         Samples.hundredFavorites) = true /\
  exists front oldest,
    Storage.getFavorites Samples.hundredFavorites = (front ++ [oldest])%list /\
    Storage.getFavorites
      (snd (Storage.addFavorite Samples.deathNote Samples.tuesday true
              Samples.hundredFavorites))
    = Storage.favoriteData Samples.deathNote Samples.tuesday :: front.
Proof.
  assert (H : (List.length (Storage.getFavorites Samples.hundredFavorites)
               <= 100)%nat) by (vm_compute; lia).
  assert (Hnew : Storage.isFavorite (Anime.mal_id Samples.deathNote)
                   Samples.hundredFavorites = false)
    by (vm_compute; reflexivity).
  split; [exact H|].
  destruct (@addFavorite_capped_most_recent_first Samples.deathNote
              Samples.tuesday true Samples.hundredFavorites H)
    as [_ [Hadds Hstored]].
  split; [apply Hadds; split; [exact Hnew | reflexivity]|].
  apply (Hstored Hnew eq_refl). vm_compute. reflexivity.
Defined.

(** The hundred-and-first favorite: anime 100, the oldest, goes. *)
Example addFavorite_at_capacity :
  let after :=
    Storage.getFavorites
      (snd (Storage.addFavorite (Samples.catalogRecord 500 "New") Samples.tuesday
              true Samples.hundredFavorites)) in
  List.length (Storage.getFavorites Samples.hundredFavorites) = 100%nat /\
  List.length after = 100%nat /\
  map Favorite.mal_id (firstn 2 after)
  = [JNum (inject_Z 500); JNum (inject_Z 1)] /\
  map Favorite.mal_id (skipn 99 after) = [JNum (inject_Z 99)].
Proof. vm_compute. repeat split. Qed.

(** Removing a favorite twice is removing it once. *)
Lemma removeFavorite_idempotent (animeId : jsval) (ls : Storage.LocalStorage) :
  let once := snd (Storage.removeFavorite animeId true ls) in
  snd (Storage.removeFavorite animeId true once) = once.
Proof.
  cbv zeta. unfold Storage.removeFavorite, Storage.set. cbn [snd].
  rewrite getFavorites_setItem.
  set (keep := fun fav => negb (strict_eq (Favorite.mal_id fav) animeId)).
  assert (H : forall l, filter keep (filter keep l) = filter keep l).
  { induction l as [|x l IH]; [reflexivity|]. simpl.
    destruct (keep x) eqn:E; simpl; [rewrite E, IH; reflexivity | exact IH]. }
  rewrite H. reflexivity.
Qed.

(** The entry [addSearchTerm] puts first. *)
Lemma addSearchTerm_long_enough (term now : string) (setItem_ok : bool)
    (ls : Storage.LocalStorage) :
  (2 <= String.length (trim term))%nat ->
  Storage.addSearchTerm term now setItem_ok ls
  = (Some setItem_ok,
     if setItem_ok then
       Storage.setItem Storage.SEARCH_HISTORY
         (firstn 20
            ({| SearchEntry.term := toLowerCase (trim term);
                SearchEntry.originalTerm := trim term;
                SearchEntry.timestamp := now |}
             :: filter
                  (fun item =>
                     negb (SearchEntry.term item =? toLowerCase (trim term))%string)
                  (Storage.getSearchHistory ls)))
         ls
     else ls).
Proof.
  intros Hlen. unfold Storage.addSearchTerm.
  assert (Hne : (term =? "")%string = false).
  { destruct term; [simpl in Hlen; lia | reflexivity]. }
  assert (Hlong : (String.length (trim term) <? 2)%nat = false)
    by (apply Nat.ltb_ge; exact Hlen).
  rewrite Hne, Hlong. cbn [orb].
  unfold Storage.set. destruct setItem_ok; reflexivity.
Qed.

(** C6. For every stored search history and every term whose trimmed
    length is at least 2, [addSearchTerm] writes the history made of a new
    entry (term trimmed and lower-cased, original casing trimmed only)
    followed by the old entries whose term differs from the normalized one,
    cut to 20 entries.  In particular, whatever was stored, after adding
    "Naruto" and then "naruto" the only entry whose term is "naruto" is the
    first one, and its original casing is "naruto". *)
Theorem addSearchTerm_dedups_normalized
    (term now : string) (ls : Storage.LocalStorage) :
  (2 <= String.length (trim term))%nat ->
  let cleanTerm := toLowerCase (trim term) in
  let entry :=
    {| SearchEntry.term := cleanTerm;
       SearchEntry.originalTerm := trim term;
       SearchEntry.timestamp := now |} in
  let history := Storage.getSearchHistory ls in
  (* the write that is attempted, and its result when it goes through *)
  (forall setItem_ok,
     Storage.addSearchTerm term now setItem_ok ls
     = (Some setItem_ok,
        if setItem_ok then
          Storage.setItem Storage.SEARCH_HISTORY
            (firstn 20
               (entry
                :: filter
                     (fun item => negb (SearchEntry.term item =? cleanTerm)%string)
                     history))
            ls
        else ls)) /\
  (* the stored history after a successful write *)
  (let history' :=
     Storage.getSearchHistory (snd (Storage.addSearchTerm term now true ls)) in
   hd_error history' = Some entry /\
   filter (fun item => (SearchEntry.term item =? cleanTerm)%string) history'
   = [entry] /\
   (List.length history' <= 20)%nat) /\
  (* "Naruto" then "naruto" *)
  (forall (first second : string) (ok : bool),
     let ls1 := snd (Storage.addSearchTerm "Naruto" first ok ls) in
     let ls2 := snd (Storage.addSearchTerm "naruto" second true ls1) in
     filter (fun item => (SearchEntry.term item =? "naruto")%string)
            (Storage.getSearchHistory ls2)
     = [ {| SearchEntry.term := "naruto";
            SearchEntry.originalTerm := "naruto";
            SearchEntry.timestamp := second |} ]).
Proof.
  intros Hlen cleanTerm entry history.
  assert (Hfilter : forall (c o n : string) (h : list SearchEntry.t),
    filter (fun item => (SearchEntry.term item =? c)%string)
      (firstn 20
         ({| SearchEntry.term := c; SearchEntry.originalTerm := o;
             SearchEntry.timestamp := n |}
          :: filter (fun item => negb (SearchEntry.term item =? c)%string) h))
    = [ {| SearchEntry.term := c; SearchEntry.originalTerm := o;
           SearchEntry.timestamp := n |} ]).
  { intros c o n h. rewrite firstn_cons. cbn [filter SearchEntry.term].
    rewrite String.eqb_refl. f_equal.
    apply (filter_firstn_filter_negb
             (fun item => (SearchEntry.term item =? c)%string)). }
  split; [|split].
  - intros setItem_ok. apply addSearchTerm_long_enough. exact Hlen.
  - cbv zeta. rewrite (addSearchTerm_long_enough term now true ls Hlen).
    cbn [snd]. rewrite getSearchHistory_setItem.
    split; [reflexivity|]. split.
    + apply Hfilter.
    + apply firstn_le_length.
  - intros first second ok. cbv zeta.
    rewrite (addSearchTerm_long_enough "naruto" second true); [|simpl; lia].
    cbn [snd]. rewrite getSearchHistory_setItem.
    apply (Hfilter "naruto" "naruto" second).
Qed.

Lemma addSearchTerm_dedups_normalized_witness :
  (2 <= String.length (trim "  One Piece "))%nat /\
  Storage.getSearchHistory
    (snd (Storage.addSearchTerm "  One Piece " Samples.monday true
            Samples.freshStorage))
  = [ {| SearchEntry.term := "one piece";
         SearchEntry.originalTerm := "One Piece";
         SearchEntry.timestamp := Samples.monday |} ].
Proof.
  assert (H : (2 <= String.length (trim "  One Piece "))%nat) by (simpl; lia).
  split; [exact H|].
  pose proof (@addSearchTerm_dedups_normalized "  One Piece " Samples.monday
                Samples.freshStorage H) as [Hwrite _].
  rewrite (Hwrite true). reflexivity.
Defined.

(** C10. For every stored search history, [addSearchTerm] with a term
    whose trimmed length is below 2 writes nothing and returns no value:
    local storage is as before. *)
Theorem addSearchTerm_short_is_noop
    (term now : string) (setItem_ok : bool) (ls : Storage.LocalStorage) :
  (String.length (trim term) < 2)%nat ->
  Storage.addSearchTerm term now setItem_ok ls = (None, ls).
Proof.
  intros Hshort. unfold Storage.addSearchTerm.
  apply Nat.ltb_lt in Hshort. rewrite Hshort.
  rewrite orb_true_r. reflexivity.
Qed.

Lemma addSearchTerm_short_is_noop_witness :
  (String.length (trim "  a   ") < 2)%nat /\
  Storage.addSearchTerm "  a   " Samples.monday true Samples.narutoStored
  = (None, Samples.narutoStored).
Proof.
  assert (H : (String.length (trim "  a   ") < 2)%nat) by (simpl; lia).
  split; [exact H|].
  exact (@addSearchTerm_short_is_noop "  a   " Samples.monday true
           Samples.narutoStored H).
Defined.

(* ===================================================================== *)
(** * Properties of the response cache *)
(* ===================================================================== *)

Section CacheProperties.

Import JikanAPI.

Lemma map_get_None_keys (key : string) (m : Cache) :
  map_get key m = None <-> ~ In key (keys m).
Proof.
  induction m as [|[k v] rest IH]; simpl.
  - split; [intros _ []|reflexivity].
  - destruct (String.eqb_spec k key) as [E|N].
    + split; [discriminate|]. intros H. exfalso. apply H. left. exact E.
    + rewrite IH. split.
      * intros H [E|I]; [apply N; exact E | apply H; exact I].
      * intros H I. apply H. right. exact I.
Qed.

Lemma map_set_absent (key : string) (value : CacheEntry.t) (m : Cache) :
  map_get key m = None -> map_set key value m = (m ++ [(key, value)])%list.
Proof.
  induction m as [|[k v] rest IH]; simpl; [reflexivity|].
  destruct (k =? key)%string; [discriminate|].
  intros H. rewrite (IH H). reflexivity.
Qed.

Lemma map_set_present (key : string) (value : CacheEntry.t) (m : Cache) :
  map_get key m <> None ->
  keys (map_set key value m) = keys m.
Proof.
  induction m as [|[k v] rest IH]; simpl; [congruence|].
  destruct (k =? key)%string eqn:E; simpl; [reflexivity|].
  intros H. f_equal. apply IH. exact H.
Qed.

Lemma map_set_length (key : string) (value : CacheEntry.t) (m : Cache) :
  List.length (map_set key value m)
  = match map_get key m with
    | Some _ => List.length m
    | None => S (List.length m)
    end.
Proof.
  induction m as [|[k v] rest IH]; simpl; [reflexivity|].
  destruct (k =? key)%string; simpl; [reflexivity|].
  rewrite IH. destruct (map_get key rest); reflexivity.
Qed.

Lemma map_get_set_same (key : string) (value : CacheEntry.t) (m : Cache) :
  map_get key (map_set key value m) = Some value.
Proof.
  induction m as [|[k v] rest IH]; simpl.
  - rewrite String.eqb_refl. reflexivity.
  - destruct (k =? key)%string eqn:E; simpl; rewrite E; auto.
Qed.

Lemma map_get_delete_same (key : string) (m : Cache) :
  map_get key (map_delete key m) = None.
Proof.
  induction m as [|[k v] rest IH]; simpl; [reflexivity|].
  destruct (k =? key)%string eqn:E; simpl; [exact IH|].
  rewrite E. exact IH.
Qed.

Lemma map_get_delete_other (key other : string) (m : Cache) :
  other <> key ->
  map_get key (map_delete other m) = map_get key m.
Proof.
  intros N. induction m as [|[k v] rest IH]; simpl; [reflexivity|].
  destruct (String.eqb_spec k other) as [E1|N1]; simpl.
  - subst k. destruct (String.eqb_spec other key); [contradiction|exact IH].
  - destruct (k =? key)%string; [reflexivity|exact IH].
Qed.

Lemma map_delete_absent (key : string) (m : Cache) :
  ~ In key (keys m) -> map_delete key m = m.
Proof.
  induction m as [|[k v] rest IH]; simpl; [reflexivity|].
  intros H. destruct (String.eqb_spec k key) as [E|N]; simpl.
  - exfalso. apply H. left. exact E.
  - f_equal. apply IH. intros I. apply H. right. exact I.
Qed.

Lemma map_delete_length (key : string) (m : Cache) :
  (List.length (map_delete key m) <= List.length m)%nat.
Proof. apply filter_length_le. Qed.

Lemma keys_map_delete (key : string) (m : Cache) :
  keys (map_delete key m) = filter (fun k => negb (k =? key)%string) (keys m).
Proof.
  induction m as [|[k v] rest IH]; simpl; [reflexivity|].
  destruct (k =? key)%string; simpl; [exact IH|].
  f_equal. exact IH.
Qed.

Lemma NoDup_filter {A : Type} (f : A -> bool) (l : list A) :
  NoDup l -> NoDup (filter f l).
Proof.
  induction 1 as [|x l Hx Hl IH]; simpl; [constructor|].
  destruct (f x); [|exact IH].
  constructor; [|exact IH].
  intros I. apply filter_In in I. apply Hx. apply I.
Qed.

Lemma NoDup_map_delete (key : string) (m : Cache) :
  NoDup (keys m) -> NoDup (keys (map_delete key m)).
Proof. intros H. rewrite keys_map_delete. apply NoDup_filter. exact H. Qed.

Lemma NoDup_map_set (key : string) (value : CacheEntry.t) (m : Cache) :
  NoDup (keys m) -> NoDup (keys (map_set key value m)).
Proof.
  intros H. destruct (map_get key m) eqn:G.
  - rewrite map_set_present; [exact H|congruence].
  - rewrite map_set_absent by exact G. unfold keys. rewrite map_app. simpl.
    apply NoDup_app; [exact H | repeat constructor; intros [] |].
    intros x Hx [E|[]]. subst x. now apply map_get_None_keys in G.
Qed.

(** Deleting the key of the first entry removes that entry only. *)
Lemma map_delete_first (k : string) (v : CacheEntry.t) (rest : Cache) :
  NoDup (keys ((k, v) :: rest)) -> map_delete k ((k, v) :: rest) = rest.
Proof.
  intros H. inversion H as [|? ? Hk Hrest]; subst.
  unfold map_delete. simpl. rewrite String.eqb_refl. simpl.
  apply map_delete_absent. exact Hk.
Qed.

(** The invariant holds of a new client and every operation keeps it. *)
Lemma cache_ok_constructor : cache_ok constructor.
Proof. split; [constructor | simpl; lia]. Qed.

Lemma cache_ok_clearCache (a : t) : cache_ok (clearCache a).
Proof. split; [constructor | simpl; lia]. Qed.

Lemma cache_ok_getCachedData (key : string) (now : Z) (a : t) :
  cache_ok a -> cache_ok (snd (getCachedData key now a)).
Proof.
  intros [Hnd Hlen].
  assert (Hdel : cache_ok {| lastRequestTime := lastRequestTime a;
                             cache := map_delete key (cache a) |}).
  { split; simpl; [apply NoDup_map_delete; exact Hnd|].
    pose proof (map_delete_length key (cache a)). lia. }
  unfold getCachedData. destruct (map_get key (cache a)) as [cached|].
  - destruct (now - CacheEntry.timestamp cached <? cacheTimeout);
      [split; assumption | exact Hdel].
  - exact Hdel.
Qed.

End CacheProperties.

Section SetCachedData.

Import JikanAPI.

(** While the cache is not over capacity [setCachedData] is [Map.set]. *)
Lemma setCachedData_fits (key : string) (data : jsval) (now : Z) (a : t) :
  (List.length
     (map_set key {| CacheEntry.data := data; CacheEntry.timestamp := now |}
        (cache a)) <= 100)%nat ->
  cache (setCachedData key data now a)
  = map_set key {| CacheEntry.data := data; CacheEntry.timestamp := now |}
      (cache a).
Proof.
  intros H. unfold setCachedData. cbn [cache].
  apply Nat.ltb_ge in H. rewrite H. reflexivity.
Qed.

(** Over capacity: the key is new, the cache was full, and the first
    entry in insertion order is the one that goes. *)
Lemma setCachedData_evicts (key : string) (data : jsval) (now : Z) (a : t) :
  cache_ok a ->
  (100 < List.length
           (map_set key {| CacheEntry.data := data; CacheEntry.timestamp := now |}
              (cache a)))%nat ->
  map_get key (cache a) = None /\
  exists oldest rest,
    cache a = oldest :: rest /\
    cache (setCachedData key data now a)
    = (rest ++ [(key, {| CacheEntry.data := data;
                         CacheEntry.timestamp := now |})])%list.
Proof.
  set (entry := {| CacheEntry.data := data; CacheEntry.timestamp := now |}).
  intros [Hnd Hlen] Hover.
  rewrite map_set_length in Hover.
  destruct (map_get key (cache a)) eqn:G; [lia|].
  split; [reflexivity|].
  destruct (cache a) as [|[k v] rest] eqn:Hc; [simpl in Hover; lia|].
  exists (k, v), rest. split; [reflexivity|].
  unfold setCachedData. fold entry. cbn [cache]. rewrite Hc.
  rewrite map_set_absent by exact G.
  assert (Hbig : (100 <? List.length (((k, v) :: rest) ++ [(key, entry)])%list)%nat
                 = true).
  { apply Nat.ltb_lt. rewrite length_app. simpl List.length in *. lia. }
  rewrite Hbig. cbn [app firstKey].
  apply (@map_delete_first k v (rest ++ [(key, entry)])%list).
  change ((k, v) :: (rest ++ [(key, entry)])%list)
    with (((k, v) :: rest) ++ [(key, entry)])%list.
  rewrite <- (@map_set_absent key entry _ G).
  apply NoDup_map_set. exact Hnd.
Qed.

Lemma cache_ok_setCachedData (key : string) (data : jsval) (now : Z) (a : t) :
  cache_ok a -> cache_ok (setCachedData key data now a).
Proof.
  set (entry := {| CacheEntry.data := data; CacheEntry.timestamp := now |}).
  intros Hok.
  destruct (Nat.le_gt_cases (List.length (map_set key entry (cache a))) 100)
    as [Hfit|Hover].
  - pose proof (@setCachedData_fits key data now a Hfit) as E. fold entry in E.
    split; rewrite E; [apply NoDup_map_set; apply Hok | exact Hfit].
  - destruct (@setCachedData_evicts key data now a Hok Hover)
      as [G [oldest [rest [Hc Hc']]]].
    fold entry in Hc'. destruct Hok as [Hnd Hlen].
    split.
    + rewrite Hc'. pose proof (@NoDup_map_set key entry _ Hnd) as H.
      rewrite map_set_absent in H by exact G. rewrite Hc in H.
      simpl in H. inversion H; assumption.
    + rewrite Hc'. rewrite length_app. rewrite Hc in Hlen.
      simpl List.length in *. lia.
Qed.

(** The entry just stored can be read back: eviction never removes it. *)
Lemma map_get_setCachedData (key : string) (data : jsval) (now : Z) (a : t) :
  (List.length (cache a) <= 100)%nat ->
  map_get key (cache (setCachedData key data now a))
  = Some {| CacheEntry.data := data; CacheEntry.timestamp := now |}.
Proof.
  set (entry := {| CacheEntry.data := data; CacheEntry.timestamp := now |}).
  intros Hlen. unfold setCachedData. fold entry. cbn [cache].
  destruct (100 <? List.length (map_set key entry (cache a)))%nat eqn:Hover;
    [|apply map_get_set_same].
  apply Nat.ltb_lt in Hover. rewrite map_set_length in Hover.
  destruct (map_get key (cache a)) eqn:G; [lia|].
  rewrite map_set_absent by exact G.
  destruct (cache a) as [|[k v] rest] eqn:Hc; [simpl in Hover; lia|].
  cbn [app firstKey].
  assert (N : k <> key).
  { simpl in G. destruct (String.eqb_spec k key); [discriminate|assumption]. }
  rewrite map_get_delete_other by exact N.
  change ((k, v) :: (rest ++ [(key, entry)])%list)
    with (((k, v) :: rest) ++ [(key, entry)])%list.
  rewrite <- (@map_set_absent key entry _ G). apply map_get_set_same.
Qed.

End SetCachedData.

(** A hit of [getCachedData] changes nothing, the order of the entries
    included. *)
Lemma getCachedData_hit (key : string) (now : Z) (a : JikanAPI.t)
    (cached : CacheEntry.t) :
  JikanAPI.map_get key (JikanAPI.cache a) = Some cached ->
  now - CacheEntry.timestamp cached < JikanAPI.cacheTimeout ->
  JikanAPI.getCachedData key now a = (CacheEntry.data cached, a).
Proof.
  intros G Hfresh. unfold JikanAPI.getCachedData. rewrite G.
  apply Z.ltb_lt in Hfresh. rewrite Hfresh. reflexivity.
Qed.

(** An entry as old as the timeout, or older, is deleted by the lookup. *)
Lemma getCachedData_expired (key : string) (now : Z) (a : JikanAPI.t)
    (cached : CacheEntry.t) :
  JikanAPI.map_get key (JikanAPI.cache a) = Some cached ->
  JikanAPI.cacheTimeout <= now - CacheEntry.timestamp cached ->
  JikanAPI.getCachedData key now a
  = (JNull, {| JikanAPI.lastRequestTime := JikanAPI.lastRequestTime a;
               JikanAPI.cache := JikanAPI.map_delete key (JikanAPI.cache a) |}).
Proof.
  intros G Hold. unfold JikanAPI.getCachedData. rewrite G.
  apply Z.ltb_ge in Hold. rewrite Hold. reflexivity.
Qed.

(** C7. After [setCachedData] on a client whose cache is within capacity
    the cache is again within capacity (at most 100 entries, keys unique).
    When the insertion takes the cache over capacity, the entry removed is
    the first in insertion order, and the new entry is last; otherwise
    nothing is removed.  A cache hit does not change the order. *)
Theorem setCachedData_bounded_oldest_first
    (key : string) (data : jsval) (now : Z) (a : JikanAPI.t) :
  JikanAPI.cache_ok a ->
  let entry := {| CacheEntry.data := data; CacheEntry.timestamp := now |} in
  let inserted := JikanAPI.map_set key entry (JikanAPI.cache a) in
  let a' := JikanAPI.setCachedData key data now a in
  (List.length (JikanAPI.cache a') <= 100)%nat /\
  JikanAPI.cache_ok a' /\
  ((100 < List.length inserted)%nat ->
   exists oldest rest,
     JikanAPI.cache a = oldest :: rest /\
     JikanAPI.cache a' = (rest ++ [(key, entry)])%list) /\
  ((List.length inserted <= 100)%nat -> JikanAPI.cache a' = inserted) /\
  (forall k t cached,
     JikanAPI.map_get k (JikanAPI.cache a) = Some cached ->
     t - CacheEntry.timestamp cached < JikanAPI.cacheTimeout ->
     snd (JikanAPI.getCachedData k t a) = a).
Proof.
  intros Hok entry inserted a'.
  pose proof (@cache_ok_setCachedData key data now a Hok) as Hok'.
  split; [apply Hok'|]. split; [exact Hok'|]. split; [|split].
  - intros Hover.
    destruct (@setCachedData_evicts key data now a Hok Hover) as [_ H]. exact H.
  - intros Hfit. apply setCachedData_fits. exact Hfit.
  - intros k t cached G Hfresh.
    rewrite (getCachedData_hit k t a G Hfresh). reflexivity.
Qed.

Lemma setCachedData_bounded_oldest_first_witness :
  JikanAPI.cache_ok (Samples.filled 2) /\
  JikanAPI.keys
    (JikanAPI.cache
       (JikanAPI.setCachedData "/genres/anime" Samples.genresPayload
          (Samples.t0 + 9000) (Samples.filled 2)))
  = ["/anime/1"; "/anime/2"; "/genres/anime"].
Proof.
  assert (H : JikanAPI.cache_ok (Samples.filled 2)).
  { split; [|simpl; lia].
    simpl. repeat constructor; simpl; intuition discriminate. }
  split; [exact H|].
  pose proof (@setCachedData_bounded_oldest_first "/genres/anime"
                Samples.genresPayload (Samples.t0 + 9000) (Samples.filled 2) H)
    as [_ [_ [_ [Hfit _]]]].
  rewrite Hfit; [reflexivity | simpl; lia].
Defined.

(** The hundred-and-first insertion: [/anime/1], the oldest, goes; the
    rest keep their order and the new key is last. *)
Example setCachedData_at_capacity :
  let full := Samples.filled 100 in
  let a' := JikanAPI.setCachedData "/genres/anime" Samples.genresPayload
              (Samples.t0 + 300000) full in
  List.length (JikanAPI.cache full) = 100%nat /\
  List.length (JikanAPI.cache a') = 100%nat /\
  JikanAPI.keys (JikanAPI.cache a')
  = (tl (JikanAPI.keys (JikanAPI.cache full)) ++ ["/genres/anime"])%list /\
  hd_error (JikanAPI.keys (JikanAPI.cache full)) = Some "/anime/1" /\
  hd_error (JikanAPI.keys (JikanAPI.cache a')) = Some "/anime/2".
Proof. vm_compute. repeat split. Qed.

(* ===================================================================== *)
(** * Properties of request *)
(* ===================================================================== *)

Section RequestProperties.

Import JikanAPI.

Lemma with_api_same (w : World) : with_api (api w) w = w.
Proof. destruct w; reflexivity. Qed.

Lemma lastRequestTime_getCachedData (key : string) (now : Z) (a : t) :
  lastRequestTime (snd (getCachedData key now a)) = lastRequestTime a.
Proof.
  unfold getCachedData. destruct (map_get key (cache a)) as [cached|];
    [destruct (now - CacheEntry.timestamp cached <? cacheTimeout)|];
    reflexivity.
Qed.

(** The throttle looks at [lastRequestTime] only. *)
Lemma resumedAt_lastRequestTime (now : Z) (jitter : N) (a b : t) :
  lastRequestTime a = lastRequestTime b ->
  resumedAt now jitter a = resumedAt now jitter b.
Proof. intros E. unfold resumedAt, throttle. rewrite E. reflexivity. Qed.

(** A call never resumes before it was made. *)
Lemma resumedAt_ge (now : Z) (jitter : N) (a : t) :
  now <= resumedAt now jitter a.
Proof.
  unfold resumedAt.
  destruct (throttle now a) as [ms|]; [|lia].
  unfold timeoutDelay. lia.
Qed.

(** A delay that fits 32 bits is taken as it is. *)
Lemma timeoutDelay_small (ms : Z) :
  0 <= ms <= 2147483647 -> timeoutDelay ms = ms.
Proof.
  intros H. unfold timeoutDelay, toInt32.
  rewrite Z.mod_small by lia. lia.
Qed.

(** Without the cache [request] is: fetch, and turn the outcome into a
    result. *)
Lemma request_uncached (endpoint : string) (env : Env) (w : World) :
  request endpoint false env w
  = (networkResult endpoint (outcome env),
     dispatch (resumedAt (now env) (jitter env) (api w))
              (baseURL ++ endpoint) w).
Proof.
  unfold request, request_try, rateLimitedRequest, networkResult.
  destruct (outcome env) as [m|status statusText body]; cbn [andb];
    [reflexivity|].
  destruct (ok status); cbn [negb]; [|reflexivity].
  destruct body; reflexivity.
Qed.

(** With the cache, a truthy [cached.data] is the answer. *)
Lemma request_cached_hit (endpoint : string) (env : Env) (w : World) :
  truthy (fst (getCachedData endpoint (now env) (api w))) = true ->
  request endpoint true env w
  = (succeeded (fst (getCachedData endpoint (now env) (api w))),
     with_api (snd (getCachedData endpoint (now env) (api w))) w).
Proof.
  intros H. unfold request, request_try.
  destruct (getCachedData endpoint (now env) (api w)) as [cachedData a].
  cbn [fst snd] in *. rewrite H. reflexivity.
Qed.

(** With the cache, after a miss: fetch, and store a truthy body. *)
Lemma request_cached_miss (endpoint : string) (env : Env) (w : World) :
  truthy (fst (getCachedData endpoint (now env) (api w))) = false ->
  request endpoint true env w
  = (networkResult endpoint (outcome env),
     let w1 :=
       dispatch (resumedAt (now env) (jitter env) (api w))
                (baseURL ++ endpoint)
                (with_api (snd (getCachedData endpoint (now env) (api w))) w) in
     match outcome env with
     | Response status _ (Json data) =>
         if ok status && truthy data then
           with_api (setCachedData endpoint data (completedAt env (api w))
                       (api w1)) w1
         else w1
     | _ => w1
     end).
Proof.
  intros H. unfold request, request_try, completedAt.
  pose proof (lastRequestTime_getCachedData endpoint (now env) (api w)) as HL.
  destruct (getCachedData endpoint (now env) (api w)) as [cachedData a].
  cbn [fst snd] in *. rewrite H.
  unfold rateLimitedRequest, networkResult.
  rewrite (@resumedAt_lastRequestTime (now env) (jitter env)
             (api (with_api a w)) (api w)) by exact HL.
  destruct (outcome env) as [m|status statusText [m|data]]; [reflexivity| |].
  - destruct (ok status); reflexivity.
  - destruct (ok status); cbn [negb andb]; [|reflexivity].
    destruct (truthy data); reflexivity.
Qed.

(** Every operation of the client keeps the cache within capacity and
    its keys unique. *)
Lemma cache_ok_request (endpoint : string) (useCache : bool) (env : Env)
    (w : World) :
  cache_ok (api w) -> cache_ok (api (snd (request endpoint useCache env w))).
Proof.
  intros Hok. destruct useCache.
  - pose proof (@cache_ok_getCachedData endpoint (now env) (api w) Hok) as Hget.
    destruct (truthy (fst (getCachedData endpoint (now env) (api w)))) eqn:T.
    + rewrite request_cached_hit by exact T. exact Hget.
    + rewrite request_cached_miss by exact T. cbn [snd].
      set (w1 := dispatch _ _ _).
      assert (H1 : cache_ok (api w1)) by exact Hget.
      destruct (outcome env) as [m|status statusText [m|data]]; try exact H1.
      destruct (ok status && truthy data); [|exact H1].
      apply cache_ok_setCachedData. exact H1.
  - rewrite request_uncached. exact Hok.
Qed.

End RequestProperties.

(** C2, as stated, fails in two ways.

    A body that is valid JSON but falsy is not cached: the genres endpoint
    answers 200 with the body [null]; the request succeeds; the same
    request 700 ms later goes to the network again.

    An entry can be evicted before it expires: the pages of anime 1 to 101
    are requested one every two seconds; the request for anime 1, repeated
    202 seconds after its answer was stored, goes to the network again. *)
Lemma request_twice_within_window_refetches :
  (let w := Samples.idleClient 0 in
   let env1 := Samples.callAt Samples.t0
                 (JikanAPI.Response 200 "OK" (JikanAPI.Json JNull)) in
   let env2 := Samples.callAt (Samples.t0 + 700)
                 (JikanAPI.Response 200 "OK" (JikanAPI.Json JNull)) in
   let first := JikanAPI.request "/genres/anime" true env1 w in
   let second := JikanAPI.request "/genres/anime" true env2 (snd first) in
   fst first = JikanAPI.succeeded JNull /\
   JikanAPI.now env2 - JikanAPI.completedAt env1 (JikanAPI.api w)
     < JikanAPI.cacheTimeout /\
   JikanAPI.fetched (snd first)
   = [(Samples.t0, "https://api.jikan.moe/v4/genres/anime")] /\
   JikanAPI.fetched (snd second)
   = [(Samples.t0, "https://api.jikan.moe/v4/genres/anime");
      (Samples.t0 + 1003, "https://api.jikan.moe/v4/genres/anime")]) /\
  (let w := Samples.browsed 101 in
   let env := Samples.callAt (Samples.t0 + 204000)
                (JikanAPI.Response 200 "OK" (JikanAPI.Json (Samples.page 1))) in
   let again := JikanAPI.request "/anime/1" true env w in
   hd_error (JikanAPI.fetched w)
   = Some (Samples.t0 + 2000, "https://api.jikan.moe/v4/anime/1") /\
   List.length (JikanAPI.fetched w) = 101%nat /\
   JikanAPI.now env - (Samples.t0 + 2000 + 200) < JikanAPI.cacheTimeout /\
   JikanAPI.map_get "/anime/1" (JikanAPI.cache (JikanAPI.api w)) = None /\
   nth_error (JikanAPI.fetched (snd again)) 101
   = Some (Samples.t0 + 204000, "https://api.jikan.moe/v4/anime/1")).
Proof.
  split; vm_compute; repeat split.
Qed.

(** C2, amended. Take a client whose cache is within capacity and a
    request with caching enabled that is not served from the cache and is
    answered 2xx with a truthy JSON body [d].  It returns [d], has made one
    fetch and has stored [d] under the endpoint.  As long as that entry is
    in the cache, a request for the same endpoint made less than
    [cacheTimeout] after the body was stored returns [d], makes no fetch
    and changes nothing; made [cacheTimeout] or more after, its lookup
    removes the entry and it makes a fetch. *)
Theorem request_twice_cached_within_window
    (endpoint : string) (env1 env2 : JikanAPI.Env) (w : JikanAPI.World)
    (status : Z) (statusText : string) (d : jsval) :
  (List.length (JikanAPI.cache (JikanAPI.api w)) <= 100)%nat ->
  truthy (fst (JikanAPI.getCachedData endpoint (JikanAPI.now env1)
                 (JikanAPI.api w))) = false ->
  JikanAPI.outcome env1 = JikanAPI.Response status statusText (JikanAPI.Json d) ->
  JikanAPI.ok status = true ->
  truthy d = true ->
  let url := JikanAPI.baseURL ++ endpoint in
  let stored := JikanAPI.completedAt env1 (JikanAPI.api w) in
  let entry := {| CacheEntry.data := d; CacheEntry.timestamp := stored |} in
  let first := JikanAPI.request endpoint true env1 w in
  fst first = JikanAPI.succeeded d /\
  JikanAPI.fetched (snd first)
  = (JikanAPI.fetched w
     ++ [(JikanAPI.resumedAt (JikanAPI.now env1) (JikanAPI.jitter env1)
            (JikanAPI.api w), url)])%list /\
  JikanAPI.map_get endpoint (JikanAPI.cache (JikanAPI.api (snd first)))
  = Some entry /\
  (forall w2 : JikanAPI.World,
     JikanAPI.map_get endpoint (JikanAPI.cache (JikanAPI.api w2)) = Some entry ->
     (JikanAPI.now env2 - stored < JikanAPI.cacheTimeout ->
      JikanAPI.request endpoint true env2 w2 = (JikanAPI.succeeded d, w2)) /\
     (JikanAPI.cacheTimeout <= JikanAPI.now env2 - stored ->
      JikanAPI.map_get endpoint
        (JikanAPI.cache
           (snd (JikanAPI.getCachedData endpoint (JikanAPI.now env2)
                   (JikanAPI.api w2)))) = None /\
      JikanAPI.fetched (snd (JikanAPI.request endpoint true env2 w2))
      = (JikanAPI.fetched w2
         ++ [(JikanAPI.resumedAt (JikanAPI.now env2) (JikanAPI.jitter env2)
                (JikanAPI.api w2), url)])%list)).
Proof.
  intros Hlen Hmiss Hout Hok Hd url stored entry first.
  subst first.
  rewrite (request_cached_miss endpoint env1 w Hmiss).
  rewrite Hout, Hok, Hd. cbn [andb fst snd].
  set (a1 := snd (JikanAPI.getCachedData endpoint (JikanAPI.now env1)
                    (JikanAPI.api w))).
  set (w0 := JikanAPI.dispatch _ _ (JikanAPI.with_api a1 w)).
  split; [unfold JikanAPI.networkResult; rewrite Hok; reflexivity|].
  split; [reflexivity|]. split.
  - (* the entry the first request stored *)
    cbn [JikanAPI.api JikanAPI.with_api].
    apply map_get_setCachedData.
    subst w0 a1. cbn [JikanAPI.api JikanAPI.dispatch JikanAPI.cache JikanAPI.with_api].
    unfold JikanAPI.getCachedData.
    pose proof (map_delete_length endpoint (JikanAPI.cache (JikanAPI.api w))).
    destruct (JikanAPI.map_get endpoint (JikanAPI.cache (JikanAPI.api w)))
      as [cached|];
      [destruct (JikanAPI.now env1 - CacheEntry.timestamp cached
                 <? JikanAPI.cacheTimeout)|];
      cbn [snd JikanAPI.cache]; lia.
  - intros w2 Hget. split.
    + intros Hfresh.
      pose proof (@getCachedData_hit endpoint (JikanAPI.now env2)
                    (JikanAPI.api w2) _ Hget Hfresh) as Hhit.
      cbn [CacheEntry.data] in Hhit.
      rewrite request_cached_hit; rewrite Hhit; cbn [fst snd]; [|exact Hd].
      rewrite with_api_same. reflexivity.
    + intros Hold.
      pose proof (@getCachedData_expired endpoint (JikanAPI.now env2)
                    (JikanAPI.api w2) _ Hget Hold) as Hexp.
      split.
      * rewrite Hexp. cbn [snd JikanAPI.cache]. apply map_get_delete_same.
      * rewrite request_cached_miss by (rewrite Hexp; reflexivity).
        cbn [snd].
        destruct (JikanAPI.outcome env2) as [m|st2 tx2 [m|d2]];
          [reflexivity|reflexivity|].
        destruct (JikanAPI.ok st2 && truthy d2); reflexivity.
Qed.

Lemma request_twice_cached_within_window_witness :
  let w := Samples.idleClient 0 in
  let env1 := Samples.callAt Samples.t0
                (JikanAPI.Response 200 "OK" (JikanAPI.Json Samples.genresPayload)) in
  let env2 := Samples.callAt (Samples.t0 + 299999)
                (JikanAPI.NetworkError "Failed to fetch") in
  let w1 := snd (JikanAPI.request "/genres/anime" true env1 w) in
  JikanAPI.request "/genres/anime" true env2 w1
  = (JikanAPI.succeeded Samples.genresPayload, w1).
Proof.
  intros w env1 env2 w1.
  assert (Hlen : (List.length (JikanAPI.cache (JikanAPI.api w)) <= 100)%nat)
    by (simpl; lia).
  assert (Hmiss : truthy (fst (JikanAPI.getCachedData "/genres/anime"
                                 (JikanAPI.now env1) (JikanAPI.api w))) = false)
    by reflexivity.
  destruct (@request_twice_cached_within_window "/genres/anime" env1 env2 w
              200 "OK" Samples.genresPayload Hlen Hmiss eq_refl eq_refl eq_refl)
    as [_ [_ [Hentry Hsecond]]].
  destruct (Hsecond w1 Hentry) as [Hhit _].
  apply Hhit. vm_compute. reflexivity.
Defined.

(** C3, as stated, fails for a 2xx response whose body is not JSON: the
    answer is 200 with an HTML page, [response.json()] rejects, and the
    result is a failure. *)
Lemma request_2xx_unparsable_body_fails :
  let env := Samples.callAt Samples.t0
               (JikanAPI.Response 200 "OK"
                  (JikanAPI.BadJson "Unexpected token < in JSON at position 0")) in
  JikanAPI.ok 200 = true /\
  Result.success
    (fst (JikanAPI.request "/genres/anime" true env (Samples.idleClient 0)))
  = false.
Proof. vm_compute. split; reflexivity. Qed.

(** C3, amended. [request] always returns a result.  Served from the cache
    (caching enabled and a truthy cached payload) the result is a success
    carrying that payload.  Otherwise it is made from the way the fetch
    ended: a 2xx response whose body parses yields a success carrying the
    body; a non-2xx response, a transport error and a 2xx response whose
    body does not parse each yield a failure carrying the error's message
    and the endpoint.  So every result is either a success with data or a
    failure with a message and the endpoint. *)
Theorem request_returns_tagged_result
    (endpoint : string) (useCache : bool) (env : JikanAPI.Env)
    (w : JikanAPI.World) :
  let cachedData :=
    fst (JikanAPI.getCachedData endpoint (JikanAPI.now env) (JikanAPI.api w)) in
  let r := fst (JikanAPI.request endpoint useCache env w) in
  r = (if useCache && truthy cachedData then JikanAPI.succeeded cachedData
       else
         match JikanAPI.outcome env with
         | JikanAPI.NetworkError message =>
             JikanAPI.failed message (Some endpoint)
         | JikanAPI.Response status statusText body =>
             if JikanAPI.ok status then
               match body with
               | JikanAPI.Json data => JikanAPI.succeeded data
               | JikanAPI.BadJson message =>
                   JikanAPI.failed message (Some endpoint)
               end
             else
               JikanAPI.failed
                 ("HTTP " ++ numberToString status ++ ": " ++ statusText)
                 (Some endpoint)
         end) /\
  ((Result.success r = true /\
    exists data, r = {| Result.success := true; Result.data := Some data;
                        Result.error := None; Result.endpoint := None |}) \/
   (Result.success r = false /\
    exists message, r = {| Result.success := false; Result.data := None;
                           Result.error := Some message;
                           Result.endpoint := Some endpoint |})).
Proof.
  intros cachedData r.
  assert (Hr : r = if useCache && truthy cachedData
                   then JikanAPI.succeeded cachedData
                   else JikanAPI.networkResult endpoint (JikanAPI.outcome env)).
  { subst r. destruct useCache; cbn [andb].
    - destruct (truthy cachedData) eqn:T; subst cachedData.
      + rewrite request_cached_hit by exact T. reflexivity.
      + rewrite request_cached_miss by exact T. reflexivity.
    - rewrite request_uncached. reflexivity. }
  split; [exact Hr|].
  rewrite Hr. destruct (useCache && truthy cachedData).
  - left. split; [reflexivity|]. eexists. reflexivity.
  - unfold JikanAPI.networkResult.
    destruct (JikanAPI.outcome env) as [m|status statusText [m|data]].
    + right. split; [reflexivity|]. eexists. reflexivity.
    + right. destruct (JikanAPI.ok status);
        (split; [reflexivity|]; eexists; reflexivity).
    + destruct (JikanAPI.ok status).
      * left. split; [reflexivity|]. eexists. reflexivity.
      * right. split; [reflexivity|]. eexists. reflexivity.
Qed.

(** An answer 404 becomes the message "HTTP 404: Not Found". *)
Example request_404 :
  fst (JikanAPI.request "/anime/0" true
         (Samples.callAt Samples.t0
            (JikanAPI.Response 404 "Not Found"
               (JikanAPI.Json (JObj [("status", JNum (inject_Z 404))]))))
         (Samples.idleClient 0))
  = {| Result.success := false; Result.data := None;
       Result.error := Some "HTTP 404: Not Found";
       Result.endpoint := Some "/anime/0" |}.
Proof. reflexivity. Qed.

(** C8. [searchAnime] and [getRandomAnime] never use the cache.  For every
    state of the client, a search with a blank query returns a failure and
    touches nothing; any other search, and every call of [getRandomAnime],
    makes a fetch, returns what that fetch yields -- the same in every
    state of the cache -- and leaves the cache as it was. *)
Theorem search_and_random_bypass_cache
    (query : string) (page limit : Z) (env : JikanAPI.Env)
    (w : JikanAPI.World) :
  let blank := ((query =? "")%string
                || (String.length (trim query) =? 0)%nat)%bool in
  let endpoint :=
    "/anime?q=" ++ encodeURIComponent (trim query)
    ++ "&page=" ++ numberToString page
    ++ "&limit=" ++ numberToString limit
    ++ "&order_by=score&sort=desc" in
  let sent := JikanAPI.resumedAt (JikanAPI.now env) (JikanAPI.jitter env)
                (JikanAPI.api w) in
  let searched := JikanAPI.searchAnime query page limit env w in
  let random := JikanAPI.getRandomAnime env w in
  (* searchAnime *)
  JikanAPI.cache (JikanAPI.api (snd searched)) = JikanAPI.cache (JikanAPI.api w) /\
  fst searched
  = (if blank then JikanAPI.failed "Search query is required" None
     else JikanAPI.networkResult endpoint (JikanAPI.outcome env)) /\
  JikanAPI.fetched (snd searched)
  = (if blank then JikanAPI.fetched w
     else (JikanAPI.fetched w
           ++ [(sent, (JikanAPI.baseURL ++ endpoint)%string)])%list) /\
  (forall w', fst (JikanAPI.searchAnime query page limit env w') = fst searched) /\
  (* getRandomAnime *)
  JikanAPI.cache (JikanAPI.api (snd random)) = JikanAPI.cache (JikanAPI.api w) /\
  fst random = JikanAPI.networkResult "/random/anime" (JikanAPI.outcome env) /\
  JikanAPI.fetched (snd random)
  = (JikanAPI.fetched w
     ++ [(sent, (JikanAPI.baseURL ++ "/random/anime")%string)])%list /\
  (forall w', fst (JikanAPI.getRandomAnime env w') = fst random).
Proof.
  intros blank endpoint sent searched random.
  subst searched random. unfold JikanAPI.searchAnime, JikanAPI.getRandomAnime.
  fold blank. fold endpoint. rewrite !request_uncached.
  repeat split.
  - destruct blank; reflexivity.
  - destruct blank; reflexivity.
  - destruct blank; reflexivity.
  - intros w'. rewrite request_uncached. destruct blank; reflexivity.
  - intros w'. rewrite request_uncached. reflexivity.
Qed.

(** Even with an entry under its very key, [getRandomAnime] fetches,
    returns what the network sent, and leaves the entry alone. *)
Example getRandomAnime_ignores_cache :
  let env := Samples.callAt (Samples.t0 + 5000)
               (JikanAPI.Response 200 "OK" (JikanAPI.Json (Samples.page 20))) in
  let r := JikanAPI.getRandomAnime env Samples.staleRandom in
  JikanAPI.getCachedData "/random/anime" (Samples.t0 + 5000)
    (JikanAPI.api Samples.staleRandom)
  = (JStr "stale", JikanAPI.api Samples.staleRandom) /\
  fst r = JikanAPI.succeeded (Samples.page 20) /\
  JikanAPI.fetched (snd r)
  = [(Samples.t0 + 5000, "https://api.jikan.moe/v4/random/anime")] /\
  JikanAPI.cache (JikanAPI.api (snd r))
  = JikanAPI.cache (JikanAPI.api Samples.staleRandom).
Proof. vm_compute. repeat split. Qed.

(* ===================================================================== *)
(** * Properties of the throttle *)
(* ===================================================================== *)

(** C1 fails on the code.  On the detail page two calls are made in the
    same turn, 300 ms after a fetch.  Both read the same [lastRequestTime],
    both sleep 700 ms, and both fetch at the same millisecond. *)
Theorem rateLimiter_overlapping_calls_collide :
  exists l,
    JikanAPI.run (JikanAPI.boot Samples.t0) Samples.detailPageBurst = Some l /\
    JikanAPI.timers l = [] /\
    JikanAPI.fetched (JikanAPI.world l)
    = [ (Samples.t0, "https://api.jikan.moe/v4/anime/20/full");
        (Samples.t0 + 1000, "https://api.jikan.moe/v4/anime/20/characters");
        (Samples.t0 + 1000, "https://api.jikan.moe/v4/anime/20/recommendations") ] /\
    JikanAPI.spaced (JikanAPI.fetched (JikanAPI.world l)) = false.
Proof.
  eexists. split; [vm_compute; reflexivity|].
  vm_compute. repeat split.
Qed.

Section Throttle.

Import JikanAPI.

Lemma spaced_snoc (log : list (Z * string)) (t : Z) (url : string) :
  spaced log = true ->
  (forall e, In e log -> fst e + rateLimitDelay <= t) ->
  spaced (log ++ [(t, url)])%list = true.
Proof.
  induction log as [|[t1 u1] rest IH]; intros Hs Hall; [reflexivity|].
  destruct rest as [|[t2 u2] rest'].
  - simpl. rewrite andb_true_r. apply Z.leb_le.
    specialize (Hall (t1, u1) (or_introl eq_refl)). simpl in Hall. lia.
  - change (spaced ((t1, u1) :: ((t2, u2) :: rest') ++ [(t, url)])%list = true).
    change (spaced ((t1, u1) :: (t2, u2) :: rest') = true) in Hs.
    cbn [spaced] in Hs. apply andb_true_iff in Hs as [H12 Hrest].
    cbn [spaced app]. apply andb_true_iff. split; [exact H12|].
    apply IH; [exact Hrest|].
    intros e He. apply Hall. right. exact He.
Qed.

Lemma throttled_dispatch (l : Loop) (t : Z) (url : string) :
  throttled l ->
  (fetched (world l) <> [] ->
   lastRequestTime (api (world l)) + rateLimitDelay <= t) ->
  throttled {| world := dispatch t url (world l); clock := t; timers := [] |}.
Proof.
  intros [Hs [Hle _]] Ht. unfold rateLimitDelay in *.
  assert (Hlater : forall e, In e (fetched (world l)) -> fst e + 1000 <= t).
  { intros e He. specialize (Hle e He).
    assert (Hne : fetched (world l) <> []) by (intros E; rewrite E in He; exact He).
    specialize (Ht Hne). lia. }
  split; [|split; [|split]];
    cbn [world clock timers dispatch fetched api lastRequestTime].
  - apply spaced_snoc; [exact Hs|].
    intros e He. specialize (Hlater e He). unfold rateLimitDelay. lia.
  - intros e He. apply in_app_or in He as [He|[He|[]]].
    + specialize (Hlater e He). lia.
    + subst e. simpl. lia.
  - simpl. lia.
  - intros _. split; [lia | intros due u []].
Qed.

Lemma Some_eq {A : Type} (x y : A) : Some x = Some y -> x = y.
Proof. congruence. Qed.

Lemma throttled_step (l l' : Loop) (e : Event) :
  throttled l ->
  match e, timers l with Invoke _ _, _ :: _ => False | _, _ => True end ->
  step l e = Some l' ->
  throttled l'.
Proof.
  intros Hinv Hseq Hstep. pose proof Hinv as [Hs [Hle [Hone Hdue]]].
  destruct e as [t url|t i]; unfold step in Hstep.
  - destruct (timers l) as [|x xs] eqn:Htimers; [|contradiction].
    destruct (t <? clock l) eqn:Hclock; [discriminate|].
    apply Z.ltb_ge in Hclock.
    unfold throttle in Hstep.
    destruct (t - lastRequestTime (api (world l)) <? rateLimitDelay) eqn:E;
      apply Some_eq in Hstep; subst l'.
    + apply Z.ltb_lt in E.
      remember (rateLimitDelay - (t - lastRequestTime (api (world l))))
        as ms eqn:Hms.
      split; [|split; [|split]]; cbn [world clock timers app]; try assumption.
      * cbn [List.length]. lia.
      * intros Hne. destruct (Hdue Hne) as [Hlast _].
        split; [lia|].
        intros due u [H|[]].
        assert (Hd : t + timeoutDelay ms = due) by congruence.
        unfold rateLimitDelay in *.
        rewrite timeoutDelay_small in Hd by lia. lia.
    + apply Z.ltb_ge in E.
      apply (throttled_dispatch url Hinv). intros _. lia.
  - destruct (t <? clock l); [discriminate|].
    destruct (nth_error (timers l) i) as [[due url]|] eqn:Hnth; [|discriminate].
    destruct (t <? due) eqn:E; [discriminate|].
    apply Some_eq in Hstep; subst l'.
    apply Z.ltb_ge in E.
    assert (Hin : In (due, url) (timers l)) by (eapply nth_error_In; eassumption).
    assert (Hgone : remove_nth i (timers l) = []).
    { destruct (timers l) as [|x [|y ys]]; [destruct i; reflexivity| |simpl in Hone; lia].
      destruct i as [|[|j]]; simpl in Hnth; try discriminate; reflexivity. }
    rewrite Hgone.
    apply (throttled_dispatch url Hinv).
    intros Hne. destruct (Hdue Hne) as [_ Hlate].
    specialize (Hlate due url Hin). lia.
Qed.

Lemma throttled_run (events : list Event) :
  forall l l',
    throttled l ->
    sequential l events = true ->
    run l events = Some l' ->
    throttled l'.
Proof.
  induction events as [|e rest IH]; intros l l' Hinv Hseq Hrun.
  - inversion Hrun; subst. exact Hinv.
  - cbn [run] in Hrun. cbn [sequential] in Hseq.
    destruct (step l e) as [l1|] eqn:Hstep; [|discriminate].
    assert (Hnow : match e, timers l with
                   | Invoke _ _, _ :: _ => False | _, _ => True end).
    { destruct e; [destruct (timers l); [exact I|discriminate] | exact I]. }
    assert (Hrest : sequential l1 rest = true).
    { destruct e; [destruct (timers l); [exact Hseq|discriminate] | ].
      destruct (timers l); exact Hseq. }
    apply (IH l1 l' (throttled_step e Hinv Hnow Hstep) Hrest Hrun).
Qed.

Lemma throttled_boot (t0 : Z) : throttled (boot t0).
Proof.
  split; [reflexivity|]. split; [intros e []|].
  split; [simpl; lia | intros Hne; exfalso; apply Hne; reflexivity].
Qed.

(** A call that overlaps no other is [rateLimitedRequest]: made at
    [now] while no call is suspended, and resumed [jitter] milliseconds
    after its timer is due, it leaves the world that [rateLimitedRequest]
    computes. *)
Lemma rateLimitedRequest_as_events (l : Loop) (url : string) (now : Z)
    (jitter : N) :
  timers l = [] ->
  clock l <= now ->
  run l (Invoke now url
         :: match throttle now (api (world l)) with
            | Some ms => [Fire (now + timeoutDelay ms + Z.of_N jitter) 0]
            | None => []
            end)
  = Some {| world := snd (rateLimitedRequest url now jitter (world l));
            clock := fst (rateLimitedRequest url now jitter (world l));
            timers := [] |}.
Proof.
  intros Htimers Hclock.
  unfold rateLimitedRequest, resumedAt. cbn [fst snd run step].
  assert (Hnow : (now <? clock l) = false) by (apply Z.ltb_ge; exact Hclock).
  rewrite Hnow.
  destruct (throttle now (api (world l))) as [ms|] eqn:Hthrottle.
  - assert (Hms : 0 <= timeoutDelay ms) by (unfold timeoutDelay; lia).
    cbn [run step world clock timers]. rewrite Htimers. cbn [app nth_error].
    assert (H1 : (now + timeoutDelay ms + Z.of_N jitter <? now) = false)
      by (apply Z.ltb_ge; lia).
    assert (H2 : (now + timeoutDelay ms + Z.of_N jitter
                  <? now + timeoutDelay ms) = false)
      by (apply Z.ltb_ge; lia).
    rewrite H1, H2. reflexivity.
  - rewrite Htimers. reflexivity.
Qed.

End Throttle.

(** X22. Calls that do not overlap are throttled: starting from a new client,
    when every call is made while no other call is suspended, every two
    consecutive fetches are at least [rateLimitDelay] apart. *)
Theorem rateLimiter_sequential_calls_spaced
    (t0 : Z) (events : list JikanAPI.Event) (l : JikanAPI.Loop) :
  JikanAPI.sequential (JikanAPI.boot t0) events = true ->
  JikanAPI.run (JikanAPI.boot t0) events = Some l ->
  JikanAPI.spaced (JikanAPI.fetched (JikanAPI.world l)) = true.
Proof.
  intros Hseq Hrun.
  apply (throttled_run events (throttled_boot t0) Hseq Hrun).
Qed.

(* ===================================================================== *)
(** * Properties of the recommendations section *)
(* ===================================================================== *)

Section Fallbacks.

Import AnimeDetailPage.

Lemma showFallbackRecommendations_children (v : View) :
  children (showFallbackRecommendations v) = staticFallback.
Proof. reflexivity. Qed.

Lemma showFallbackRecommendations_requests (v : View) :
  requests (showFallbackRecommendations v) = requests v.
Proof. reflexivity. Qed.


End Fallbacks.



(** With only the recommendations endpoint down, the section shows the
    anime of the first genre. *)
Example recommendations_genre_fallback :
  AnimeDetailPage.loadRecommendations Samples.narutoPage
    Samples.noRecommendationsOnly true Samples.spinner
  = {| AnimeDetailPage.children :=
         [ AnimeDetailPage.Col Samples.deathNote;
           AnimeDetailPage.Col Samples.naruto;
           AnimeDetailPage.GenreMessage "Action" ];
       AnimeDetailPage.requests :=
         [ AnimeDetailPage.GetAnimeRecommendations (JStr "20");
           AnimeDetailPage.GetAnimeByGenre (JNum (inject_Z 1)) 1 6 ] |}.
Proof. reflexivity. Qed.


(* ===================================================================== *)
(** * More properties of Storage *)
(* ===================================================================== *)

Section FavoritesProperties.

Import Storage.

Lemma strict_eq_sym (a b : jsval) : strict_eq a b = strict_eq b a.
Proof.
  destruct a, b; simpl; try reflexivity.
  - destruct b, b0; reflexivity.
  - apply Qeq_bool_comm.
  - apply String.eqb_sym.
Qed.

Lemma existsb_false_filter {A : Type} (f : A -> bool) (l : list A) :
  existsb f l = false -> filter (fun x => negb (f x)) l = l.
Proof.
  induction l as [|x l IH]; simpl; [reflexivity|].
  intros H. apply orb_false_iff in H as [Hx Hl].
  rewrite Hx. simpl. f_equal. apply IH. exact Hl.
Qed.

Lemma existsb_filter_negb {A : Type} (f : A -> bool) (l : list A) :
  existsb f (filter (fun x => negb (f x)) l) = false.
Proof.
  induction l as [|x l IH]; simpl; [reflexivity|].
  destruct (f x) eqn:E; simpl; [exact IH|]. rewrite E. exact IH.
Qed.

Lemma existsb_removelast {A : Type} (f : A -> bool) (l : list A) :
  existsb f l = false -> existsb f (removelast l) = false.
Proof.
  induction l as [|x l IH]; [reflexivity|].
  destruct l as [|y l]; [reflexivity|].
  change (removelast (x :: y :: l)) with (x :: removelast (y :: l)).
  intros H. change (f x || existsb f (y :: l) = false) in H.
  apply orb_false_iff in H as [Hx Hl].
  change (f x || existsb f (removelast (y :: l)) = false).
  rewrite Hx, (IH Hl). reflexivity.
Qed.

Lemma existsb_filter_sub {A : Type} (f g : A -> bool) (l : list A) :
  existsb f l = false -> existsb f (filter g l) = false.
Proof.
  induction l as [|x l IH]; simpl; [reflexivity|].
  intros H. apply orb_false_iff in H as [Hx Hl].
  destruct (g x); simpl; [rewrite Hx|]; apply IH; exact Hl.
Qed.

Lemma distinctIds_removelast (favorites : list Favorite.t) :
  distinctIds favorites = true -> distinctIds (removelast favorites) = true.
Proof.
  induction favorites as [|x l IH]; [reflexivity|].
  destruct l as [|y l]; [reflexivity|].
  change (removelast (x :: y :: l)) with (x :: removelast (y :: l)).
  intros H. cbn [distinctIds] in H. apply andb_true_iff in H as [Hx Hl].
  cbn [distinctIds]. apply andb_true_iff. split; [|apply IH; exact Hl].
  apply negb_true_iff. apply negb_true_iff in Hx.
  apply existsb_removelast. exact Hx.
Qed.

Lemma distinctIds_filter (g : Favorite.t -> bool) (favorites : list Favorite.t) :
  distinctIds favorites = true -> distinctIds (filter g favorites) = true.
Proof.
  induction favorites as [|x l IH]; [reflexivity|].
  intros H. cbn [distinctIds] in H. apply andb_true_iff in H as [Hx Hl].
  cbn [filter]. destruct (g x); [|apply IH; exact Hl].
  cbn [distinctIds]. apply andb_true_iff. split; [|apply IH; exact Hl].
  apply negb_true_iff. apply negb_true_iff in Hx.
  apply existsb_filter_sub. exact Hx.
Qed.

(** What [addFavorite] stores when it adds. *)
Lemma addFavorite_new (anime : Anime.t) (now : string) (ls : LocalStorage) :
  isFavorite (Anime.mal_id anime) ls = false ->
  getFavorites (snd (addFavorite anime now true ls))
  = (if (100 <? S (List.length (getFavorites ls)))%nat
     then removelast (favoriteData anime now :: getFavorites ls)
     else favoriteData anime now :: getFavorites ls) /\
  fst (addFavorite anime now true ls) = true.
Proof.
  unfold isFavorite, addFavorite. intros Hnot.
  destruct (find _ (getFavorites ls)) as [fav|] eqn:Hfind.
  - apply find_some in Hfind as [Hin Heq].
    assert (Hex : existsb (fun fav => strict_eq (Favorite.mal_id fav)
                                        (Anime.mal_id anime))
                    (getFavorites ls) = true).
    { apply existsb_exists. exists fav. split; assumption. }
    cbv zeta in Hnot. congruence.
  - unfold set. cbn [fst snd]. rewrite getFavorites_setItem.
    split; reflexivity.
Qed.

(** What [addFavorite] does when the identifier is there already. *)
Lemma addFavorite_old (anime : Anime.t) (now : string) (setItem_ok : bool)
    (ls : LocalStorage) :
  isFavorite (Anime.mal_id anime) ls = true ->
  addFavorite anime now setItem_ok ls = (false, ls).
Proof.
  unfold isFavorite, addFavorite. cbv zeta. intros Hwas.
  destruct (find _ (getFavorites ls)) as [fav|] eqn:Hfind; [reflexivity|].
  apply existsb_exists in Hwas as [fav [Hin Heq]].
  pose proof (find_none _ _ Hfind fav Hin) as Hno. simpl in Hno. congruence.
Qed.

End FavoritesProperties.

(** X1. A successful [removeFavorite] removes every entry whose identifier
    is strictly equal to the argument and nothing else, keeps the order of
    the rest, after it [isFavorite] answers [false], and doing it again
    changes nothing. *)
Theorem removeFavorite_removes_every_match
    (animeId : jsval) (ls : Storage.LocalStorage) :
  let ls' := snd (Storage.removeFavorite animeId true ls) in
  fst (Storage.removeFavorite animeId true ls) = true /\
  Storage.isFavorite animeId ls' = false /\
  Storage.getFavorites ls'
  = filter (fun fav => negb (strict_eq (Favorite.mal_id fav) animeId))
           (Storage.getFavorites ls) /\
  (forall other,
     Storage.isFavorite other ls' = true -> Storage.isFavorite other ls = true) /\
  snd (Storage.removeFavorite animeId true ls') = ls'.
Proof.
  cbv zeta. split; [reflexivity|]. split; [|split; [reflexivity|split]].
  - unfold Storage.isFavorite, Storage.removeFavorite, Storage.set.
    cbn [snd]. rewrite getFavorites_setItem.
    apply (existsb_filter_negb
             (fun fav => strict_eq (Favorite.mal_id fav) animeId)).
  - intros other. unfold Storage.isFavorite, Storage.removeFavorite, Storage.set.
    cbn [snd]. rewrite getFavorites_setItem.
    destruct (existsb (fun fav => strict_eq (Favorite.mal_id fav) other)
                (Storage.getFavorites ls)) eqn:E; [reflexivity|].
    intros H. rewrite existsb_filter_sub in H by exact E. discriminate.
  - apply removeFavorite_idempotent.
Qed.

(** X2. After a successful [addFavorite] of a record whose identifier is a
    primitive value (one that is strictly equal to itself), [isFavorite]
    answers [true] for that identifier -- whether the record was added or
    was there already. *)
Theorem addFavorite_then_isFavorite
    (anime : Anime.t) (now : string) (setItem_ok : bool)
    (ls : Storage.LocalStorage) :
  strict_eq (Anime.mal_id anime) (Anime.mal_id anime) = true ->
  setItem_ok = true ->
  Storage.isFavorite (Anime.mal_id anime)
    (snd (Storage.addFavorite anime now setItem_ok ls)) = true.
Proof.
  intros Hrefl Hok. subst setItem_ok.
  destruct (Storage.isFavorite (Anime.mal_id anime) ls) eqn:Hwas.
  - rewrite (addFavorite_old anime now true ls Hwas). exact Hwas.
  - destruct (addFavorite_new anime now ls Hwas) as [Hstored _].
    unfold Storage.isFavorite. cbv zeta. rewrite Hstored.
    destruct (100 <? S (List.length (Storage.getFavorites ls)))%nat eqn:Hover.
    + destruct (Storage.getFavorites ls) as [|y l]; [discriminate|].
      simpl. rewrite Hrefl. reflexivity.
    + simpl. rewrite Hrefl. reflexivity.
Qed.

Lemma addFavorite_then_isFavorite_witness :
  strict_eq (Anime.mal_id Samples.deathNote) (Anime.mal_id Samples.deathNote)
  = true /\
  Storage.isFavorite (Anime.mal_id Samples.deathNote)
    (snd (Storage.addFavorite Samples.deathNote Samples.tuesday true
            Samples.narutoStored)) = true.
Proof.
  split; [reflexivity|].
  apply (@addFavorite_then_isFavorite Samples.deathNote Samples.tuesday true
           Samples.narutoStored); reflexivity.
Defined.

(** X3. The favorites operations keep identifiers distinct: when no two
    stored favorites have strictly equal identifiers, the same holds after
    [addFavorite] and after [removeFavorite], whether the write goes
    through or not. *)
Theorem favorites_identifiers_stay_distinct
    (anime : Anime.t) (animeId : jsval) (now : string) (setItem_ok : bool)
    (ls : Storage.LocalStorage) :
  Storage.distinctIds (Storage.getFavorites ls) = true ->
  Storage.distinctIds
    (Storage.getFavorites (snd (Storage.addFavorite anime now setItem_ok ls)))
  = true /\
  Storage.distinctIds
    (Storage.getFavorites (snd (Storage.removeFavorite animeId setItem_ok ls)))
  = true.
Proof.
  intros Hd. split.
  - destruct (Storage.isFavorite (Anime.mal_id anime) ls) eqn:Hwas.
    + rewrite (addFavorite_old anime now setItem_ok ls Hwas). exact Hd.
    + destruct setItem_ok.
      * destruct (addFavorite_new anime now ls Hwas) as [Hstored _].
        rewrite Hstored.
        assert (Hnew : Storage.distinctIds
                         (Storage.favoriteData anime now :: Storage.getFavorites ls)
                       = true).
        { cbn [Storage.distinctIds]. rewrite Hd, andb_true_r.
          apply negb_true_iff. exact Hwas. }
        destruct (100 <? S (List.length (Storage.getFavorites ls)))%nat;
          [apply distinctIds_removelast|]; exact Hnew.
      * unfold Storage.addFavorite, Storage.set.
        destruct (find _ (Storage.getFavorites ls)); exact Hd.
  - unfold Storage.removeFavorite, Storage.set.
    destruct setItem_ok; cbn [snd]; [|exact Hd].
    rewrite getFavorites_setItem. apply distinctIds_filter. exact Hd.
Qed.

(** A new favorite added to a full list, and a stored one removed from
    it. *)
Lemma favorites_identifiers_stay_distinct_witness :
  Storage.distinctIds (Storage.getFavorites Samples.hundredFavorites) = true /\
  Storage.isFavorite (Anime.mal_id Samples.deathNote) Samples.hundredFavorites
  = false /\
  Storage.isFavorite (Anime.mal_id Samples.naruto) Samples.hundredFavorites
  = true /\
  Storage.distinctIds
    (Storage.getFavorites
       (snd (Storage.addFavorite Samples.deathNote Samples.tuesday true
               Samples.hundredFavorites)))
  = true /\
  Storage.distinctIds
    (Storage.getFavorites
       (snd (Storage.removeFavorite (Anime.mal_id Samples.naruto) true
               Samples.hundredFavorites)))
  = true.
Proof.
  assert (H : Storage.distinctIds (Storage.getFavorites Samples.hundredFavorites)
              = true) by (vm_compute; reflexivity).
  split; [exact H|].
  split; [vm_compute; reflexivity|].
  split; [vm_compute; reflexivity|].
  apply (@favorites_identifiers_stay_distinct Samples.deathNote
           (Anime.mal_id Samples.naruto) Samples.tuesday true
           Samples.hundredFavorites H).
Defined.

(** X4. Adding a favorite and removing it again gives back the stored list:
    for a record that is not a favorite, whose identifier is a primitive
    value, and a list of fewer than 100 entries, the favorites after a
    successful [addFavorite] followed by a successful [removeFavorite] of
    that identifier are the favorites before. *)
Theorem addFavorite_removeFavorite_roundtrip
    (anime : Anime.t) (now : string) (ls : Storage.LocalStorage) :
  Storage.isFavorite (Anime.mal_id anime) ls = false ->
  strict_eq (Anime.mal_id anime) (Anime.mal_id anime) = true ->
  (List.length (Storage.getFavorites ls) < 100)%nat ->
  Storage.getFavorites
    (snd (Storage.removeFavorite (Anime.mal_id anime) true
            (snd (Storage.addFavorite anime now true ls))))
  = Storage.getFavorites ls.
Proof.
  intros Hnot Hrefl Hlen.
  destruct (addFavorite_new anime now ls Hnot) as [Hstored _].
  unfold Storage.removeFavorite, Storage.set. cbn [snd].
  rewrite getFavorites_setItem, Hstored.
  assert (Hfits : (100 <? S (List.length (Storage.getFavorites ls)))%nat = false)
    by (apply Nat.ltb_ge; lia).
  rewrite Hfits. cbn [filter Favorite.mal_id Storage.favoriteData].
  rewrite Hrefl. cbn [negb].
  apply (existsb_false_filter
           (fun fav => strict_eq (Favorite.mal_id fav) (Anime.mal_id anime))).
  exact Hnot.
Qed.

Lemma addFavorite_removeFavorite_roundtrip_witness :
  Storage.getFavorites
    (snd (Storage.removeFavorite (Anime.mal_id Samples.deathNote) true
            (snd (Storage.addFavorite Samples.deathNote Samples.tuesday true
                    Samples.narutoStored))))
  = Storage.getFavorites Samples.narutoStored.
Proof.
  apply (@addFavorite_removeFavorite_roundtrip Samples.deathNote Samples.tuesday
           Samples.narutoStored); [reflexivity | reflexivity | simpl; lia].
Defined.

(** With an identifier that is an object the round trip fails: the entry
    added is never strictly equal to the argument, so it stays. *)
Example removeFavorite_object_identifier :
  let anime :=
    {| Anime.mal_id := JObj [("id", JNum (inject_Z 20))];
       Anime.title := JStr "Naruto"; Anime.title_english := JNull;
       Anime.images := JNull; Anime.score := JNull; Anime.year := JNull;
       Anime.type := JNull; Anime.status := JNull; Anime.episodes := JNull;
       Anime.synopsis := JNull; Anime.genres := JNull |} in
  List.length
    (Storage.getFavorites
       (snd (Storage.removeFavorite (Anime.mal_id anime) true
               (snd (Storage.addFavorite anime Samples.monday true
                       Samples.freshStorage)))))
  = 1%nat.
Proof. reflexivity. Qed.

Section HistoryProperties.

Lemma In_firstn {A : Type} (x : A) (n : nat) (l : list A) :
  In x (firstn n l) -> In x l.
Proof.
  revert n. induction l as [|y l IH]; intros n H.
  - rewrite firstn_nil in H. exact H.
  - destruct n; [destruct H|]. rewrite firstn_cons in H.
    destruct H as [E|H]; [left; exact E | right; apply (IH n H)].
Qed.

Lemma NoDup_firstn {A : Type} (n : nat) (l : list A) :
  NoDup l -> NoDup (firstn n l).
Proof.
  intros H. revert n. induction H as [|x l Hx Hl IH]; intros n.
  - destruct n; constructor.
  - destruct n; [constructor|]. rewrite firstn_cons. constructor; [|apply IH].
    intros Hin. apply Hx. apply (In_firstn _ _ _ Hin).
Qed.

Lemma NoDup_map_filter {A B : Type} (f : A -> B) (g : A -> bool) (l : list A) :
  NoDup (map f l) -> NoDup (map f (filter g l)).
Proof.
  induction l as [|x l IH]; simpl; [intros; constructor|].
  intros H. inversion H as [|? ? Hx Hl]; subst.
  destruct (g x); [|apply IH; exact Hl].
  simpl. constructor; [|apply IH; exact Hl].
  intros Hin. apply Hx. apply in_map_iff in Hin as [y [Hy Hiny]].
  apply in_map_iff. exists y. split; [exact Hy|].
  apply filter_In in Hiny. apply Hiny.
Qed.

End HistoryProperties.


(** X5. The search history never holds two entries with the same
    normalized term, nor more than 20 entries: when that holds of the
    stored history it holds after [addSearchTerm] with any term and after
    [clearSearchHistory], whether the write goes through or not. *)
Theorem searchHistory_terms_stay_unique
    (term now : string) (setItem_ok : bool) (ls : Storage.LocalStorage) :
  NoDup (map SearchEntry.term (Storage.getSearchHistory ls)) ->
  (List.length (Storage.getSearchHistory ls) <= 20)%nat ->
  let added :=
    Storage.getSearchHistory
      (snd (Storage.addSearchTerm term now setItem_ok ls)) in
  let cleared :=
    Storage.getSearchHistory (snd (Storage.clearSearchHistory setItem_ok ls)) in
  NoDup (map SearchEntry.term added) /\ (List.length added <= 20)%nat /\
  NoDup (map SearchEntry.term cleared) /\ (List.length cleared <= 20)%nat.
Proof.
  intros Hnd Hlen added cleared. subst added cleared.
  assert (Hclear :
    NoDup (map SearchEntry.term
             (Storage.getSearchHistory
                (snd (Storage.clearSearchHistory setItem_ok ls)))) /\
    (List.length (Storage.getSearchHistory
                    (snd (Storage.clearSearchHistory setItem_ok ls))) <= 20)%nat).
  { unfold Storage.clearSearchHistory, Storage.set.
    destruct setItem_ok; cbn [snd].
    - rewrite getSearchHistory_setItem. split; [constructor | simpl; lia].
    - split; assumption. }
  destruct Hclear as [Hc1 Hc2].
  split; [|split; [|split; assumption]].
  - unfold Storage.addSearchTerm.
    destruct ((term =? "")%string || (String.length (trim term) <? 2)%nat);
      [exact Hnd|].
    unfold Storage.set. destruct setItem_ok; cbn [snd]; [|exact Hnd].
    rewrite getSearchHistory_setItem. rewrite <- firstn_map.
    apply NoDup_firstn. cbn [map SearchEntry.term]. constructor.
    + intros Hin. apply in_map_iff in Hin as [item [Hterm Hitem]].
      apply filter_In in Hitem as [_ Hneq].
      rewrite Hterm, String.eqb_refl in Hneq. discriminate.
    + apply NoDup_map_filter. exact Hnd.
  - unfold Storage.addSearchTerm.
    destruct ((term =? "")%string || (String.length (trim term) <? 2)%nat);
      [exact Hlen|].
    unfold Storage.set. destruct setItem_ok; cbn [snd]; [|exact Hlen].
    rewrite getSearchHistory_setItem. apply firstn_le_length.
Qed.

(** A full history that holds "naruto" already, searched for " Naruto". *)
Lemma searchHistory_terms_stay_unique_witness :
  List.length (Storage.getSearchHistory Samples.twentySearches) = 20%nat /\
  In "naruto"
     (map SearchEntry.term (Storage.getSearchHistory Samples.twentySearches)) /\
  let added :=
    Storage.getSearchHistory
      (snd (Storage.addSearchTerm " Naruto" Samples.tuesday true
              Samples.twentySearches)) in
  NoDup (map SearchEntry.term added) /\ (List.length added <= 20)%nat.
Proof.
  assert (H1 : NoDup (map SearchEntry.term
                        (Storage.getSearchHistory Samples.twentySearches))).
  { vm_compute.
    repeat (constructor;
            [intros H;
             repeat (destruct H as [H|H]; [discriminate H|]); exact H|]).
    constructor. }
  assert (H2 : (List.length (Storage.getSearchHistory Samples.twentySearches)
                <= 20)%nat) by (vm_compute; lia).
  split; [vm_compute; reflexivity|].
  split; [vm_compute; tauto|].
  destruct (@searchHistory_terms_stay_unique " Naruto" Samples.tuesday true
              Samples.twentySearches H1 H2) as [Hnodup [Hlen _]].
  split; [exact Hnodup | exact Hlen].
Defined.

(** X6. After a successful [addToViewHistory] the viewed record comes
    first, no later entry has an identifier strictly equal to it, every
    later entry was in the history before, and the history has at most 50
    entries, however long it was. *)
Theorem addToViewHistory_most_recent_first
    (anime : Anime.t) (now : string) (item : StorageViewHistory.Item) :
  let history' :=
    StorageViewHistory.getViewHistory
      (snd (StorageViewHistory.addToViewHistory anime now true item)) in
  fst (StorageViewHistory.addToViewHistory anime now true item) = true /\
  hd_error history' = Some (StorageViewHistory.viewData anime now) /\
  existsb (fun entry => strict_eq (ViewEntry.mal_id entry) (Anime.mal_id anime))
          (tl history') = false /\
  (forall entry, In entry (tl history') ->
                 In entry (StorageViewHistory.getViewHistory item)) /\
  (List.length history' <= 50)%nat.
Proof.
  cbv zeta. unfold StorageViewHistory.addToViewHistory, StorageViewHistory.set.
  remember (StorageViewHistory.getViewHistory item) as history eqn:Hhistory.
  cbn [fst snd StorageViewHistory.getViewHistory].
  rewrite firstn_cons. cbn [hd_error tl].
  split; [reflexivity|]. split; [reflexivity|]. split; [|split].
  - match goal with |- ?found = false => destruct found eqn:E; [|reflexivity] end.
    apply existsb_exists in E as [entry [Hin Hsame]].
    apply In_firstn in Hin. apply filter_In in Hin as [_ Hneq].
    rewrite Hsame in Hneq. discriminate.
  - intros entry Hin. apply In_firstn in Hin.
    apply filter_In in Hin. apply Hin.
  - pose proof (firstn_le_length 49
                  (filter (fun entry =>
                             negb (strict_eq (ViewEntry.mal_id entry)
                                     (Anime.mal_id anime))) history)).
    cbn [List.length]. lia.
Qed.


(* ===================================================================== *)
(** * More properties of the API client *)
(* ===================================================================== *)

Section ClientProperties.

Import JikanAPI.

Lemma map_get_set_other (key other : string) (value : CacheEntry.t) (m : Cache) :
  other <> key ->
  map_get other (map_set key value m) = map_get other m.
Proof.
  intros N. induction m as [|[k v] rest IH]; simpl.
  - destruct (String.eqb_spec key other); [congruence|reflexivity].
  - destruct (String.eqb_spec k key) as [E|NE]; simpl.
    + subst k. destruct (String.eqb_spec key other); [congruence|reflexivity].
    + destruct (k =? other)%string; [reflexivity|exact IH].
Qed.

Lemma spaced_paced_dispatch (t : Z) (url : string) (w : World) :
  paced w ->
  lastRequestTime (api w) + rateLimitDelay <= t ->
  paced (dispatch t url w).
Proof.
  intros [Hs Hle] Ht. split; cbn [dispatch fetched api lastRequestTime].
  - apply spaced_snoc; [exact Hs|].
    intros e He. specialize (Hle e He). lia.
  - intros e He. apply in_app_or in He as [He|[He|[]]].
    + specialize (Hle e He). unfold rateLimitDelay in Ht. lia.
    + subst e. cbn [fst]. lia.
Qed.

(** A timely call resumes a full interval after the last request, or
    later. *)
Lemma resumedAt_interval (now : Z) (jitter : N) (a : t) :
  timely now a = true ->
  lastRequestTime a + rateLimitDelay <= resumedAt now jitter a.
Proof.
  unfold timely, resumedAt, throttle. unfold rateLimitDelay.
  destruct (now - lastRequestTime a <? 1000) eqn:E.
  - apply Z.ltb_lt in E. intros Hfit. apply Z.leb_le in Hfit.
    rewrite timeoutDelay_small by lia. lia.
  - apply Z.ltb_ge in E. lia.
Qed.

Lemma paced_with_api (a : t) (w : World) :
  lastRequestTime a = lastRequestTime (api w) ->
  paced w -> paced (with_api a w).
Proof.
  intros E [Hs Hle]. split; cbn [with_api fetched api]; [exact Hs|].
  rewrite E. exact Hle.
Qed.

Lemma paced_request (endpoint : string) (useCache : bool) (env : Env)
    (w : World) :
  timely (now env) (api w) = true ->
  paced w -> paced (snd (request endpoint useCache env w)).
Proof.
  intros Htimely Hp.
  assert (Hgo : forall a, lastRequestTime a = lastRequestTime (api w) ->
            paced (dispatch (resumedAt (now env) (jitter env) (api w))
                            (baseURL ++ endpoint) (with_api a w))).
  { intros a E. apply spaced_paced_dispatch; [apply paced_with_api; assumption|].
    cbn [with_api api]. rewrite E. apply resumedAt_interval. exact Htimely. }
  destruct useCache.
  - pose proof (lastRequestTime_getCachedData endpoint (now env) (api w)) as HL.
    destruct (truthy (fst (getCachedData endpoint (now env) (api w)))) eqn:T.
    + rewrite request_cached_hit by exact T. cbn [snd].
      apply paced_with_api; assumption.
    + rewrite request_cached_miss by exact T. cbn [snd].
      specialize (Hgo _ HL). set (w1 := dispatch _ _ _) in *.
      destruct (outcome env) as [m|status statusText [m|data]]; try exact Hgo.
      destruct (ok status && truthy data); [|exact Hgo].
      apply paced_with_api; [|exact Hgo].
      unfold setCachedData. reflexivity.
  - rewrite request_uncached. cbn [snd].
    rewrite <- (with_api_same w) at 2. apply Hgo. reflexivity.
Qed.

Lemma paced_uses (us : list Use) :
  forall w, steady us w = true -> paced w -> paced (uses us w).
Proof.
  induction us as [|u rest IH]; intros w Hsteady Hp; [exact Hp|].
  cbn [steady] in Hsteady. apply andb_true_iff in Hsteady as [Hu Hrest].
  cbn [uses]. apply IH; [exact Hrest|].
  destruct u as [endpoint useCache env|]; cbn [use].
  - apply paced_request; [exact Hu | exact Hp].
  - apply paced_with_api; [reflexivity | exact Hp].
Qed.

Lemma cache_ok_uses (us : list Use) :
  forall w, cache_ok (api w) -> cache_ok (api (uses us w)).
Proof.
  induction us as [|u rest IH]; intros w Hok; [exact Hok|].
  cbn [uses]. apply IH. destruct u as [endpoint useCache env|]; cbn [use].
  - apply cache_ok_request. exact Hok.
  - apply cache_ok_clearCache.
Qed.

End ClientProperties.

(** X7. Whatever a page does with a new client -- any requests, cached or
    not, and any [clearCache()], one after another -- the cache never holds
    more than 100 entries and never two entries under one key, and
    [getCacheStats()] reports that size. *)
Theorem client_cache_stays_within_capacity (us : list JikanAPI.Use) :
  let a := JikanAPI.api (JikanAPI.uses us JikanAPI.fresh) in
  (List.length (JikanAPI.cache a) <= 100)%nat /\
  NoDup (JikanAPI.keys (JikanAPI.cache a)) /\
  fst (JikanAPI.getCacheStats a) = List.length (snd (JikanAPI.getCacheStats a)) /\
  (fst (JikanAPI.getCacheStats a) <= 100)%nat.
Proof.
  cbv zeta.
  destruct (@cache_ok_uses us JikanAPI.fresh cache_ok_constructor) as [Hnd Hlen].
  split; [exact Hlen|]. split; [exact Hnd|].
  unfold JikanAPI.getCacheStats, JikanAPI.keys. cbn [fst snd].
  rewrite length_map. split; [reflexivity | exact Hlen].
Qed.

(** X8. Requests made one after another, each started when the one before
    has returned, are throttled: whatever the endpoints, the caching flags
    and the answers, every two consecutive fetches of a new client are at
    least 1000 ms apart -- as long as no request reads a clock that is
    2^31 - 1000 ms (some 24.8 days) or more behind the time of the last
    request, so that the delay it asks of [setTimeout] fits 32 bits. *)
Theorem client_sequential_requests_spaced (us : list JikanAPI.Use) :
  JikanAPI.steady us JikanAPI.fresh = true ->
  JikanAPI.spaced (JikanAPI.fetched (JikanAPI.uses us JikanAPI.fresh)) = true.
Proof.
  intros Hsteady.
  assert (H : JikanAPI.paced JikanAPI.fresh).
  { split; [reflexivity | intros e []]. }
  apply (@paced_uses us JikanAPI.fresh Hsteady H).
Qed.

(** A visit during which the clock is set back five seconds: the third
    fetch waits six seconds. *)
Lemma client_sequential_requests_spaced_witness :
  JikanAPI.steady Samples.visit JikanAPI.fresh = true /\
  map fst (JikanAPI.fetched (JikanAPI.uses Samples.visit JikanAPI.fresh))
  = [Samples.t0; Samples.t0 + 1003; Samples.t0 + 2006] /\
  JikanAPI.spaced
    (JikanAPI.fetched (JikanAPI.uses Samples.visit JikanAPI.fresh)) = true.
Proof.
  assert (H : JikanAPI.steady Samples.visit JikanAPI.fresh = true)
    by (vm_compute; reflexivity).
  split; [exact H|].
  split; [vm_compute; reflexivity|].
  apply (@client_sequential_requests_spaced Samples.visit H).
Defined.

(** Beyond that the throttle gives way.  With the clock set back thirty
    days the second request asks [setTimeout] for 2592001000 ms, which
    wraps to a negative delay: the timer fires at once, and the second
    fetch is made 3 ms after the request, not a second after the first
    fetch. *)
Example client_clock_set_back_a_month :
  JikanAPI.steady Samples.visitAcrossClockReset JikanAPI.fresh = false /\
  JikanAPI.timeoutDelay 2592001000 = 0 /\
  map fst
    (JikanAPI.fetched (JikanAPI.uses Samples.visitAcrossClockReset JikanAPI.fresh))
  = [Samples.t0; Samples.t0 - 2592000000 + 3] /\
  JikanAPI.spaced
    (JikanAPI.fetched (JikanAPI.uses Samples.visitAcrossClockReset JikanAPI.fresh))
  = false.
Proof. vm_compute. repeat split. Qed.

(** X9. What [setCachedData] stores, [getCachedData] gives back while it is
    fresh: on a cache of at most 100 entries, a lookup of the key less than
    [cacheTimeout] after the store returns the stored payload and changes
    nothing; a lookup [cacheTimeout] or more after returns [null] and
    leaves no entry under the key. *)
Theorem setCachedData_getCachedData_roundtrip
    (key : string) (data : jsval) (stored later : Z) (a : JikanAPI.t) :
  (List.length (JikanAPI.cache a) <= 100)%nat ->
  let a' := JikanAPI.setCachedData key data stored a in
  (later - stored < JikanAPI.cacheTimeout ->
   JikanAPI.getCachedData key later a' = (data, a')) /\
  (JikanAPI.cacheTimeout <= later - stored ->
   fst (JikanAPI.getCachedData key later a') = JNull /\
   JikanAPI.map_get key
     (JikanAPI.cache (snd (JikanAPI.getCachedData key later a'))) = None).
Proof.
  intros Hlen a'.
  pose proof (@map_get_setCachedData key data stored a Hlen) as Hget.
  fold a' in Hget. split.
  - intros Hfresh.
    apply (@getCachedData_hit key later a' _ Hget Hfresh).
  - intros Hold.
    rewrite (@getCachedData_expired key later a' _ Hget Hold).
    cbn [fst snd JikanAPI.cache]. split; [reflexivity|].
    apply map_get_delete_same.
Qed.

Lemma setCachedData_getCachedData_roundtrip_witness :
  JikanAPI.getCachedData "/genres/anime" (Samples.t0 + 299999)
    (JikanAPI.setCachedData "/genres/anime" Samples.genresPayload Samples.t0
       (Samples.filled 2))
  = (Samples.genresPayload,
     JikanAPI.setCachedData "/genres/anime" Samples.genresPayload Samples.t0
       (Samples.filled 2)).
Proof.
  assert (H : (List.length (JikanAPI.cache (Samples.filled 2)) <= 100)%nat)
    by (simpl; lia).
  destruct (@setCachedData_getCachedData_roundtrip "/genres/anime"
              Samples.genresPayload Samples.t0 (Samples.t0 + 299999)
              (Samples.filled 2) H) as [Hfresh _].
  apply Hfresh. vm_compute. reflexivity.
Defined.

(** X10. The cache operations leave the other keys alone: a lookup of one
    key, hit or miss or expired, changes the entry of no other key; and a
    store under one key changes the entry of no other key as long as the
    cache has fewer than 100 entries. *)
Theorem cache_operations_leave_other_keys
    (key other : string) (data : jsval) (now : Z) (a : JikanAPI.t) :
  other <> key ->
  JikanAPI.map_get other
    (JikanAPI.cache (snd (JikanAPI.getCachedData key now a)))
  = JikanAPI.map_get other (JikanAPI.cache a) /\
  ((List.length (JikanAPI.cache a) < 100)%nat ->
   JikanAPI.map_get other
     (JikanAPI.cache (JikanAPI.setCachedData key data now a))
   = JikanAPI.map_get other (JikanAPI.cache a)).
Proof.
  intros N. split.
  - assert (Hdel : JikanAPI.map_get other (JikanAPI.map_delete key (JikanAPI.cache a))
                   = JikanAPI.map_get other (JikanAPI.cache a)).
    { apply map_get_delete_other. intros E. apply N. symmetry. exact E. }
    unfold JikanAPI.getCachedData.
    destruct (JikanAPI.map_get key (JikanAPI.cache a)) as [cached|];
      [destruct (now - CacheEntry.timestamp cached <? JikanAPI.cacheTimeout)|];
      cbn [snd JikanAPI.cache]; try exact Hdel. reflexivity.
  - intros Hlen. rewrite setCachedData_fits.
    + apply map_get_set_other. exact N.
    + rewrite map_set_length.
      destruct (JikanAPI.map_get key (JikanAPI.cache a)); lia.
Qed.

Lemma cache_operations_leave_other_keys_witness :
  "/anime/1" <> "/anime/2" /\
  JikanAPI.map_get "/anime/1"
    (JikanAPI.cache
       (snd (JikanAPI.getCachedData "/anime/2" (Samples.t0 + 900000)
               (Samples.filled 2))))
  = JikanAPI.map_get "/anime/1" (JikanAPI.cache (Samples.filled 2)).
Proof.
  assert (H : "/anime/1" <> "/anime/2") by discriminate.
  split; [exact H|].
  destruct (@cache_operations_leave_other_keys "/anime/2" "/anime/1" JNull
              (Samples.t0 + 900000) (Samples.filled 2) H) as [Hget _].
  exact Hget.
Defined.

(** X11. Without an identifier no request is made: called with an [id]
    that is falsy (missing, the number 0, the empty string), each of the
    seven operations that take an [id] returns the failure "Anime ID is
    required" and leaves the client as it was -- no fetch, no cache
    lookup, [lastRequestTime] not advanced. *)
Theorem missing_id_makes_no_request
    (id : JikanAPI.Id) (page : Z) (env : JikanAPI.Env) (w : JikanAPI.World) :
  JikanAPI.idTruthy id = false ->
  let refused := (JikanAPI.failed "Anime ID is required" None, w) in
  JikanAPI.getAnimeById id env w = refused /\
  JikanAPI.getAnimeFullById id env w = refused /\
  JikanAPI.getAnimeCharacters id env w = refused /\
  JikanAPI.getAnimeRecommendations id env w = refused /\
  JikanAPI.getAnimeRelations id env w = refused /\
  JikanAPI.getAnimeStats id env w = refused /\
  JikanAPI.getAnimeEpisodes id page env w = refused.
Proof.
  intros H refused.
  unfold JikanAPI.getAnimeById, JikanAPI.getAnimeFullById,
    JikanAPI.getAnimeCharacters, JikanAPI.getAnimeRecommendations,
    JikanAPI.getAnimeRelations, JikanAPI.getAnimeStats,
    JikanAPI.getAnimeEpisodes.
  rewrite H. cbn [negb]. repeat split.
Qed.

Lemma missing_id_makes_no_request_witness :
  JikanAPI.idTruthy (JikanAPI.IdString "") = false /\
  JikanAPI.getAnimeFullById (JikanAPI.IdString "")
    (Samples.callAt Samples.t0 (JikanAPI.NetworkError "Failed to fetch"))
    Samples.staleRandom
  = (JikanAPI.failed "Anime ID is required" None, Samples.staleRandom).
Proof.
  split; [reflexivity|].
  destruct (@missing_id_makes_no_request (JikanAPI.IdString "") 1
              (Samples.callAt Samples.t0 (JikanAPI.NetworkError "Failed to fetch"))
              Samples.staleRandom eq_refl) as [_ [H _]].
  exact H.
Defined.

Section SuggestionProperties.

Import JikanAPI.

Lemma suggestions_none (items : list jsval) :
  suggestions items = None
  <-> forallb (fun anime => negb (JSObject.nullish anime)) items = false.
Proof.
  induction items as [|anime rest IH]; cbn [suggestions forallb].
  - split; discriminate.
  - unfold suggestion at 1.
    destruct (JSObject.nullish anime); cbn [negb andb].
    + split; reflexivity.
    + destruct (suggestions rest) as [more|].
      * split; [discriminate|]. intros H. apply IH in H. discriminate.
      * split; [intros _; apply IH; reflexivity | reflexivity].
Qed.

Lemma suggestions_some (items found : list jsval) :
  suggestions items = Some found ->
  List.length found = List.length items /\
  forall i anime,
    nth_error items i = Some anime ->
    JSObject.nullish anime = false /\
    nth_error found i = suggestion anime.
Proof.
  revert found. induction items as [|anime rest IH]; intros found H.
  - cbn [suggestions] in H. apply Some_eq in H. subst found.
    split; [reflexivity|]. intros [|i] x Hx; discriminate.
  - cbn [suggestions] in H.
    destruct (suggestion anime) as [s|] eqn:Hs; [|discriminate].
    destruct (suggestions rest) as [more|] eqn:Hmore; [|discriminate].
    apply Some_eq in H. subst found.
    destruct (IH more eq_refl) as [Hlen Hnth].
    split; [cbn [List.length]; rewrite Hlen; reflexivity|].
    intros [|i] x Hx; cbn [nth_error] in *.
    + apply Some_eq in Hx. subst x. split; [|symmetry; exact Hs].
      unfold suggestion in Hs. destruct (JSObject.nullish anime);
        [discriminate|reflexivity].
    + apply Hnth. exact Hx.
Qed.

(** [getSearchSuggestions] for a query of two characters or more. *)
Lemma getSearchSuggestions_long (query : string) (limit : Z) (env : Env)
    (w : World) :
  ((query =? "")%string || (String.length (trim query) <? 2)%nat)%bool = false ->
  let endpoint :=
    "/anime?q=" ++ encodeURIComponent (trim query)
    ++ "&limit=" ++ numberToString limit
    ++ "&order_by=popularity&sort=asc" in
  let w' := dispatch (resumedAt (now env) (jitter env) (api w))
                     (baseURL ++ endpoint) w in
  getSearchSuggestions query limit env w
  = (match outcome env with
     | Response status statusText (Json d) =>
         if ok status then
           match JSObject.member "data" d with
           | Some (JArr items) =>
               match suggestions items with
               | Some found => Resolved (succeeded (JObj [("data", JArr found)]))
               | None => Rejected
               end
           | _ => Rejected
           end
         else Resolved (networkResult endpoint (outcome env))
     | _ => Resolved (networkResult endpoint (outcome env))
     end, w').
Proof.
  intros Hlong endpoint w'. unfold getSearchSuggestions. rewrite Hlong.
  fold endpoint. rewrite request_uncached. fold w'.
  unfold networkResult.
  destruct (outcome env) as [m|status statusText [m|d]]; cbn [Result.success failed].
  - reflexivity.
  - destruct (ok status); reflexivity.
  - destruct (ok status); cbn [Result.success Result.data succeeded failed];
      [|reflexivity].
    destruct (JSObject.member "data" d) as [[| | | | |items|]|]; try reflexivity.
    destruct (suggestions items); reflexivity.
Qed.

End SuggestionProperties.

(** X12. [getSearchSuggestions] never uses the cache.  A query shorter than
    two characters after trimming gets an empty list at once and the client
    is untouched; any other query makes exactly one fetch, and a failure of
    that fetch is handed on as the failure result [request] made of it. *)
Theorem getSearchSuggestions_fetches_uncached
    (query : string) (limit : Z) (env : JikanAPI.Env) (w : JikanAPI.World) :
  let short := ((query =? "")%string
                || (String.length (trim query) <? 2)%nat)%bool in
  let endpoint :=
    "/anime?q=" ++ encodeURIComponent (trim query)
    ++ "&limit=" ++ numberToString limit
    ++ "&order_by=popularity&sort=asc" in
  let sent := JikanAPI.resumedAt (JikanAPI.now env) (JikanAPI.jitter env)
                (JikanAPI.api w) in
  let r := JikanAPI.getSearchSuggestions query limit env w in
  JikanAPI.cache (JikanAPI.api (snd r)) = JikanAPI.cache (JikanAPI.api w) /\
  JikanAPI.fetched (snd r)
  = (if short then JikanAPI.fetched w
     else (JikanAPI.fetched w
           ++ [(sent, (JikanAPI.baseURL ++ endpoint)%string)])%list) /\
  (short = true ->
   r = (JikanAPI.Resolved
          (JikanAPI.succeeded (JObj [("data", JArr [])])), w)) /\
  (short = false ->
   Result.success (JikanAPI.networkResult endpoint (JikanAPI.outcome env)) = false ->
   fst r = JikanAPI.Resolved
             (JikanAPI.networkResult endpoint (JikanAPI.outcome env))).
Proof.
  intros short endpoint sent r. subst r.
  destruct short eqn:Hshort; subst short.
  - unfold JikanAPI.getSearchSuggestions. rewrite Hshort.
    repeat split; try reflexivity. discriminate.
  - rewrite (getSearchSuggestions_long query limit env w Hshort).
    fold endpoint. cbn [fst snd].
    split; [reflexivity|]. split; [reflexivity|]. split; [discriminate|].
    intros _ Hfail. unfold JikanAPI.networkResult in *.
    destruct (JikanAPI.outcome env) as [m|status statusText [m|d]];
      try reflexivity.
    destruct (JikanAPI.ok status); [discriminate|reflexivity].
Qed.

(** X13. [getSearchSuggestions] can throw although [request] never does:
    its promise is rejected exactly when the query has two characters or
    more, the fetch is answered 2xx with a JSON body, and that body's
    [data] is not an array of non-null elements (the body [null], an error
    object, a list holding a [null]). *)
Theorem getSearchSuggestions_rejects_iff
    (query : string) (limit : Z) (env : JikanAPI.Env) (w : JikanAPI.World) :
  fst (JikanAPI.getSearchSuggestions query limit env w) = JikanAPI.Rejected
  <->
  ((query =? "")%string || (String.length (trim query) <? 2)%nat)%bool = false /\
  exists status statusText d,
    JikanAPI.outcome env
    = JikanAPI.Response status statusText (JikanAPI.Json d) /\
    JikanAPI.ok status = true /\
    JikanAPI.listable d = false.
Proof.
  destruct ((query =? "")%string || (String.length (trim query) <? 2)%nat)%bool
    eqn:Hshort.
  - unfold JikanAPI.getSearchSuggestions. rewrite Hshort. cbn [fst].
    split; [discriminate | intros [H _]; discriminate].
  - rewrite (getSearchSuggestions_long query limit env w Hshort). cbn [fst].
    unfold JikanAPI.listable.
    destruct (JikanAPI.outcome env) as [m|status statusText [m|d]].
    + split; [discriminate|]. intros [_ [s [t [d [H _]]]]]. discriminate.
    + split; [discriminate|]. intros [_ [s [t [d [H _]]]]]. discriminate.
    + destruct (JikanAPI.ok status) eqn:Hok.
      * assert (Hcase :
          match JSObject.member "data" d with
          | Some (JArr items) =>
              match JikanAPI.suggestions items with
              | Some found =>
                  JikanAPI.Resolved
                    (JikanAPI.succeeded (JObj [("data", JArr found)]))
              | None => JikanAPI.Rejected
              end
          | _ => JikanAPI.Rejected
          end = JikanAPI.Rejected
          <-> match JSObject.member "data" d with
              | Some (JArr items) =>
                  forallb (fun anime => negb (JSObject.nullish anime)) items
              | _ => false
              end = false).
        { destruct (JSObject.member "data" d) as [[| | | | |items|]|];
            try (split; reflexivity).
          rewrite <- suggestions_none.
          destruct (JikanAPI.suggestions items);
            split; try reflexivity; discriminate. }
        rewrite Hcase. split.
        -- intros H. split; [reflexivity|]. exists status, statusText, d.
           repeat split; assumption.
        -- intros [_ [s [t [d' [Heq [_ H]]]]]].
           injection Heq as _ _ Hd. subst d'. exact H.
      * split; [discriminate|].
        intros [_ [s [t [d' [Heq [Hok' _]]]]]].
        injection Heq as Hs _ _. subst s. congruence.
Qed.

(** For instance the body [null], answered with status 200. *)
Example getSearchSuggestions_null_body :
  fst (JikanAPI.getSearchSuggestions "naruto" 10
         (Samples.callAt Samples.t0
            (JikanAPI.Response 200 "OK" (JikanAPI.Json JNull)))
         JikanAPI.fresh)
  = JikanAPI.Rejected.
Proof. reflexivity. Qed.

(** X14. When the fetch is answered 2xx with a body whose [data] is an
    array of non-null elements, [getSearchSuggestions] resolves with one
    suggestion per element, in the same order, each carrying the element's
    [mal_id], [title], [type] and [score]. *)
Theorem getSearchSuggestions_maps_every_item
    (query : string) (limit : Z) (env : JikanAPI.Env) (w : JikanAPI.World)
    (status : Z) (statusText : string) (d : jsval) (items : list jsval) :
  ((query =? "")%string || (String.length (trim query) <? 2)%nat)%bool = false ->
  JikanAPI.outcome env = JikanAPI.Response status statusText (JikanAPI.Json d) ->
  JikanAPI.ok status = true ->
  JSObject.member "data" d = Some (JArr items) ->
  forallb (fun anime => negb (JSObject.nullish anime)) items = true ->
  exists found,
    fst (JikanAPI.getSearchSuggestions query limit env w)
    = JikanAPI.Resolved (JikanAPI.succeeded (JObj [("data", JArr found)])) /\
    List.length found = List.length items /\
    forall i anime,
      nth_error items i = Some anime ->
      exists s,
        nth_error found i = Some s /\
        JSObject.optional "mal_id" s = JSObject.optional "mal_id" anime /\
        JSObject.optional "title" s = JSObject.optional "title" anime /\
        JSObject.optional "type" s = JSObject.optional "type" anime /\
        JSObject.optional "score" s = JSObject.optional "score" anime.
Proof.
  intros Hlong Hout Hok Hdata Hall.
  rewrite (getSearchSuggestions_long query limit env w Hlong). cbn [fst].
  rewrite Hout, Hok, Hdata.
  destruct (JikanAPI.suggestions items) as [found|] eqn:Hs.
  - exists found. split; [reflexivity|].
    destruct (suggestions_some items Hs) as [Hlen Hnth].
    split; [exact Hlen|]. intros i anime Hi.
    destruct (Hnth i anime Hi) as [Hnn Hfound].
    unfold JikanAPI.suggestion in Hfound. rewrite Hnn in Hfound.
    eexists. split; [exact Hfound|]. repeat split.
  - apply suggestions_none in Hs. congruence.
Qed.

Lemma getSearchSuggestions_maps_every_item_witness :
  exists found,
    fst (JikanAPI.getSearchSuggestions " Naruto" 10
           (Samples.callAt Samples.t0
              (JikanAPI.Response 200 "OK" (JikanAPI.Json Samples.genresPayload)))
           JikanAPI.fresh)
    = JikanAPI.Resolved (JikanAPI.succeeded (JObj [("data", JArr found)])) /\
    List.length found = 1%nat.
Proof.
  destruct (@getSearchSuggestions_maps_every_item " Naruto" 10
              (Samples.callAt Samples.t0
                 (JikanAPI.Response 200 "OK" (JikanAPI.Json Samples.genresPayload)))
              JikanAPI.fresh 200 "OK" Samples.genresPayload
              [JObj [("mal_id", JNum (inject_Z 1)); ("name", JStr "Action")]]
              eq_refl eq_refl eq_refl eq_refl eq_refl)
    as [found [Hr [Hlen _]]].
  exists found. split; [exact Hr | exact Hlen].
Defined.

Lemma rateLimiter_sequential_calls_spaced_witness :
  exists l,
    JikanAPI.run (JikanAPI.boot Samples.t0) Samples.detailPageInTurn = Some l /\
    JikanAPI.spaced (JikanAPI.fetched (JikanAPI.world l)) = true.
Proof.
  assert (Hseq : JikanAPI.sequential (JikanAPI.boot Samples.t0)
                   Samples.detailPageInTurn = true)
    by (vm_compute; reflexivity).
  destruct (JikanAPI.run (JikanAPI.boot Samples.t0) Samples.detailPageInTurn)
    as [l|] eqn:Hrun; [|vm_compute in Hrun; discriminate].
  exists l. split; [reflexivity|].
  apply (@rateLimiter_sequential_calls_spaced Samples.t0
           Samples.detailPageInTurn l Hseq Hrun).
Defined.


(* ===================================================================== *)
(** * Properties of the UI components *)
(* ===================================================================== *)

Section ToggleProperties.

Import Storage.

(** After a successful [addFavorite] of a record that was no favorite and
    whose identifier is primitive, it is one. *)
Lemma isFavorite_addFavorite_new (anime : Anime.t) (now : string)
    (ls : LocalStorage) :
  isFavorite (Anime.mal_id anime) ls = false ->
  strict_eq (Anime.mal_id anime) (Anime.mal_id anime) = true ->
  isFavorite (Anime.mal_id anime) (snd (addFavorite anime now true ls)) = true.
Proof.
  intros Hwas Hrefl.
  destruct (addFavorite_new anime now ls Hwas) as [Hstored _].
  unfold isFavorite. cbv zeta. rewrite Hstored.
  destruct (100 <? S (List.length (getFavorites ls)))%nat eqn:Hover.
  - destruct (getFavorites ls) as [|y l]; [discriminate|].
    simpl. rewrite Hrefl. reflexivity.
  - simpl. rewrite Hrefl. reflexivity.
Qed.

Lemma isFavorite_removeFavorite (animeId : jsval) (ls : LocalStorage) :
  isFavorite animeId (snd (removeFavorite animeId true ls)) = false.
Proof.
  unfold isFavorite, removeFavorite, set. cbn [snd].
  rewrite getFavorites_setItem.
  apply (existsb_filter_negb (fun fav => strict_eq (Favorite.mal_id fav) animeId)).
Qed.

End ToggleProperties.

(** X15. A toggle whose write goes through flips the favorite state: for a
    record whose identifier is a primitive value, after [toggleFavorite]
    the record is a favorite exactly if it was not one before; the button
    is active exactly then, the toast says "Removed" or "Added"
    accordingly, and the badge shows the new number of favorites.  The
    detail page's own [toggleFavorite] does the same to the storage and
    shows the same toast. *)
Theorem toggleFavorite_flips_membership
    (anime : Anime.t) (wasActive : bool) (now : string)
    (ls : Storage.LocalStorage) :
  strict_eq (Anime.mal_id anime) (Anime.mal_id anime) = true ->
  let was := Storage.isFavorite (Anime.mal_id anime) ls in
  let r := UIComponents.toggleFavorite anime wasActive now true ls in
  Storage.isFavorite (Anime.mal_id anime) (snd r) = negb was /\
  UIComponents.active (fst r) = negb was /\
  UIComponents.toast (fst r)
  = Some (if was then UIComponents.Removed (Anime.title anime)
          else UIComponents.Added (Anime.title anime)) /\
  UIComponents.badge (fst r) = Some (Storage.getFavoriteCount (snd r)) /\
  DetailPageFavorite.toggleFavorite (Some anime) now true ls
  = (UIComponents.toast (fst r), snd r).
Proof.
  intros Hrefl was r. subst r.
  unfold UIComponents.toggleFavorite, DetailPageFavorite.toggleFavorite.
  cbv zeta. fold was. destruct was eqn:Hwas; subst was.
  - pose proof (isFavorite_removeFavorite (Anime.mal_id anime) ls) as Hgone.
    unfold Storage.removeFavorite, Storage.set in *. cbn [fst snd] in *.
    repeat split. exact Hgone.
  - pose proof (isFavorite_addFavorite_new anime now ls Hwas Hrefl) as Hthere.
    destruct (addFavorite_new anime now ls Hwas) as [_ Hadded].
    destruct (Storage.addFavorite anime now true ls) as [added ls'].
    cbn [fst snd] in *. subst added. cbn [fst snd].
    repeat split. exact Hthere.
Qed.

Lemma toggleFavorite_flips_membership_witness :
  strict_eq (Anime.mal_id Samples.naruto) (Anime.mal_id Samples.naruto) = true /\
  Storage.isFavorite (Anime.mal_id Samples.naruto)
    (snd (UIComponents.toggleFavorite Samples.naruto true Samples.tuesday true
            Samples.narutoStored))
  = false.
Proof.
  split; [reflexivity|].
  destruct (@toggleFavorite_flips_membership Samples.naruto true Samples.tuesday
              Samples.narutoStored eq_refl) as [H _].
  exact H.
Defined.

(** X16. The toast "Failed to add to favorites" appears exactly when the
    record is no favorite and the write fails; a toggle whose write fails
    changes neither the storage, nor the button, nor the badge, and on a
    favorite it shows no toast at all. *)
Theorem toggleFavorite_failed_write
    (anime : Anime.t) (wasActive : bool) (now : string) (setItem_ok : bool)
    (ls : Storage.LocalStorage) :
  let was := Storage.isFavorite (Anime.mal_id anime) ls in
  let r := UIComponents.toggleFavorite anime wasActive now setItem_ok ls in
  (UIComponents.toast (fst r) = Some UIComponents.FailedToAdd
   <-> was = false /\ setItem_ok = false) /\
  (setItem_ok = false ->
   snd r = ls /\
   UIComponents.active (fst r) = wasActive /\
   UIComponents.badge (fst r) = None /\
   (was = true -> UIComponents.toast (fst r) = None)).
Proof.
  intros was r. subst r. unfold UIComponents.toggleFavorite. cbv zeta.
  fold was. destruct was eqn:Hwas; subst was.
  - unfold Storage.removeFavorite, Storage.set.
    destruct setItem_ok; cbn [fst snd UIComponents.toast UIComponents.active
                              UIComponents.badge].
    + split; [split; [discriminate | intros [H _]; discriminate]|discriminate].
    + split; [split; [discriminate | intros [H _]; discriminate]|].
      intros _. repeat split.
  - destruct setItem_ok.
    + destruct (addFavorite_new anime now ls Hwas) as [_ Hadded].
      destruct (Storage.addFavorite anime now true ls) as [added ls'].
      cbn [fst] in Hadded. subst added.
      cbn [fst snd UIComponents.toast].
      split; [split; [discriminate | intros [_ H]; discriminate]|discriminate].
    + unfold Storage.addFavorite, Storage.set.
      destruct (find _ (Storage.getFavorites ls));
        cbn [fst snd UIComponents.toast UIComponents.active UIComponents.badge];
        (split; [split; [intros _; split; reflexivity | reflexivity]|]);
        intros _; repeat split; discriminate.
Qed.

Section LoadingProperties.

Import UIComponents.

Lemma set_add_nonempty (x : string) (s : list string) : set_add x s <> [].
Proof.
  destruct s as [|y rest]; simpl; [discriminate|].
  destruct (y =? x)%string; discriminate.
Qed.

Lemma overlaid_call (present : bool) (c : LoadingCall) (l : Loading) :
  overlaid present l -> overlaid present (loadingCall c l).
Proof.
  intros [Hp Hflex]. destruct c as [id|id]; cbn [loadingCall].
  - unfold showLoading. split; cbn [overlay loadingStates].
    + rewrite <- Hp. destruct (overlay l); simpl; split; congruence.
    + intros _ Hpres. apply Hp in Hpres. destruct (overlay l); [reflexivity|congruence].
  - unfold hideLoading. cbv zeta.
    set (states := match id with
                   | Some id => if negb (id =? "")%string
                                then set_delete id (loadingStates l) else []
                   | None => []
                   end).
    split; cbn [overlay loadingStates].
    + rewrite <- Hp. destruct (List.length states =? 0)%nat;
        destruct (overlay l); simpl; split; congruence.
    + intros Hne Hpres.
      destruct states as [|y rest] eqn:Hstates; [congruence|].
      cbn [List.length Nat.eqb]. apply Hflex; [|exact Hpres].
      intros Hnil. subst states. rewrite Hnil in Hstates.
      destruct id as [id|]; [|discriminate].
      destruct (negb (id =? "")%string); discriminate.
Qed.

Lemma overlaid_calls (present : bool) (cs : list LoadingCall) :
  forall l, overlaid present l -> overlaid present (loadingCalls cs l).
Proof.
  induction cs as [|c rest IH]; intros l H; [exact H|].
  cbn [loadingCalls]. apply IH. apply overlaid_call. exact H.
Qed.

End LoadingProperties.

(** X17. The loading overlay follows the loading states: after any calls
    of [showLoading] and [hideLoading] on a page that has the overlay, the
    overlay is displayed as long as a loading state remains; a
    [hideLoading] that leaves no loading state hides it; and [hideLoading]
    without an argument, or with the empty string, drops every loading
    state. *)
Theorem loading_overlay_follows_states
    (cs : list UIComponents.LoadingCall) (d : UIComponents.Display) :
  let l := UIComponents.loadingCalls cs (UIComponents.constructed (Some d)) in
  (UIComponents.loadingStates l <> [] ->
   UIComponents.overlay l = Some UIComponents.Flex) /\
  (forall id,
     UIComponents.loadingStates (UIComponents.hideLoading id l) = [] ->
     UIComponents.overlay (UIComponents.hideLoading id l)
     = Some UIComponents.DisplayNone) /\
  UIComponents.loadingStates (UIComponents.hideLoading None l) = [] /\
  UIComponents.loadingStates (UIComponents.hideLoading (Some "") l) = [].
Proof.
  intros l.
  assert (H0 : UIComponents.overlaid true (UIComponents.constructed (Some d))).
  { split; cbn [UIComponents.constructed UIComponents.overlay
                UIComponents.loadingStates].
    - split; [reflexivity | discriminate].
    - intros H. exfalso. apply H. reflexivity. }
  pose proof (@overlaid_calls true cs _ H0) as [Hp Hflex]. fold l in Hp, Hflex.
  split; [intros Hne; apply Hflex; [exact Hne | reflexivity]|].
  split; [|split; reflexivity].
  intros id Hnone. unfold UIComponents.hideLoading in *. cbv zeta in *.
  cbn [UIComponents.loadingStates UIComponents.overlay] in *.
  rewrite Hnone. cbn [List.length Nat.eqb].
  destruct (UIComponents.overlay l) as [d'|] eqn:Ho; [reflexivity|].
  exfalso. apply (proj2 Hp eq_refl). reflexivity.
Qed.

(** Two loaders: hiding one of them leaves the overlay up. *)
Example loading_two_loaders :
  let l := UIComponents.loadingCalls
             [ UIComponents.ShowLoading "initial";
               UIComponents.ShowLoading "detail";
               UIComponents.HideLoading (Some "initial") ]
             (UIComponents.constructed (Some UIComponents.FromStyleSheet)) in
  UIComponents.loadingStates l = ["detail"] /\
  UIComponents.overlay l = Some UIComponents.Flex /\
  UIComponents.overlay (UIComponents.hideLoading (Some "detail") l)
  = Some UIComponents.DisplayNone.
Proof. repeat split. Qed.

Section SearchBoxProperties.

Lemma length_zero_empty (s : string) : String.length s = 0%nat <-> s = "".
Proof. destruct s; simpl; split; intros H; congruence. Qed.

Lemma trim_empty : trim "" = "".
Proof. reflexivity. Qed.

(** The guard of [performSearch] and the guard of [searchAnime] agree. *)
Lemma search_guards_agree (query : string) :
  ((query =? "")%string || (String.length (trim query) =? 0)%nat)%bool
  = (trim query =? "")%string.
Proof.
  destruct (String.eqb_spec (trim query) "") as [E|N].
  - rewrite E. cbn [String.length Nat.eqb]. apply orb_true_r.
  - apply orb_false_iff. split.
    + apply String.eqb_neq. intros E. apply N. rewrite E. apply trim_empty.
    + apply Nat.eqb_neq. intros E. apply N. apply length_zero_empty. exact E.
Qed.

Lemma substring_length (n : nat) (s : string) :
  String.length (substring 0 n s) = Nat.min n (String.length s).
Proof.
  revert n. induction s as [|c r IH]; intros [|n]; simpl; try reflexivity.
  rewrite IH. reflexivity.
Qed.

Lemma append_length (a b : string) :
  String.length (a ++ b) = (String.length a + String.length b)%nat.
Proof. induction a as [|c r IH]; simpl; [reflexivity|]. rewrite IH. reflexivity. Qed.

Lemma substring_append (a b : string) :
  substring 0 (String.length a) (a ++ b) = a.
Proof. induction a as [|c r IH]; simpl; [destruct b; reflexivity|]. rewrite IH. reflexivity. Qed.

Lemma substring_idem (n : nat) (s : string) :
  substring 0 n (substring 0 n s) = substring 0 n s.
Proof.
  revert n. induction s as [|c r IH]; intros [|n]; simpl; try reflexivity.
  rewrite IH. reflexivity.
Qed.

Lemma addSearchTerm_too_short (term now : string) (setItem_ok : bool)
    (ls : Storage.LocalStorage) :
  (String.length (trim term) < 2)%nat ->
  snd (Storage.addSearchTerm term now setItem_ok ls) = ls.
Proof.
  intros H. unfold Storage.addSearchTerm.
  apply Nat.ltb_lt in H. rewrite H, orb_true_r. reflexivity.
Qed.

End SearchBoxProperties.

(** X18. The search box dispatches a search for every query that is not
    blank, untrimmed as typed, and [searchAnime] then fetches for that
    query (their guards agree).  The history lags behind: a query of one
    character is searched but not recorded, and a longer one is recorded
    first, trimmed and lower-cased, when the write goes through. *)
Theorem performSearch_dispatches_and_records
    (query now : string) (setItem_ok : bool) (ls : Storage.LocalStorage) :
  let r := UIComponents.performSearch query now setItem_ok ls in
  (fst r = None <-> trim query = "") /\
  (fst r = None -> snd r = ls) /\
  (fst r <> None ->
   fst r = Some query /\
   forall page limit env w,
     List.length
       (JikanAPI.fetched (snd (JikanAPI.searchAnime query page limit env w)))
     = S (List.length (JikanAPI.fetched w))) /\
  (String.length (trim query) = 1%nat -> fst r = Some query /\ snd r = ls) /\
  ((2 <= String.length (trim query))%nat -> setItem_ok = true ->
   fst r = Some query /\
   hd_error (Storage.getSearchHistory (snd r))
   = Some {| SearchEntry.term := toLowerCase (trim query);
             SearchEntry.originalTerm := trim query;
             SearchEntry.timestamp := now |}).
Proof.
  intros r. subst r. unfold UIComponents.performSearch.
  destruct (String.eqb_spec (trim query) "") as [E|N].
  - cbn [fst snd]. split; [split; [intros _; exact E | reflexivity]|].
    split; [reflexivity|]. split; [intros H; congruence|].
    rewrite E. cbn [String.length]. split; [discriminate|]. intros H. lia.
  - assert (Hsome : forall p : option bool * Storage.LocalStorage,
              fst (let (_, ls') := p in (Some query, ls')) = Some query).
    { intros [b l]. reflexivity. }
    assert (Hsnd : forall p : option bool * Storage.LocalStorage,
              snd (let (_, ls') := p in (Some query, ls')) = snd p).
    { intros [b l]. reflexivity. }
    rewrite Hsome, Hsnd.
    split; [split; [discriminate | intros E; congruence]|].
    split; [discriminate|]. split; [|split].
    + intros _. split; [reflexivity|]. intros page limit env w.
      unfold JikanAPI.searchAnime. rewrite search_guards_agree.
      apply String.eqb_neq in N. rewrite N. rewrite request_uncached.
      cbn [snd JikanAPI.dispatch JikanAPI.fetched].
      rewrite length_app. cbn [List.length]. lia.
    + intros H1. split; [reflexivity|].
      apply addSearchTerm_too_short. lia.
    + intros H2 Hok. subst setItem_ok. split; [reflexivity|].
      rewrite (addSearchTerm_long_enough query now true ls H2).
      cbn [snd]. rewrite getSearchHistory_setItem. reflexivity.
Qed.

(** X19. The synopsis string that a card's markup is built with is never
    longer than the limit plus three: for a limit of at least 25 (the
    cards use 150 and 200), a non-empty synopsis within the limit is
    interpolated as it is, a longer one is cut to its first [limit]
    characters followed by "...", and a missing or empty one becomes
    "No description available.".  (This is the string handed to
    [innerHTML], not the text displayed.) *)
Theorem synopsis_cut_at_limit (limit : nat) (synopsis : option string) :
  (25 <= limit)%nat ->
  let text := UIComponents.synopsis limit synopsis in
  (String.length text <= limit + 3)%nat /\
  (forall s, synopsis = Some s -> s <> "" ->
     ((String.length s <= limit)%nat -> text = s) /\
     ((limit < String.length s)%nat ->
      String.length text = (limit + 3)%nat /\
      substring 0 limit text = substring 0 limit s /\
      substring limit 3 text = "...")) /\
  (synopsis = None \/ synopsis = Some "" -> text = "No description available.").
Proof.
  intros Hlimit text. subst text. unfold UIComponents.synopsis.
  assert (Hdefault : (limit <? String.length "No description available.")%nat
                     = false) by (apply Nat.ltb_ge; simpl; lia).
  assert (Hcut : forall s, (limit < String.length s)%nat ->
            String.length (substring 0 limit s ++ "...") = (limit + 3)%nat /\
            substring 0 limit (substring 0 limit s ++ "...")
            = substring 0 limit s /\
            substring limit 3 (substring 0 limit s ++ "...") = "...").
  { intros s Hs.
    assert (Hl : String.length (substring 0 limit s) = limit)
      by (rewrite substring_length; lia).
    split; [rewrite append_length, Hl; reflexivity|]. split.
    - rewrite <- Hl at 1. apply substring_append.
    - rewrite <- Hl at 1. clear Hl.
      induction (substring 0 limit s) as [|c r IH]; [reflexivity|exact IH]. }
  split; [|split].
  - destruct synopsis as [s|]; [|rewrite Hdefault; simpl; lia].
    destruct (s =? "")%string; [rewrite Hdefault; simpl; lia|].
    destruct (limit <? String.length s)%nat eqn:E.
    + apply Nat.ltb_lt in E. destruct (Hcut s E) as [H _]. lia.
    + apply Nat.ltb_ge in E. lia.
  - intros s Hs Hne. subst synopsis. apply String.eqb_neq in Hne. rewrite Hne.
    split.
    + intros Hshort. apply Nat.ltb_ge in Hshort. rewrite Hshort. reflexivity.
    + intros Hlong. pose proof (Hcut s Hlong) as H.
      apply Nat.ltb_lt in Hlong. rewrite Hlong. exact H.
  - intros [H|H]; subst synopsis; cbn [String.eqb]; rewrite Hdefault; reflexivity.
Qed.

(** A synopsis of 247 characters in a card that allows 150. *)
Lemma synopsis_cut_at_limit_witness :
  (25 <= 150)%nat /\
  String.length Samples.longSynopsis = 247%nat /\
  let text := UIComponents.synopsis 150 (Some Samples.longSynopsis) in
  String.length text = 153%nat /\
  substring 0 150 text = substring 0 150 Samples.longSynopsis /\
  substring 150 3 text = "...".
Proof.
  assert (H : (25 <= 150)%nat) by lia.
  assert (Hlength : String.length Samples.longSynopsis = 247%nat)
    by (vm_compute; reflexivity).
  split; [exact H|]. split; [exact Hlength|].
  destruct (@synopsis_cut_at_limit 150 (Some Samples.longSynopsis) H)
    as [_ [Hcut _]].
  destruct (Hcut Samples.longSynopsis eq_refl) as [_ Hlong].
  - intros E. rewrite E in Hlength. discriminate Hlength.
  - apply Hlong. rewrite Hlength. lia.
Defined.


(* ===================================================================== *)
(** * Properties of the trending grid *)
(* ===================================================================== *)

Section TrendingProperties.

Import AnimeVaultApp.

Lemma assignIndexed_keys (key : N) (item : Listing.t) (l : list (N * Listing.t)) :
  forall k, In k (map fst (assignIndexed key item l))
            <-> k = key \/ In k (map fst l).
Proof.
  induction l as [|[k0 v0] rest IH]; intros k; simpl.
  - split; [intros [E|[]]; left; congruence | intros [E|[]]; left; congruence].
  - destruct (key <? k0)%N; simpl.
    + split; [intros [E|H]; [left; congruence | right; exact H]
             | intros [E|H]; [left; congruence | right; exact H]].
    + destruct (N.eqb_spec key k0) as [E0|N0]; simpl.
      * subst k0. split; [intros [E|H]; [left; congruence | right; right; exact H]
                         | intros [E|[E|H]]; [left; congruence | left; exact E
                                              | right; exact H]].
      * rewrite IH. split.
        -- intros [E|[E|H]]; [right; left; exact E | left; exact E
                              | right; right; exact H].
        -- intros [E|[E|H]]; [right; left; exact E | left; exact E
                              | right; right; exact H].
Qed.

Lemma assignIndexed_sorted (key : N) (item : Listing.t) (l : list (N * Listing.t)) :
  StronglySorted N.lt (map fst l) ->
  StronglySorted N.lt (map fst (assignIndexed key item l)).
Proof.
  induction l as [|[k0 v0] rest IH]; intros H; simpl.
  - constructor; constructor.
  - simpl in H. inversion H as [|? ? Hrest Hall]; subst.
    destruct (N.ltb_spec key k0) as [Hlt|Hge]; simpl.
    + constructor; [exact H|]. constructor; [exact Hlt|].
      eapply Forall_impl; [|exact Hall]. intros a Ha. cbv beta in Ha. lia.
    + destruct (N.eqb_spec key k0) as [E0|N0]; simpl.
      * constructor; assumption.
      * constructor; [apply IH; exact Hrest|].
        apply Forall_forall. intros k Hk.
        apply assignIndexed_keys in Hk as [E|Hk]; [subst k; lia|].
        rewrite Forall_forall in Hall. apply Hall. exact Hk.
Qed.

Lemma assignIndexed_entries (key : N) (item : Listing.t)
    (l : list (N * Listing.t)) :
  forall kv, In kv (assignIndexed key item l) ->
             kv = (key, item) \/ In kv l.
Proof.
  induction l as [|[k0 v0] rest IH]; intros kv; simpl.
  - intros [E|[]]. left. congruence.
  - destruct (key <? k0)%N; simpl.
    + intros [E|H]; [left; congruence | right; exact H].
    + destruct (N.eqb_spec key k0) as [E0|N0]; simpl.
      * subst k0. intros [E|H]; [left; congruence | right; right; exact H].
      * intros [E|H]; [right; left; exact E|].
        apply IH in H as [E|H]; [left; exact E | right; right; exact H].
Qed.

Lemma assignIndexed_length (key : N) (item : Listing.t)
    (l : list (N * Listing.t)) :
  (List.length (assignIndexed key item l) <= S (List.length l))%nat.
Proof.
  induction l as [|[k0 v0] rest IH]; simpl; [lia|].
  destruct (key <? k0)%N; simpl; [lia|].
  destruct (key =? k0)%N; simpl; lia.
Qed.

Lemma assignNamed_keys (key : N) (item : Listing.t) (l : list (N * Listing.t)) :
  forall k, In k (map fst (assignNamed key item l))
            <-> k = key \/ In k (map fst l).
Proof.
  induction l as [|[k0 v0] rest IH]; intros k; simpl.
  - split; [intros [E|[]]; left; congruence | intros [E|[]]; left; congruence].
  - destruct (N.eqb_spec key k0) as [E0|N0]; simpl.
    + subst k0. split; [intros [E|H]; [left; congruence | right; right; exact H]
                       | intros [E|[E|H]]; [left; congruence | left; exact E
                                            | right; exact H]].
    + rewrite IH. split.
      * intros [E|[E|H]]; [right; left; exact E | left; exact E
                           | right; right; exact H].
      * intros [E|[E|H]]; [right; left; exact E | left; exact E
                           | right; right; exact H].
Qed.

Lemma assignNamed_NoDup (key : N) (item : Listing.t) (l : list (N * Listing.t)) :
  NoDup (map fst l) -> NoDup (map fst (assignNamed key item l)).
Proof.
  induction l as [|[k0 v0] rest IH]; intros H; simpl.
  - constructor; [intros []|constructor].
  - simpl in H. inversion H as [|? ? Hk Hrest]; subst.
    destruct (N.eqb_spec key k0) as [E0|N0]; simpl.
    + constructor; assumption.
    + constructor; [|apply IH; exact Hrest].
      intros Hin. apply assignNamed_keys in Hin as [E|Hin];
        [congruence | contradiction].
Qed.

Lemma assignNamed_entries (key : N) (item : Listing.t)
    (l : list (N * Listing.t)) :
  forall kv, In kv (assignNamed key item l) -> kv = (key, item) \/ In kv l.
Proof.
  induction l as [|[k0 v0] rest IH]; intros kv; simpl.
  - intros [E|[]]. left. congruence.
  - destruct (N.eqb_spec key k0) as [E0|N0]; simpl.
    + subst k0. intros [E|H]; [left; congruence | right; right; exact H].
    + intros [E|H]; [right; left; exact E|].
      apply IH in H as [E|H]; [left; exact E | right; right; exact H].
Qed.

Lemma assignNamed_length (key : N) (item : Listing.t)
    (l : list (N * Listing.t)) :
  (List.length (assignNamed key item l) <= S (List.length l))%nat.
Proof.
  induction l as [|[k0 v0] rest IH]; simpl; [lia|].
  destruct (key =? k0)%N; simpl; lia.
Qed.

End TrendingProperties.

Section TrendingObject.

Import AnimeVaultApp.

Lemma wellFormed_empty : wellFormed emptyObject.
Proof. repeat split; constructor. Qed.

Lemma wellFormed_assign (m : ObjectMap) (item : Listing.t) :
  wellFormed m -> wellFormed (assign m item).
Proof.
  intros [Hi [Hn [Hs Hd]]]. unfold assign. cbv zeta.
  destruct (isArrayIndex (Listing.mal_id item)) eqn:Hidx;
    (split; [|split; [|split]]); cbn [indexed named]; try assumption.
  - apply Forall_forall. intros kv Hkv.
    apply assignIndexed_entries in Hkv as [E|Hkv].
    + subst kv. split; [reflexivity | exact Hidx].
    + rewrite Forall_forall in Hi. apply Hi. exact Hkv.
  - apply assignIndexed_sorted. exact Hs.
  - apply Forall_forall. intros kv Hkv.
    apply assignNamed_entries in Hkv as [E|Hkv].
    + subst kv. split; [reflexivity | exact Hidx].
    + rewrite Forall_forall in Hn. apply Hn. exact Hkv.
  - apply assignNamed_NoDup. exact Hd.
Qed.

Lemma objectValues_assign_in (m : ObjectMap) (item : Listing.t) :
  forall v, In v (objectValues (assign m item)) ->
            v = item \/ In v (objectValues m).
Proof.
  intros v. unfold objectValues, assign. cbv zeta.
  destruct (isArrayIndex (Listing.mal_id item)); cbn [indexed named];
    intros H; apply in_app_or in H as [H|H].
  - apply in_map_iff in H as [kv [Ev Hkv]].
    apply assignIndexed_entries in Hkv as [E|Hkv].
    + left. subst kv. symmetry. exact Ev.
    + right. apply in_or_app. left. apply in_map_iff. exists kv. split; assumption.
  - right. apply in_or_app. right. exact H.
  - right. apply in_or_app. left. exact H.
  - apply in_map_iff in H as [kv [Ev Hkv]].
    apply assignNamed_entries in Hkv as [E|Hkv].
    + left. subst kv. symmetry. exact Ev.
    + right. apply in_or_app. right. apply in_map_iff. exists kv. split; assumption.
Qed.

Lemma objectValues_assign_length (m : ObjectMap) (item : Listing.t) :
  (List.length (objectValues (assign m item))
   <= S (List.length (objectValues m)))%nat.
Proof.
  unfold objectValues, assign. cbv zeta.
  destruct (isArrayIndex (Listing.mal_id item)); cbn [indexed named];
    rewrite !length_app, !length_map.
  - pose proof (assignIndexed_length (Listing.mal_id item) item (indexed m)). lia.
  - pose proof (assignNamed_length (Listing.mal_id item) item (named m)). lia.
Qed.

(** The identifiers filed in the object. *)
Lemma objectKeys_assign (m : ObjectMap) (item : Listing.t) :
  forall k,
    In k (map fst (indexed (assign m item)) ++ map fst (named (assign m item)))%list
    <-> k = Listing.mal_id item
        \/ In k (map fst (indexed m) ++ map fst (named m))%list.
Proof.
  intros k. unfold assign. cbv zeta.
  destruct (isArrayIndex (Listing.mal_id item)); cbn [indexed named];
    rewrite !in_app_iff.
  - rewrite assignIndexed_keys. tauto.
  - rewrite assignNamed_keys. tauto.
Qed.

Lemma fold_assign (anime : list Listing.t) :
  forall m,
    wellFormed m ->
    let m' := fold_left assign anime m in
    wellFormed m' /\
    (forall v, In v (objectValues m') -> In v anime \/ In v (objectValues m)) /\
    (List.length (objectValues m')
     <= List.length anime + List.length (objectValues m))%nat /\
    (forall item, In item anime ->
       In (Listing.mal_id item)
          (map fst (indexed m') ++ map fst (named m'))%list) /\
    (forall k, In k (map fst (indexed m) ++ map fst (named m))%list ->
       In k (map fst (indexed m') ++ map fst (named m'))%list) /\
    (named m = [] ->
     Forall (fun item => isArrayIndex (Listing.mal_id item) = true) anime ->
     named m' = []).
Proof.
  induction anime as [|item rest IH]; intros m Hwf; cbn [fold_left].
  - cbv zeta. split; [exact Hwf|]. split; [intros v H; right; exact H|].
    split; [simpl; lia|]. split; [intros item []|].
    split; [intros k H; exact H | intros H _; exact H].
  - destruct (IH (assign m item) (wellFormed_assign item Hwf))
      as [Hwf' [Hin [Hlen [Hall [Hkeep Hnamed]]]]].
    cbv zeta. split; [exact Hwf'|]. split; [|split; [|split; [|split]]].
    + intros v Hv. apply Hin in Hv as [Hv|Hv]; [left; right; exact Hv|].
      apply objectValues_assign_in in Hv as [E|Hv];
        [left; left; symmetry; exact E | right; exact Hv].
    + pose proof (objectValues_assign_length m item). simpl List.length. lia.
    + intros x [E|Hx]; [|apply Hall; exact Hx].
      subst x. apply Hkeep. apply objectKeys_assign. left. reflexivity.
    + intros k Hk. apply Hkeep. apply objectKeys_assign. right. exact Hk.
    + intros Hm Hidx. inversion Hidx as [|? ? Hi Hrest]; subst.
      apply Hnamed; [|exact Hrest].
      unfold assign. cbv zeta. rewrite Hi. exact Hm.
Qed.

Lemma wellFormed_ids (m : ObjectMap) :
  wellFormed m ->
  map Listing.mal_id (objectValues m)
  = (map fst (indexed m) ++ map fst (named m))%list.
Proof.
  intros [Hi [Hn _]]. unfold objectValues. rewrite map_app, !map_map.
  f_equal; apply map_ext_in; intros kv Hkv.
  - rewrite Forall_forall in Hi. apply Hi. exact Hkv.
  - rewrite Forall_forall in Hn. apply Hn. exact Hkv.
Qed.

Lemma StronglySorted_lt_NoDup (l : list N) :
  StronglySorted N.lt l -> NoDup l.
Proof.
  induction 1 as [|x l Hl IH Hall]; constructor; [|exact IH].
  intros Hin. rewrite Forall_forall in Hall. specialize (Hall x Hin). lia.
Qed.

Lemma StronglySorted_firstn (n : nat) (l : list N) :
  StronglySorted N.lt l -> StronglySorted N.lt (firstn n l).
Proof.
  intros H. revert n. induction H as [|x l Hl IH Hall]; intros n.
  - rewrite firstn_nil. constructor.
  - destruct n; [constructor|]. rewrite firstn_cons. constructor; [apply IH|].
    apply Forall_forall. intros y Hy. apply In_firstn in Hy.
    rewrite Forall_forall in Hall. apply Hall. exact Hy.
Qed.

Lemma wellFormed_NoDup (m : ObjectMap) :
  wellFormed m -> NoDup (map Listing.mal_id (objectValues m)).
Proof.
  intros Hwf. rewrite (wellFormed_ids Hwf).
  destruct Hwf as [Hi [Hn [Hs Hd]]].
  apply NoDup_app; [apply StronglySorted_lt_NoDup; exact Hs | exact Hd |].
  intros k Hk1 Hk2.
  apply in_map_iff in Hk1 as [kv1 [E1 H1]].
  apply in_map_iff in Hk2 as [kv2 [E2 H2]].
  rewrite Forall_forall in Hi, Hn.
  destruct (Hi kv1 H1) as [_ Ht]. destruct (Hn kv2 H2) as [_ Hf].
  rewrite E1 in Ht. rewrite E2 in Hf. congruence.
Qed.

Lemma uniqueAnime_length (anime : list Listing.t) :
  (List.length (uniqueAnime anime) <= List.length anime)%nat.
Proof.
  unfold uniqueAnime. cbv zeta.
  destruct (@fold_assign anime emptyObject wellFormed_empty)
    as [_ [_ [Hlen _]]].
  cbn [objectValues emptyObject indexed named app map List.length] in Hlen.
  rewrite length_firstn. lia.
Qed.

(** Entries to show leave at least one to be shown. *)
Lemma uniqueAnime_nonempty (anime : list Listing.t) :
  anime <> [] -> uniqueAnime anime <> [].
Proof.
  intros Hne. unfold uniqueAnime. cbv zeta.
  destruct (@fold_assign anime emptyObject wellFormed_empty)
    as [_ [_ [_ [Hall _]]]].
  set (m := fold_left assign anime emptyObject) in *.
  destruct anime as [|item rest]; [contradiction|].
  specialize (Hall item (or_introl eq_refl)).
  unfold objectValues.
  destruct (indexed m) as [|kv1 l1]; [destruct (named m) as [|kv2 l2]|].
  - destruct Hall.
  - cbn [map app firstn]. discriminate.
  - cbn [map app firstn]. discriminate.
Qed.

(** What the two results give [loadTrendingAnime] to concatenate. *)
Lemma entries_listed (result : AnimeDetailPage.ApiResult Listing.t) :
  result <> AnimeDetailPage.NullData ->
  entries result = Some (listed result) /\
  pageSize result = List.length (listed result).
Proof. destruct result; intros H; [| contradiction | |]; split; reflexivity. Qed.

(** A load that shows nothing. *)
Lemma loadTrendingAnime_failure (page : Z) (append : bool)
    (result1 result2 : AnimeDetailPage.ApiResult Listing.t)
    (app : App) (screen : Screen) :
  match entries result1, entries result2 with
  | Some first, Some second => uniqueAnime (first ++ second) = []
  | _, _ => True
  end ->
  loadTrendingAnime page append true result1 result2 app screen
  = ({| currentPage := currentPage app; hasMoreData := hasMoreData app;
        isLoading := false |},
     {| grid := if append then grid screen else repeat Skeleton 12;
        toasts := (toasts screen ++ ["Failed to load trending anime"])%list;
        asked := (asked screen ++ [page; page + 1])%list |}).
Proof.
  intros H. unfold loadTrendingAnime. cbn [negb]. cbv zeta.
  destruct (entries result1) as [first|];
    [destruct (entries result2) as [second|]|];
    try rewrite H; destruct append; reflexivity.
Qed.

End TrendingObject.

(** X20. What the trending grid shows of the two pages it concatenates: no
    identifier twice, at most 60 entries, only entries of the pages, and --
    when there are at most 60 entries in all -- every identifier of the
    pages.  The order is not the order of the pages: when the identifiers
    are array indices (below 2^32 - 1), the entries are shown in ascending
    order of identifier. *)
Theorem trending_unique_in_identifier_order (anime : list Listing.t) :
  let shown := AnimeVaultApp.uniqueAnime anime in
  NoDup (map Listing.mal_id shown) /\
  (List.length shown <= 60)%nat /\
  (List.length shown <= List.length anime)%nat /\
  (forall item, In item shown -> In item anime) /\
  ((List.length anime <= 60)%nat ->
   forall item, In item anime ->
     In (Listing.mal_id item) (map Listing.mal_id shown)) /\
  (Forall (fun item => AnimeVaultApp.isArrayIndex (Listing.mal_id item) = true)
          anime ->
   StronglySorted N.lt (map Listing.mal_id shown)).
Proof.
  intros shown. subst shown. unfold AnimeVaultApp.uniqueAnime. cbv zeta.
  destruct (@fold_assign anime AnimeVaultApp.emptyObject wellFormed_empty)
    as [Hwf [Hin [Hlen [Hall [_ Hnamed]]]]].
  set (m := fold_left AnimeVaultApp.assign anime AnimeVaultApp.emptyObject) in *.
  cbn [AnimeVaultApp.objectValues AnimeVaultApp.emptyObject
       AnimeVaultApp.indexed AnimeVaultApp.named app map List.length] in Hlen, Hin.
  split; [|split; [|split; [|split; [|split]]]].
  - rewrite <- firstn_map. apply NoDup_firstn. apply wellFormed_NoDup. exact Hwf.
  - apply firstn_le_length.
  - rewrite length_firstn. lia.
  - intros item Hitem. apply In_firstn in Hitem.
    apply Hin in Hitem as [H|[]]. exact H.
  - intros Hsmall item Hitem.
    rewrite firstn_all2 by lia.
    rewrite (wellFormed_ids Hwf). apply Hall. exact Hitem.
  - intros Hidx. rewrite <- firstn_map. apply StronglySorted_firstn.
    rewrite (wellFormed_ids Hwf). rewrite (Hnamed eq_refl Hidx).
    cbn [map]. rewrite app_nil_r. apply Hwf.
Qed.

(** Four entries in the order of their rank, one of them twice: the grid
    shows three, by identifier. *)
Example trending_rank_order_lost :
  map Listing.title
    (AnimeVaultApp.uniqueAnime
       [ {| Listing.mal_id := 16498; Listing.title := "Attack on Titan" |};
         {| Listing.mal_id := 20; Listing.title := "Naruto" |};
         {| Listing.mal_id := 1535; Listing.title := "Death Note" |};
         {| Listing.mal_id := 20; Listing.title := "Naruto" |} ])
  = ["Naruto"; "Death Note"; "Attack on Titan"].
Proof. reflexivity. Qed.

(** X21. The trending grid never expects more data.  Each of the two
    pages has at most 25 entries (the limit the client asks for).  When
    neither result has [null] for its data and the pages hold an entry,
    the load shows the cards of the unique entries -- in place of the grid,
    or after it when appending --, toasts nothing, sets [currentPage] and
    sets [hasMoreData] to false, so that a [loadMoreTrending] called in
    the state the load leaves asks for nothing and changes nothing.
    Otherwise the load toasts an error, keeps [hasMoreData] and
    [currentPage], and leaves the grid as it is: on a first load, the
    twelve skeleton cards.  Either way [isLoading] ends false and exactly
    the two pages were asked for. *)
Theorem trending_never_has_more
    (page : Z) (append : bool)
    (result1 result2 : AnimeDetailPage.ApiResult Listing.t)
    (app : AnimeVaultApp.App) (screen : AnimeVaultApp.Screen) :
  (AnimeVaultApp.pageSize result1 <= 25)%nat ->
  (AnimeVaultApp.pageSize result2 <= 25)%nat ->
  let loaded :=
    AnimeVaultApp.loadTrendingAnime page append true result1 result2 app screen in
  let app' := fst loaded in
  let screen' := snd loaded in
  let cards :=
    map AnimeVaultApp.Card
      (AnimeVaultApp.uniqueAnime
         (AnimeVaultApp.listed result1 ++ AnimeVaultApp.listed result2)) in
  AnimeVaultApp.isLoading app' = false /\
  AnimeVaultApp.asked screen'
  = (AnimeVaultApp.asked screen ++ [page; page + 1])%list /\
  (result1 <> AnimeDetailPage.NullData ->
   result2 <> AnimeDetailPage.NullData ->
   (0 < AnimeVaultApp.pageSize result1 + AnimeVaultApp.pageSize result2)%nat ->
   cards <> [] /\
   AnimeVaultApp.grid screen'
   = (if append then (AnimeVaultApp.grid screen ++ cards)%list else cards) /\
   AnimeVaultApp.toasts screen' = AnimeVaultApp.toasts screen /\
   AnimeVaultApp.hasMoreData app' = false /\
   AnimeVaultApp.currentPage app' = page /\
   forall found r1 r2,
     AnimeVaultApp.loadMoreTrending found r1 r2 app' screen' = (app', screen')) /\
  (result1 = AnimeDetailPage.NullData \/ result2 = AnimeDetailPage.NullData \/
   (AnimeVaultApp.pageSize result1 + AnimeVaultApp.pageSize result2 = 0)%nat ->
   AnimeVaultApp.grid screen'
   = (if append then AnimeVaultApp.grid screen
      else repeat AnimeVaultApp.Skeleton 12) /\
   AnimeVaultApp.toasts screen'
   = (AnimeVaultApp.toasts screen ++ ["Failed to load trending anime"])%list /\
   AnimeVaultApp.hasMoreData app' = AnimeVaultApp.hasMoreData app /\
   AnimeVaultApp.currentPage app' = AnimeVaultApp.currentPage app).
Proof.
  intros H1 H2 loaded app' screen' cards. subst app' screen' cards loaded.
  set (anime := (AnimeVaultApp.listed result1 ++ AnimeVaultApp.listed result2)%list).
  assert (Hcases :
    (match AnimeVaultApp.entries result1, AnimeVaultApp.entries result2 with
     | Some first, Some second =>
         AnimeVaultApp.uniqueAnime (first ++ second) = []
     | _, _ => True
     end /\
     (result1 = AnimeDetailPage.NullData \/ result2 = AnimeDetailPage.NullData \/
      (AnimeVaultApp.pageSize result1 + AnimeVaultApp.pageSize result2 = 0)%nat))
    \/
    (AnimeVaultApp.entries result1 = Some (AnimeVaultApp.listed result1) /\
     AnimeVaultApp.entries result2 = Some (AnimeVaultApp.listed result2) /\
     result1 <> AnimeDetailPage.NullData /\
     result2 <> AnimeDetailPage.NullData /\
     (0 < List.length anime <= 50)%nat /\
     (0 < AnimeVaultApp.pageSize result1 + AnimeVaultApp.pageSize result2)%nat)).
  { subst anime.
    destruct result1 as [| | |items1]; destruct result2 as [| | |items2];
      cbn [AnimeVaultApp.entries AnimeVaultApp.listed AnimeVaultApp.pageSize
           List.app List.length Nat.add] in *;
      try (left; split; [first [exact I | reflexivity] | tauto]).
    - destruct items2 as [|item rest].
      + left. split; [reflexivity | tauto].
      + right. repeat split; try discriminate; cbn [List.length] in *; lia.
    - destruct items2 as [|item rest].
      + left. split; [reflexivity | tauto].
      + right. repeat split; try discriminate; cbn [List.length] in *; lia.
    - destruct items1 as [|item rest].
      + left. split; [reflexivity | tauto].
      + right. rewrite app_nil_r.
        repeat split; try discriminate; cbn [List.length] in *; lia.
    - destruct items1 as [|item rest].
      + left. split; [reflexivity | tauto].
      + right. rewrite app_nil_r.
        repeat split; try discriminate; cbn [List.length] in *; lia.
    - destruct items1 as [|item1 rest1]; [destruct items2 as [|item2 rest2]|].
      + left. split; [reflexivity|]. right. right. reflexivity.
      + right. repeat split; try discriminate; cbn [List.length List.app] in *; lia.
      + right. repeat split; try discriminate;
          cbn [List.app]; cbn [List.length] in *; rewrite ?length_app; lia. }
  destruct Hcases as [[Hnone Hwhy] | [E1 [E2 [N1 [N2 [Hsome Hpages]]]]]].
  - rewrite (@loadTrendingAnime_failure page append result1 result2 app screen
               Hnone).
    cbn [fst snd AnimeVaultApp.isLoading AnimeVaultApp.asked AnimeVaultApp.grid
         AnimeVaultApp.toasts AnimeVaultApp.hasMoreData
         AnimeVaultApp.currentPage].
    split; [reflexivity|]. split; [reflexivity|]. split.
    + intros M1 M2 Hpos. exfalso.
      destruct Hwhy as [E|[E|E]]; [exact (M1 E) | exact (M2 E) | lia].
    + intros _. repeat split.
  - pose proof (uniqueAnime_length anime) as Hle.
    assert (Hne : anime <> [])
      by (intros E; rewrite E in Hsome; cbn [List.length] in Hsome; lia).
    pose proof (uniqueAnime_nonempty Hne) as Hshown.
    unfold AnimeVaultApp.loadTrendingAnime. cbn [negb]. cbv zeta.
    rewrite E1, E2. fold anime.
    destruct (AnimeVaultApp.uniqueAnime anime) as [|card rest] eqn:Hunique;
      [contradiction|].
    assert (Hfew : (List.length (card :: rest) =? 60)%nat = false)
      by (apply Nat.eqb_neq; lia).
    rewrite Hfew.
    change (0 <? List.length (card :: rest))%nat with true. cbv iota.
    destruct append;
      cbn [negb fst snd AnimeVaultApp.isLoading AnimeVaultApp.asked
           AnimeVaultApp.toasts AnimeVaultApp.hasMoreData
           AnimeVaultApp.currentPage AnimeVaultApp.grid].
    + split; [reflexivity|]. split; [reflexivity|]. split.
      * intros _ _ _. split; [discriminate|]. repeat split.
      * intros Hwhy. exfalso. destruct Hwhy as [E|[E|E]];
          [exact (N1 E) | exact (N2 E) | lia].
    + split; [reflexivity|]. split; [reflexivity|]. split.
      * intros _ _ _. split; [discriminate|]. repeat split.
      * intros Hwhy. exfalso. destruct Hwhy as [E|[E|E]];
          [exact (N1 E) | exact (N2 E) | lia].
Qed.

(** The first load of the homepage, one page answered with three entries
    and the other not at all: three cards, sorted by identifier, and no
    more data expected. *)
Lemma trending_never_has_more_witness :
  (AnimeVaultApp.pageSize Samples.trendingPage <= 25)%nat /\
  (AnimeVaultApp.pageSize (@AnimeDetailPage.Failed Listing.t) <= 25)%nat /\
  let loaded :=
    AnimeVaultApp.loadTrendingAnime 1 false true Samples.trendingPage
      AnimeDetailPage.Failed AnimeVaultApp.constructed Samples.blankScreen in
  List.length (AnimeVaultApp.grid (snd loaded)) = 3%nat /\
  AnimeVaultApp.toasts (snd loaded) = [] /\
  AnimeVaultApp.hasMoreData (fst loaded) = false /\
  AnimeVaultApp.loadMoreTrending true Samples.trendingPage Samples.trendingPage
    (fst loaded) (snd loaded)
  = loaded.
Proof.
  assert (H1 : (AnimeVaultApp.pageSize Samples.trendingPage <= 25)%nat)
    by (simpl; lia).
  assert (H2 : (AnimeVaultApp.pageSize (@AnimeDetailPage.Failed Listing.t)
                <= 25)%nat) by (simpl; lia).
  split; [exact H1|]. split; [exact H2|].
  destruct (@trending_never_has_more 1 false Samples.trendingPage
              AnimeDetailPage.Failed AnimeVaultApp.constructed
              Samples.blankScreen H1 H2) as [_ [_ [Hshown _]]].
  destruct Hshown as [_ [Hgrid [Htoasts [Hmore [_ Hstop]]]]];
    [discriminate | discriminate | simpl; lia |].
  cbv zeta. split; [rewrite Hgrid; reflexivity|].
  split; [exact Htoasts|]. split; [exact Hmore|].
  rewrite (Hstop true Samples.trendingPage Samples.trendingPage).
  symmetry. apply surjective_pairing.
Defined.

(** The first load of the homepage: three entries shown, and no more
    expected although the application started with [hasMoreData]. *)
Example trending_first_load :
  let loaded :=
    AnimeVaultApp.loadTrendingAnime 1 false true Samples.trendingPage
      Samples.trendingPage AnimeVaultApp.constructed Samples.blankScreen in
  AnimeVaultApp.hasMoreData (fst loaded) = false /\
  List.length (AnimeVaultApp.grid (snd loaded)) = 3%nat /\
  AnimeVaultApp.asked (snd loaded) = [1; 2].
Proof. repeat split. Qed.
